(** * ms-graph-sharepoint: the name normaliser and the token-gated request
      pipeline, embedded in Rocq.

    Sources embedded here:
    - [src/utils/normalize.js]        (class [NormalizeUtils])
    - [src/services/msGraph.service.js] (class [MsGraphService])

    JavaScript strings are sequences of UTF-16 code units; they are kept
    as lists of code units so that the regular expressions of the source
    (which have no [u] flag and therefore work unit by unit) read the
    same here. *)

From Stdlib Require Import List String Ascii NArith ZArith QArith Qround Qpower Bool Lia Lqa.
From Stdlib Require Import DecimalPos DecimalN.
Import ListNotations.

Set Implicit Arguments.
Set Warnings "-register-all".

(* ================================================================== *)
(** * Part I. Definitions                                              *)
(* ================================================================== *)

(** ** JavaScript strings *)

Module Js.

Definition jsstring := list N.

(** The code unit of an ASCII character, [ch "a"]. *)
Definition ch (a : ascii) : N := N_of_ascii a.
Arguments ch a%_char.

(** An ASCII literal as a JavaScript string. *)
Definition lit (s : string) : jsstring := map N_of_ascii (list_ascii_of_string s).
Arguments lit s%_string.

Definition jseqb (a b : jsstring) : bool :=
  if list_eq_dec N.eq_dec a b then true else false.

(** [Array.prototype.includes] on an array of strings. *)
Definition includes (l : list jsstring) (x : jsstring) : bool := existsb (jseqb x) l.

Fixpoint starts_with (p s : jsstring) : bool :=
  match p, s with
  | [], _ => true
  | _ :: _, [] => false
  | a :: p', b :: s' => (a =? b)%N && starts_with p' s'
  end.

(** [/literal/.test(s)]: the literal occurs somewhere in [s]. *)
Fixpoint contains (p s : jsstring) : bool :=
  starts_with p s ||
  match s with
  | [] => false
  | _ :: s' => contains p s'
  end.

(** [\s] of a regular expression and the characters removed by
    [String.prototype.trim]: WhiteSpace and LineTerminator. *)
Definition isWhiteSpace (c : N) : bool :=
  ((9 <=? c) && (c <=? 13) || (c =? 32) || (c =? 160) || (c =? 5760)
   || (8192 <=? c) && (c <=? 8202)
   || (c =? 8232) || (c =? 8233) || (c =? 8239) || (c =? 8287)
   || (c =? 12288) || (c =? 65279))%N.

Fixpoint trimStart (s : jsstring) : jsstring :=
  match s with
  | [] => []
  | c :: r => if isWhiteSpace c then trimStart r else s
  end.

Definition trimEnd (s : jsstring) : jsstring := rev (trimStart (rev s)).

Definition trim (s : jsstring) : jsstring := trimEnd (trimStart s).

(** Number of leading code units of [s] that satisfy [p]: the length of
    the greedy match of [[p]*]. *)
Fixpoint run_length (p : N -> bool) (s : jsstring) : nat :=
  match s with
  | c :: r => if p c then S (run_length p r) else O
  | [] => O
  end.

(** *** Regular-expression replacement

    A matcher answers, for the text that starts at the current position,
    the length of the match that begins exactly there ([None]: no match
    at this position).  The flag tells whether the position is the start
    of the input, which is all [^] needs; [$] is seen from the text
    itself. *)
Definition matcher := bool -> jsstring -> option nat.

(** [s.replace(/re/g, f)]: every match, left to right and without
    overlap, is replaced by [f] of the matched text.  [skip] counts the
    code units of the current match that are still to be dropped.  After
    an empty match the scan advances by one unit, as [lastIndex] does. *)
Fixpoint replace_g_from (m : matcher) (f : jsstring -> jsstring)
         (at_start : bool) (skip : nat) (s : jsstring) : jsstring :=
  match s with
  | [] =>
      match skip, m at_start [] with
      | O, Some _ => f []
      | _, _ => []
      end
  | c :: r =>
      match skip with
      | S k => replace_g_from m f false k r
      | O =>
          match m at_start s with
          | Some (S n) => f (firstn (S n) s) ++ replace_g_from m f false n r
          | Some O => f [] ++ c :: replace_g_from m f false O r
          | None => c :: replace_g_from m f false O r
          end
      end
  end.

Definition replace_g_fn (m : matcher) (f : jsstring -> jsstring) (s : jsstring) : jsstring :=
  replace_g_from m f true O s.

Definition replace_g (m : matcher) (repl : jsstring) (s : jsstring) : jsstring :=
  replace_g_fn m (fun _ => repl) s.

(** [s.replace(/re/, repl)] without the [g] flag: only the first match. *)
Fixpoint replace_first_from (m : matcher) (repl : jsstring)
         (at_start : bool) (s : jsstring) : jsstring :=
  match m at_start s with
  | Some n => repl ++ skipn n s
  | None =>
      match s with
      | [] => []
      | c :: r => c :: replace_first_from m repl false r
      end
  end.

Definition replace_first (m : matcher) (repl : jsstring) (s : jsstring) : jsstring :=
  replace_first_from m repl true s.

(** [/[class]/]: one code unit of a class. *)
Definition re_class (p : N -> bool) : matcher :=
  fun _ s => match s with
             | c :: _ => if p c then Some 1%nat else None
             | [] => None
             end.

(** [/[class]+/]: a non-empty greedy run of a class. *)
Definition re_class_plus (p : N -> bool) : matcher :=
  fun _ s => match run_length p s with
             | O => None
             | n => Some n
             end.

(** [String.prototype.split] on a one-unit separator. *)
Fixpoint split (sep : N) (s : jsstring) : list jsstring :=
  match s with
  | [] => [[]]
  | c :: r =>
      if (c =? sep)%N then [] :: split sep r
      else match split sep r with
           | h :: t => (c :: h) :: t
           | [] => [[c]]
           end
  end.

(** *** Numbers to text *)

Fixpoint digits_of_uint (d : Decimal.uint) : jsstring :=
  match d with
  | Decimal.Nil => []
  | Decimal.D0 d => ch "0" :: digits_of_uint d
  | Decimal.D1 d => ch "1" :: digits_of_uint d
  | Decimal.D2 d => ch "2" :: digits_of_uint d
  | Decimal.D3 d => ch "3" :: digits_of_uint d
  | Decimal.D4 d => ch "4" :: digits_of_uint d
  | Decimal.D5 d => ch "5" :: digits_of_uint d
  | Decimal.D6 d => ch "6" :: digits_of_uint d
  | Decimal.D7 d => ch "7" :: digits_of_uint d
  | Decimal.D8 d => ch "8" :: digits_of_uint d
  | Decimal.D9 d => ch "9" :: digits_of_uint d
  end.

(** The decimal numeral of a natural number, as template literals and
    [toFixed] print it. *)
Definition decimal (n : N) : jsstring := digits_of_uint (N.to_uint n).

Definition isDigit (c : N) : bool := ((48 <=? c) && (c <=? 57))%N.

(** *** Numbers

    A Number is a binary64 value; the finite ones are rationals and are
    kept as such.  An arithmetic operation of the language gives the
    binary64 value nearest to the exact result, the one with the even
    significand on a tie: [binary64] of the exact result.  The
    significand has 53 bits and the least exponent is -1074, below which
    the values are evenly spaced (the subnormal numbers).  Results of
    [2^1024] and more, for which the language has [Infinity], are not
    in the range of this model. *)

(** The integer nearest to [x], the even one on a tie. *)
Definition round_half_even (x : Q) : Z :=
  let f := Qfloor x in
  match Qcompare (x - inject_Z f) (1 # 2) with
  | Lt => f
  | Eq => if Z.even f then f else (f + 1)%Z
  | Gt => (f + 1)%Z
  end.

(** The integer part of the binary logarithm of a positive [x]. *)
Definition ilog2 (x : Q) : Z :=
  let e := (Z.log2 (Qnum x) - Z.log2 (Zpos (Qden x)))%Z in
  if Qle_bool (2 ^ e) x then e else (e - 1)%Z.

(** The binary64 value nearest to a positive [x]: [x] is rounded to a
    multiple of [2^e], where [e] is the exponent of the last bit of a
    53-bit significand for the magnitude of [x]. *)
Definition binary64_pos (x : Q) : Q :=
  let e := Z.max (ilog2 x - 52) (-1074) in
  inject_Z (round_half_even (x / 2 ^ e)) * 2 ^ e.

Definition binary64 (x : Q) : Q :=
  match Qcompare x 0 with
  | Eq => 0
  | Gt => binary64_pos x
  | Lt => - binary64_pos (- x)
  end.

(** [x.toFixed(0)] for a number [x] below [10^21] in absolute value: the
    integer [n] nearest to [x], the larger one on a tie, printed in
    decimal; a negative [x] is printed as ["-"] followed by the result
    for [-x]. *)
Definition round_half_up (x : Q) : N := Z.to_N (Qfloor (x + (1 # 2))).

Definition toFixed0 (x : Q) : jsstring :=
  if Qlt_le_dec x 0 then lit "-" ++ decimal (round_half_up (- x))
  else decimal (round_half_up x).

Definition hexDigitUpper (d : N) : N :=
  if (d <? 10)%N then (48 + d)%N else (55 + d)%N.

(** Two upper-case hexadecimal digits of an octet. *)
Definition hex2 (b : N) : jsstring := [hexDigitUpper (b / 16); hexDigitUpper (b mod 16)].

Fixpoint hex_digits_fuel (fuel : nat) (n : N) (acc : jsstring) : jsstring :=
  match fuel with
  | O => acc
  | S k =>
      let acc' := hexDigitUpper (n mod 16) :: acc in
      if (n / 16 =? 0)%N then acc' else hex_digits_fuel k (n / 16) acc'
  end.

(** [n.toString(16).toUpperCase()] for a code unit [n]; a code unit has
    at most four hexadecimal digits. *)
Definition toString16Upper (n : N) : jsstring := hex_digits_fuel 4 n [].

End Js.

(** ** The URI functions of the language that the source calls

    [encodeURIComponent] and [decodeURIComponent] follow the abstract
    operations Encode and Decode of ECMA-262.  Both can throw a
    [URIError]; that outcome is [None]. *)

Module Uri.
Import Js.

Definition isAlnum (c : N) : bool :=
  (isDigit c || (65 <=? c) && (c <=? 90) || (97 <=? c) && (c <=? 122))%N.

(** The set left alone by [encodeURIComponent]. *)
Definition uriUnescaped (c : N) : bool :=
  isAlnum c || existsb (N.eqb c) [ch "-"; ch "_"; ch "."; ch "!"; ch "~";
                                  ch "*"; ch "'"; ch "("; ch ")"].

Definition isHighSurrogate (c : N) : bool := ((55296 <=? c) && (c <=? 56319))%N.
Definition isLowSurrogate (c : N) : bool := ((56320 <=? c) && (c <=? 57343))%N.

Definition utf8 (cp : N) : list N :=
  (if cp <? 128 then [cp]
   else if cp <? 2048 then [192 + cp / 64; 128 + cp mod 64]
   else if cp <? 65536 then
     [224 + cp / 4096; 128 + (cp / 64) mod 64; 128 + cp mod 64]
   else
     [240 + cp / 262144; 128 + (cp / 4096) mod 64;
      128 + (cp / 64) mod 64; 128 + cp mod 64])%N.

Definition percent_octets (l : list N) : jsstring :=
  flat_map (fun b => ch "%" :: hex2 b) l.

(** Encode: [skip] is 1 while the low half of a surrogate pair, already
    encoded with its high half, is passed over. *)
Fixpoint Encode_from (skip : nat) (s : jsstring) : option jsstring :=
  match s with
  | [] => Some []
  | c :: r =>
      match skip with
      | S k => Encode_from k r
      | O =>
          if uriUnescaped c then option_map (cons c) (Encode_from O r)
          else if isHighSurrogate c then
            match r with
            | d :: _ =>
                if isLowSurrogate d then
                  option_map
                    (app (percent_octets
                            (utf8 (65536 + (c - 55296) * 1024 + (d - 56320))%N)))
                    (Encode_from 1 r)
                else None
            | [] => None
            end
          else if isLowSurrogate c then None
          else option_map (app (percent_octets (utf8 c))) (Encode_from O r)
      end
  end.

Definition encodeURIComponent (s : jsstring) : option jsstring := Encode_from O s.

Definition hexval (c : N) : option N :=
  (if isDigit c then Some (c - 48)
   else if (65 <=? c) && (c <=? 70) then Some (c - 55)
   else if (97 <=? c) && (c <=? 102) then Some (c - 87)
   else None)%N.

Definition parseHexOctet (s : jsstring) : option (N * jsstring) :=
  match s with
  | a :: b :: r =>
      match hexval a, hexval b with
      | Some x, Some y => Some ((16 * x + y)%N, r)
      | _, _ => None
      end
  | _ => None
  end.

(** The [n] further escapes [%XX] of a multi-octet sequence. *)
Fixpoint read_continuation (n : nat) (s : jsstring) : option (list N) :=
  match n with
  | O => Some []
  | S k =>
      match s with
      | p :: r =>
          if (p =? ch "%")%N then
            match parseHexOctet r with
            | Some (b, r') => option_map (cons b) (read_continuation k r')
            | None => None
            end
          else None
      | [] => None
      end
  end.

Definition leading_ones (b : N) : nat :=
  if (b <? 128)%N then 0%nat else if (b <? 192)%N then 1%nat
  else if (b <? 224)%N then 2%nat else if (b <? 240)%N then 3%nat
  else if (b <? 248)%N then 4%nat else 5%nat.

Definition isContinuation (b : N) : bool := ((128 <=? b) && (b <? 192))%N.

(** The code point of a well-formed UTF-8 sequence of two to four
    octets: shortest form, no surrogate, at most U+10FFFF. *)
Definition utf8_decode (octets : list N) : option N :=
  match octets with
  | [b0; b1] =>
      let cp := ((b0 - 192) * 64 + (b1 - 128))%N in
      if isContinuation b1 && (128 <=? cp)%N then Some cp else None
  | [b0; b1; b2] =>
      let cp := ((b0 - 224) * 4096 + (b1 - 128) * 64 + (b2 - 128))%N in
      if isContinuation b1 && isContinuation b2 && (2048 <=? cp)%N
         && negb ((55296 <=? cp) && (cp <=? 57343))%N
      then Some cp else None
  | [b0; b1; b2; b3] =>
      let cp := ((b0 - 240) * 262144 + (b1 - 128) * 4096
                 + (b2 - 128) * 64 + (b3 - 128))%N in
      if isContinuation b1 && isContinuation b2 && isContinuation b3
         && (65536 <=? cp)%N && (cp <=? 1114111)%N
      then Some cp else None
  | _ => None
  end.

Definition utf16 (cp : N) : jsstring :=
  (if cp <? 65536 then [cp]
   else [55296 + (cp - 65536) / 1024; 56320 + (cp - 65536) mod 1024])%N.

(** What an escape decodes to, given the text after its [%], and how
    many code units after that [%] belong to it. *)
Definition decode_escape (r : jsstring) : option (jsstring * nat) :=
  match parseHexOctet r with
  | None => None
  | Some (b, r') =>
      match leading_ones b with
      | O => Some ([b], 2%nat)
      | S O => None
      | S (S m) =>
          if (2 <? m)%nat then None
          else
            match read_continuation (S m) r' with
            | Some bs =>
                match utf8_decode (b :: bs) with
                | Some cp => Some (utf16 cp, (2 + 3 * S m)%nat)
                | None => None
                end
            | None => None
            end
      end
  end.

(** Decode with an empty reserved set. *)
Fixpoint Decode_from (skip : nat) (s : jsstring) : option jsstring :=
  match s with
  | [] => Some []
  | c :: r =>
      match skip with
      | S k => Decode_from k r
      | O =>
          if (c =? ch "%")%N then
            match decode_escape r with
            | Some (units, n) => option_map (app units) (Decode_from n r)
            | None => None
            end
          else option_map (cons c) (Decode_from O r)
      end
  end.

Definition decodeURIComponent (s : jsstring) : option jsstring := Decode_from O s.

End Uri.

(** ** [src/utils/normalize.js] *)

Module NormalizeUtils.
Import Js Uri.

(** [[^ ~]] *)
Definition notSpaceTilde (c : N) : bool := negb ((c =? ch " ") || (c =? ch "~"))%N.

(** The rest of a link after its scheme: [:\/\/[^ ~]+]; [n] is the
    length already matched. *)
Definition re_link_tail (n : nat) (s : jsstring) : option nat :=
  if starts_with (lit "://") s then
    match run_length notSpaceTilde (skipn 3 s) with
    | O => None
    | k => Some (n + 3 + k)%nat
    end
  else None.

(** [/https?:\/\/[^ ~]+/]: the optional [s] is tried first, and given up
    when the rest does not match. *)
Definition re_link : matcher :=
  fun _ s =>
    if starts_with (lit "http") s then
      let r := skipn 4 s in
      match (if starts_with (lit "s") r then re_link_tail 5 (skipn 1 r) else None) with
      | Some n => Some n
      | None => re_link_tail 4 r
      end
    else None.

Definition removeLinks (text : jsstring) : jsstring := replace_g re_link [] text.

(** The alternation of the second replacement: the double quote (code
    unit 34), then [\{|\}|\*|:|<|>|\?|\/|\%|\+|\|]. *)
Definition isStripped (c : N) : bool :=
  existsb (N.eqb c)
    [34%N; ch "{"; ch "}"; ch "*"; ch ":"; ch "<"; ch ">";
     ch "?"; ch "/"; ch "%"; ch "+"; ch "|"].

Definition isChar (a : ascii) (c : N) : bool := (c =? ch a)%N.
Arguments isChar a%_char c.

(** [/^~/] *)
Definition re_leading_tilde : matcher :=
  fun at_start s =>
    match s with
    | c :: _ => if at_start && isChar "~" c then Some 1%nat else None
    | [] => None
    end.

(** [/^\.|\.$/] *)
Definition re_edge_dot : matcher :=
  fun at_start s =>
    match s with
    | c :: r =>
        if isChar "." c then
          if at_start then Some 1%nat
          else match r with [] => Some 1%nat | _ :: _ => None end
        else None
    | [] => None
    end.

(** The chain of replacements of [normalize], up to and including
    [trim()]. *)
Definition normalizedTxt (text : jsstring) : jsstring :=
  let t0 := removeLinks text in
  let t1 := replace_g (re_class (isChar "*")) [] t0 in
  let t2 := replace_g (re_class isStripped) [] t1 in
  let t3 := replace_g (re_class (fun c => isChar "013" c || isChar "009" c)) [] t2 in
  let t4 := replace_g (re_class (isChar "010")) (lit " - ") t3 in
  let t5 := replace_g (re_class (isChar "&")) (lit "and") t4 in
  let t6 := replace_first (re_class_plus (isChar ".")) (lit ".") t5 in
  let t7 := replace_first re_leading_tilde [] t6 in
  let t8 := replace_first re_edge_dot [] t7 in
  let t9 := replace_first (re_class_plus isWhiteSpace) (lit " ") t8 in
  trim t9.

Definition invalidNames : list jsstring :=
  [lit ".lock"; lit "CON"; lit "PRN"; lit "AUX"; lit "NUL"; lit "_vti_"; lit "desktop.ini"]
    ++ map (fun i => lit "COM" ++ decimal (N.of_nat i)) (seq 0 10)
    ++ map (fun i => lit "LPT" ++ decimal (N.of_nat i)) (seq 0 10).

(** [(Math.random() * 1000).toFixed(0)], for the value [rnd] that
    [Math.random()] returned: the product is the binary64 value nearest
    to the exact one, and [toFixed] prints that value. *)
Definition numberTxt (rnd : Q) : jsstring := toFixed0 (binary64 (rnd * 1000)).

(** [rnd] is the value of the call of [Math.random()] made by this
    call; it lies in [0, 1). *)
Definition replaceOutlookInvalidNames (rnd : Q) (str : jsstring) : jsstring :=
  if contains (lit "_vti_") str then lit "vti" ++ numberTxt rnd
  else if includes invalidNames str then str ++ numberTxt rnd
  else str.

Definition normalize (rnd : Q) (text : jsstring) : jsstring :=
  replaceOutlookInvalidNames rnd (normalizedTxt text).

Definition isRfc3986Extra (c : N) : bool :=
  existsb (N.eqb c) [ch "!"; ch "'"; ch "("; ch ")"; ch "*"].

Definition encodeRFC3986URIComponent (str : jsstring) : option jsstring :=
  option_map
    (replace_g_fn (re_class isRfc3986Extra)
       (fun m => match m with
                 | c :: _ => ch "%" :: toString16Upper c
                 | [] => [ch "%"]
                 end))
    (encodeURIComponent str).

Definition encode (rnd : Q) (text : jsstring) : option jsstring :=
  encodeRFC3986URIComponent (normalize rnd text).

Definition decode (rnd : Q) (text : jsstring) : option jsstring :=
  decodeURIComponent (normalize rnd text).

(** [decode(encode(s))]: two calls of [normalize], hence two draws. *)
Definition decode_encode (rnd1 rnd2 : Q) (s : jsstring) : option jsstring :=
  match encode rnd1 s with
  | Some e => decode rnd2 e
  | None => None
  end.

End NormalizeUtils.

(** ** [src/services/msGraph.service.js] *)

Module MsGraphService.
Import Js.

(** *** Values, payloads and errors *)

(** A parsed JSON payload.  A number is kept as its canonical text
    ([Number::toString]), which is all the source ever asks of one. *)
Inductive json :=
| JNull
| JBool (b : bool)
| JNum (repr : jsstring)
| JStr (s : jsstring)
| JArr (items : list json)
| JObj (fields : list (jsstring * json)).

(** A value of the language as the service meets them: [None] is
    [undefined]. *)
Definition value := option json.

Definition str (s : jsstring) : value := Some (JStr s).

Inductive exn :=
| BaseError (message : jsstring) (detail : detail)
| TypeError
| FetchFailed
| JsonFailed
| FsFailed
| URIError
with detail :=
| NoDetail
| DetailExn (e : exn)
| DetailValue (v : value).

Inductive result (A : Type) :=
| Ok (a : A)
| Throw (e : exn).
Arguments Ok {A} a.
Arguments Throw {A} e.

(** Truthiness ([ToBoolean]). *)
Definition truthy (v : value) : bool :=
  match v with
  | None => false
  | Some JNull => false
  | Some (JBool b) => b
  | Some (JNum r) => negb (jseqb r (lit "0"))
  | Some (JStr s) => negb (jseqb s [])
  | Some (JArr _) => true
  | Some (JObj _) => true
  end.

Fixpoint lookup (name : jsstring) (fields : list (jsstring * json)) : value :=
  match fields with
  | [] => None
  | (k, v) :: r => if jseqb k name then Some v else lookup name r
  end.

(** [v.name], for the property names the source reads ([error],
    [message], [access_token], [refresh_token]): none of them exists on
    a primitive or on an array; reading from [null] or [undefined]
    throws. *)
Definition get (v : value) (name : jsstring) : result value :=
  match v with
  | None => Throw TypeError
  | Some JNull => Throw TypeError
  | Some (JObj fields) => Ok (lookup name fields)
  | Some _ => Ok None
  end.

(** [v?.name] *)
Definition get_opt (v : value) (name : jsstring) : value :=
  match get v name with
  | Ok x => x
  | Throw _ => None
  end.

Fixpoint ToStringJson (v : json) : jsstring :=
  match v with
  | JNull => lit "null"
  | JBool true => lit "true"
  | JBool false => lit "false"
  | JNum r => r
  | JStr s => s
  | JArr items =>
      (fix join (l : list json) : jsstring :=
         let element x := match x with JNull => [] | _ => ToStringJson x end in
         match l with
         | [] => []
         | [x] => element x
         | x :: r => element x ++ lit "," ++ join r
         end) items
  | JObj _ => lit "[object Object]"
  end.

Definition ToString (v : value) : jsstring :=
  match v with
  | None => lit "undefined"
  | Some j => ToStringJson j
  end.

(** [a || b] *)
Definition or_else (a b : value) : value := if truthy a then a else b.

(** [v === 'literal'] *)
Definition strict_eq_string (v : value) (s : jsstring) : bool :=
  match v with
  | Some (JStr t) => jseqb t s
  | _ => false
  end.

(** *** The instance *)

Definition msScopes : jsstring := lit "openid offline_access User.Read Files.ReadWrite.All".
Definition msGraphUrl : jsstring := lit "https://graph.microsoft.com/v1.0/".
Definition MAX_RETRIES : nat := 3.

Record MsGraphServiceParams := {
  domain : value;
  client : value;
  secret : value;
  token : value;
  sharepointFolder_param : option jsstring;
  sharepointFolderUrl_param : option jsstring;
  debug_param : value;
  logToken : value
}.

(** The private fields. *)
Record service := {
  msDomain : value;
  msClientId : value;
  msClientSecret : value;
  msCode : value;
  msAccessToken : value;
  msRefreshToken : value;
  sharepointFolder : jsstring;
  sharepointFolderUrl : jsstring;
  isDebug : bool;
  shouldLogToken : bool
}.

(** The two code units of the warning sign that opens the messages of
    the constructor (U+26A0, U+FE0F), and the surrogate pair of the key
    that opens the line of the token log (U+1F511). *)
Definition warning_sign : jsstring := [9888%N; 65039%N].
Definition key_sign : jsstring := [55357%N; 56593%N].

Definition string_or (s : option jsstring) (default : jsstring) : jsstring :=
  match s with
  | Some (c :: r) => c :: r
  | _ => default
  end.

(** [logout()] *)
Definition logout (this : service) : service :=
  {| msDomain := msDomain this; msClientId := msClientId this;
     msClientSecret := msClientSecret this;
     msCode := Some JNull; msAccessToken := Some JNull; msRefreshToken := Some JNull;
     sharepointFolder := sharepointFolder this;
     sharepointFolderUrl := sharepointFolderUrl this;
     isDebug := isDebug this; shouldLogToken := shouldLogToken this |}.

(** The constructor; [env_debug] is [process.env.MS_GRAPH_DEBUG].  Its
    call of [logout()] clears the code and both tokens before the given
    token is stored. *)
Definition constructor (env_debug : value) (p : MsGraphServiceParams) : result service :=
  if negb (truthy (client p)) then
    Throw (BaseError (warning_sign ++ lit " The Microsoft APP ClientID is required!") NoDetail)
  else if negb (truthy (secret p)) then
    Throw (BaseError (warning_sign ++ lit " The Microsoft APP ClientSecret is required!")
                     NoDetail)
  else
    Ok {| msDomain := domain p;
          msClientId := client p;
          msClientSecret := secret p;
          msCode := Some JNull;
          msAccessToken := token p;
          msRefreshToken := Some JNull;
          sharepointFolder := string_or (sharepointFolder_param p) (lit "me/drive/root");
          sharepointFolderUrl := string_or (sharepointFolderUrl_param p) (lit "Shared Documents/");
          isDebug := truthy (debug_param p) || strict_eq_string env_debug (lit "true");
          shouldLogToken := strict_eq_string (logToken p) (lit "true") |}.

(** *** The outside world

    What the collaborators answer is fixed in advance, call by call: the
    [n]-th request to the Graph API, the [n]-th request to the token
    endpoint, the file system.  A theorem for every [world] holds for
    every behaviour of the collaborators. *)

Record response := {
  status : N;
  statusText : jsstring;
  body : option json       (* [None]: [response.json()] rejects *)
}.

Record world := {
  graph : nat -> option response;     (* [None]: [fetch] rejects *)
  auth : nat -> option response;
  file_exists : jsstring -> bool;
  file_content : jsstring -> option (list N)
}.

Inductive event :=
| EvRequest (url method : jsstring) (content : option (list N)) (bearer : value)
| EvTokenRequest (grant_type : jsstring) (credential : value)
| EvAccess (path : jsstring)
| EvReadFile (path : jsstring)
| EvConsoleInfo (text : jsstring) (arg : value)
| EvConsoleError (url : jsstring) (payload : json)
| EvDebug (path : jsstring).

Record state := {
  this : service;
  trace : list event;        (* oldest first *)
  requests : nat;            (* requests made to the Graph API so far *)
  token_requests : nat       (* requests made to the token endpoint so far *)
}.

(** *** State and exceptions *)

Definition M (A : Type) : Type := state -> result A * state.

Definition ret {A} (a : A) : M A := fun st => (Ok a, st).
Definition throw {A} (e : exn) : M A := fun st => (Throw e, st).
Definition bind {A B} (m : M A) (k : A -> M B) : M B :=
  fun st => match m st with
            | (Ok a, st') => k a st'
            | (Throw e, st') => (Throw e, st')
            end.
Definition try_catch {A} (m : M A) (handler : exn -> M A) : M A :=
  fun st => match m st with
            | (Ok a, st') => (Ok a, st')
            | (Throw e, st') => handler e st'
            end.
Definition lift {A} (r : result A) : M A := fun st => (r, st).

Declare Scope js_scope.
Delimit Scope js_scope with js.
Notation "x <- m ;; k" := (bind m (fun x => k))
  (at level 61, m at next level, right associativity) : js_scope.
Notation "m ;; k" := (bind m (fun _ => k))
  (at level 61, right associativity) : js_scope.
Local Open Scope js_scope.

Definition emit (e : event) : M unit :=
  fun st => (Ok tt, {| this := this st; trace := trace st ++ [e];
                       requests := requests st;
                       token_requests := token_requests st |}).

Definition set_tokens (access refresh : value) : M unit :=
  fun st =>
    let s := this st in
    (Ok tt,
     {| this := {| msDomain := msDomain s; msClientId := msClientId s;
                   msClientSecret := msClientSecret s; msCode := msCode s;
                   msAccessToken := access; msRefreshToken := refresh;
                   sharepointFolder := sharepointFolder s;
                   sharepointFolderUrl := sharepointFolderUrl s;
                   isDebug := isDebug s; shouldLogToken := shouldLogToken s |};
        trace := trace st; requests := requests st;
        token_requests := token_requests st |}).

Definition read {A} (f : service -> A) : M A := fun st => (Ok (f (this st)), st).

(** [response.json()] *)
Definition json_of (r : response) : M json :=
  match body r with
  | Some j => ret j
  | None => throw JsonFailed
  end.

Section Methods.

Variable w : world.

(** [#debug(path, message)]: the three [console.debug] calls are one
    event; the message is not kept. *)
Definition debug (path : jsstring) : M unit :=
  d <- read isDebug ;;
  if d then emit (EvDebug path) else ret tt.

(** [#setAuthorizationTokens(authorization)] *)
Definition setAuthorizationTokens (authorization : json) : M unit :=
  access <- lift (get (Some authorization) (lit "access_token")) ;;
  refresh <- lift (get (Some authorization) (lit "refresh_token")) ;;
  set_tokens access refresh ;;
  l <- read shouldLogToken ;;
  if l then
    t <- read msAccessToken ;;
    emit (EvConsoleInfo (key_sign ++ lit " MS Access Token: %s" ++ [ch "010"]) t)
  else ret tt.

(** The [fetch] of [#requestAuthorizationToken]. *)
Definition fetch_token (grant_type : jsstring) (credential : value) : M response :=
  fun st =>
    let st' := {| this := this st;
                  trace := trace st ++ [EvTokenRequest grant_type credential];
                  requests := requests st;
                  token_requests := S (token_requests st) |} in
    match auth w (token_requests st) with
    | Some r => (Ok r, st')
    | None => (Throw FetchFailed, st')
    end.

(** [#requestAuthorizationToken(token, grant_type)] *)
Definition requestAuthorizationToken (credential : value) (grant_type : jsstring) : M json :=
  let tokenKey := if jseqb grant_type (lit "refresh_token") then grant_type else lit "code" in
  try_catch
    (r <- fetch_token grant_type credential ;;
     debug (lit "RequestAuthorizationToken") ;;
     authorization <- json_of r ;;
     debug (lit "RequestAuthorizationToken") ;;
     e <- lift (get (Some authorization) (lit "error")) ;;
     (if truthy e then
        throw (BaseError
                 (ToString (or_else (get_opt e (lit "message"))
                                    (str (lit "Error in get authorization token"))))
                 NoDetail)
      else ret tt) ;;
     setAuthorizationTokens authorization ;;
     ret authorization)
    (fun error =>
       debug (lit "RequestAuthorizationToken") ;;
       throw (BaseError (lit "Cannot get the Sharepoint authorization " ++ tokenKey) NoDetail)).

(** [#refreshToken()].  The promise of [#requestAuthorizationToken] is
    returned without [await], so a rejection passes by the [catch] of
    this method: its handler never runs. *)
Definition refreshToken : M json :=
  debug (lit "RefreshToken") ;;
  t <- read msRefreshToken ;;
  requestAuthorizationToken t (lit "refresh_token").

(** [#internalRequest(url, method, body, headers)]: one [fetch], with
    the access token of the moment as bearer.  The extra headers of the
    caller are passed on untouched and decide nothing here; they are
    left out. *)
Definition internalRequest (url method : jsstring) (content : option (list N)) : M response :=
  fun st =>
    let st' := {| this := this st;
                  trace := trace st
                           ++ [EvRequest url method content (msAccessToken (this st))];
                  requests := S (requests st);
                  token_requests := token_requests st |} in
    match graph w (requests st) with
    | Some r => (Ok r, st')
    | None => (Throw FetchFailed, st')
    end.

(** [#renewTokenWithNeeded(url, method, body, headers)].  The final
    [return response.json()] hands its promise over without [await]: a
    rejection of it is not seen by the [catch]. *)
Definition renewTokenWithNeeded (url method : jsstring) (content : option (list N)) : M json :=
  response <-
    try_catch
      (response <- internalRequest url method content ;;
       response <-
         (if (status response =? 401)%N then
            refreshToken ;;
            internalRequest url method content
          else ret response) ;;
       debug (lit "RenewTokenWithNeeded") ;;
       if (status response =? 401)%N then
         throw (BaseError (statusText response) NoDetail)
       else ret response)
      (fun error =>
         debug (lit "RenewTokenWithNeeded Error") ;;
         throw error) ;;
  json_of response.

(** [/IO error during request payload read/.test(v)] *)
Definition isIgnorableMessage (v : value) : bool :=
  contains (lit "IO error during request payload read") (ToString v).

Definition requestError (url method : jsstring) : jsstring :=
  lit "Error in request [" ++ method ++ lit "]: " ++ url.

Definition maxRetriesError (url method : jsstring) : jsstring :=
  lit "Max retries error in request [" ++ method ++ lit "]: " ++ url.

(** How the [try] block of the loop of [#requestGraphApi] ends when it
    does not throw. *)
Inductive attempt_exit :=
| Break (response : json)
| ReturnNull.

(** The [try] block of one iteration. *)
Definition attempt (url method : jsstring) (content : option (list N)) : M attempt_exit :=
  response <- renewTokenWithNeeded (msGraphUrl ++ url) method content ;;
  debug (lit "RequestGraphApi") ;;
  e <- lift (get (Some response) (lit "error")) ;;
  if truthy e then
    emit (EvConsoleError url response) ;;
    message <- lift (get e (lit "message")) ;;
    if isIgnorableMessage message then ret ReturnNull
    else throw (BaseError (requestError url method) (DetailValue e))
  else ret (Break response).

(** How the [while] loop is left; [retry] is the value of the local
    variable at that moment. *)
Inductive loop_exit :=
| Returned (retry : nat) (v : json)
| Left (retry : nat) (response : json)
| OutOfFuel.

(** [while (retry <= MAX_RETRIES) { try { ... } catch { ... retry++ ... } }].
    The increment sits in the argument of [#debug], which is evaluated
    whether or not debugging is on. *)
Fixpoint retry_loop (fuel : nat) (url method : jsstring) (content : option (list N))
         (retry : nat) (response : json) : M loop_exit :=
  if (retry <=? MAX_RETRIES)%nat then
    match fuel with
    | O => ret OutOfFuel
    | S fuel' =>
        fun st =>
          match attempt url method content st with
          | (Ok (Break r), st') => (Ok (Left retry r), st')
          | (Ok ReturnNull, st') => (Ok (Returned retry JNull), st')
          | (Throw error, st') =>
              (debug (lit "RequestGraphApi") ;;
               retry_loop fuel' url method content (S retry) response) st'
          end
    end
  else ret (Left retry response).

(** [#requestGraphApi({ url, method, body, headers, conflict })].  The
    loop runs at most [MAX_RETRIES] times, which is the fuel given (see
    [retry_loop_total]). *)
Definition requestGraphApi (url method : jsstring) (content : option (list N)) : M json :=
  exit <- retry_loop MAX_RETRIES url method content 1 JNull ;;
  match exit with
  | Returned _ v => ret v
  | Left retry response =>
      if (MAX_RETRIES <? retry)%nat then
        throw (BaseError (maxRetriesError url method) NoDetail)
      else ret response
  | OutOfFuel => ret JNull
  end.

Definition requestGraphGet (url : jsstring) : M json :=
  requestGraphApi url (lit "GET") None.

Definition requestGraphPost (url : jsstring) (content : option (list N)) : M json :=
  requestGraphApi url (lit "POST") content.

Definition requestGraphPut (url : jsstring) (content : option (list N)) : M json :=
  requestGraphApi url (lit "PUT") content.

Definition requestGraphDelete (url : jsstring) (content : option (list N)) : M json :=
  requestGraphApi url (lit "DELETE") content.

(** [#fileExists(filename)] *)
Definition fileExists (filename : jsstring) : M bool :=
  emit (EvAccess filename) ;;
  ret (file_exists w filename).

(** [fs.readFile(path)] *)
Definition readFile (path : jsstring) : M (list N) :=
  emit (EvReadFile path) ;;
  match file_content w path with
  | Some bytes => ret bytes
  | None => throw FsFailed
  end.

Definition uploadError (urlFile : jsstring) : jsstring :=
  lit "Cannot upload a new file in " ++ urlFile.

(** [uploadFile({ attachmentDir, folderName, file, conflict })];
    [rnd] is the value [Math.random()] returns inside
    [NormalizeUtils.encode].  The first two statements stand before the
    [try]. *)
Definition uploadFile (rnd : Q) (attachmentDir folderName file : jsstring) : M json :=
  let fileName := last (split (ch "/") file) [] in
  match NormalizeUtils.encode rnd fileName with
  | None => throw URIError
  | Some encoded =>
      s <- read sharepointFolder ;;
      let urlFile := s ++ lit ":/" ++ folderName ++ lit "/" ++ encoded ++ lit ":/content" in
      try_catch
        (let filePath := attachmentDir ++ lit "/" ++ file in
         fileExist <- fileExists filePath ;;
         debug (lit "uploadFile") ;;
         if negb fileExist then
           debug (lit "uploadFile") ;;
           ret JNull
         else
           fileContent <- readFile (attachmentDir ++ lit "/" ++ file) ;;
           response <- requestGraphPut urlFile (Some fileContent) ;;
           let e := get_opt (Some response) (lit "error") in
           if truthy e then
             debug (lit "UploadFile") ;;
             throw (BaseError
                      (ToString (or_else (get_opt e (lit "message"))
                                         (str (lit "Error in upload file"))))
                      (DetailValue e))
           else ret response)
        (fun error =>
           debug (lit "UploadFile") ;;
           throw (BaseError (uploadError urlFile) (DetailExn error)))
  end.

End Methods.

(** *** Reading a trace *)

Definition isRequest (e : event) : bool :=
  match e with EvRequest _ _ _ _ => true | _ => false end.

Definition isRefresh (e : event) : bool :=
  match e with
  | EvTokenRequest g _ => jseqb g (lit "refresh_token")
  | _ => false
  end.

(** The network calls of a trace, in order. *)
Definition network (tr : list event) : list event :=
  filter (fun e => isRequest e || isRefresh e) tr.

End MsGraphService.

(** ** The vocabulary of the properties *)

Module Notions.
Import Js Uri NormalizeUtils MsGraphService.
Local Open Scope js_scope.

(** *** Texts *)

(** A code unit that [normalize] may leave in its result: outside the
    stripped set and not a line feed. *)
Definition clean (c : N) : bool := negb (isStripped c) && negb (isChar "010" c).

(** ASCII letters, digits, hyphen and underscore. *)
Definition isPlain (c : N) : bool := isAlnum c || isChar "-" c || isChar "_" c.

(** What the proofs below use of a plain code unit. *)
Definition plain_properties (c : N) : bool :=
  negb (isStripped c) && negb (isWhiteSpace c) && negb (isChar "." c)
  && negb (isChar "~" c) && negb (isChar "&" c) && negb (isChar "*" c)
  && negb (isChar ":" c) && negb (isChar "013" c || isChar "009" c)
  && negb (isChar "010" c) && uriUnescaped c && negb (isRfc3986Extra c).

(** A matcher that finds nothing in a plain text. *)
Definition silent (m : matcher) : Prop :=
  forall b s, forallb isPlain s = true -> m b s = None.

Definition noUnderscore (c : N) : bool := negb (isChar "_" c).

(** [x] is [s] followed by one or more digits. *)
Definition extends (s x : jsstring) : bool :=
  starts_with s x && negb (List.length x =? List.length s)%nat
  && forallb isDigit (skipn (List.length s) x).

(** *** Runs of the service *)

(** [st'] differs from [st] by diagnostics only. *)
Definition quiet (st st' : state) : Prop :=
  this st' = this st /\ requests st' = requests st /\
  token_requests st' = token_requests st /\
  network (trace st') = network (trace st).

(** An answer of the Graph API that makes an attempt fail for another
    reason than authorisation, and not with the ignorable message:
    [fetch] rejects, or the status is not 401 and the body cannot be
    parsed, is [null], or carries an [error] whose message does not
    match. *)
Definition plain_failure (o : option response) : bool :=
  match o with
  | None => true
  | Some r =>
      negb (status r =? 401)%N &&
      match body r with
      | None => true
      | Some j =>
          match get (Some j) (lit "error") with
          | Throw _ => true
          | Ok e =>
              truthy e &&
              match get e (lit "message") with
              | Ok m => negb (isIgnorableMessage m)
              | Throw _ => true
              end
          end
      end
  end.

(** A payload with an application-level error whose message matches
    [/IO error during request payload read/]. *)
Definition ignorable (payload : json) : bool :=
  match get (Some payload) (lit "error") with
  | Ok e =>
      truthy e &&
      match get e (lit "message") with
      | Ok m => isIgnorableMessage m
      | Throw _ => false
      end
  | Throw _ => false
  end.

(** [n] iterations of the loop in a row, each ending in its [catch]. *)
Inductive failed_attempts (w : world) (url method : jsstring) (content : option (list N)) :
  nat -> state -> state -> Prop :=
| failed_none st : failed_attempts w url method content 0 st st
| failed_more n st st1 st2 st3 e :
    attempt w url method content st = (Throw e, st1) ->
    debug (lit "RequestGraphApi") st1 = (Ok tt, st2) ->
    failed_attempts w url method content n st2 st3 ->
    failed_attempts w url method content (S n) st st3.

(** *** Sample data *)

(** A service after an interactive sign-in. *)
Definition sample_service : service :=
  {| msDomain := str (lit "contoso");
     msClientId := str (lit "client-id");
     msClientSecret := str (lit "client-secret");
     msCode := str (lit "code");
     msAccessToken := str (lit "old-access");
     msRefreshToken := str (lit "old-refresh");
     sharepointFolder := lit "me/drive/root";
     sharepointFolderUrl := lit "Shared Documents/";
     isDebug := false;
     shouldLogToken := false |}.

(** Construction parameters with the boolean [true] as [logToken], and
    the service the constructor builds from them. *)
Definition params_with_boolean_logToken : MsGraphServiceParams :=
  {| domain := str (lit "contoso");
     client := str (lit "client-id");
     secret := str (lit "client-secret");
     token := None;
     sharepointFolder_param := None;
     sharepointFolderUrl_param := None;
     debug_param := None;
     logToken := Some (JBool true) |}.

Definition service_with_boolean_logToken : service :=
  {| msDomain := str (lit "contoso");
     msClientId := str (lit "client-id");
     msClientSecret := str (lit "client-secret");
     msCode := Some JNull;
     msAccessToken := None;
     msRefreshToken := Some JNull;
     sharepointFolder := lit "me/drive/root";
     sharepointFolderUrl := lit "Shared Documents/";
     isDebug := false;
     shouldLogToken := false |}.

Definition start (s : service) : state :=
  {| this := s; trace := []; requests := 0; token_requests := 0 |}.

Definition unauthorized : response :=
  {| status := 401; statusText := lit "Unauthorized"; body := None |}.

Definition fresh_tokens : json :=
  JObj [(lit "access_token", JStr (lit "new-access"));
        (lit "refresh_token", JStr (lit "new-refresh"))].

Definition token_granted : response :=
  {| status := 200; statusText := lit "OK"; body := Some fresh_tokens |}.

Definition profile : json := JObj [(lit "displayName", JStr (lit "Ada"))].

Definition io_error : json :=
  JObj [(lit "error",
         JObj [(lit "code", JStr (lit "generalException"));
               (lit "message", JStr (lit "IO error during request payload read."))])].

(** The Graph API answers 401 to every request; the token endpoint
    grants every refresh. *)
Definition always_unauthorized : world :=
  {| graph := fun _ => Some unauthorized;
     auth := fun _ => Some token_granted;
     file_exists := fun _ => false;
     file_content := fun _ => None |}.

(** The Graph API answers 401 to the first two requests and then
    succeeds. *)
Definition unauthorized_twice : world :=
  {| graph := fun n => if (n <? 2)%nat then Some unauthorized
                       else Some {| status := 200; statusText := lit "OK";
                                    body := Some profile |};
     auth := fun _ => Some token_granted;
     file_exists := fun _ => false;
     file_content := fun _ => None |}.

(** No request reaches the Graph API. *)
Definition unreachable : world :=
  {| graph := fun _ => None;
     auth := fun _ => None;
     file_exists := fun _ => false;
     file_content := fun _ => None |}.

(** The Graph API answers every request with the ignorable error. *)
Definition io_errors : world :=
  {| graph := fun _ => Some {| status := 200; statusText := lit "OK";
                               body := Some io_error |};
     auth := fun _ => None;
     file_exists := fun _ => false;
     file_content := fun _ => None |}.

End Notions.

(** ** The rest of [src/services/msGraph.service.js] *)

Module MsGraphServicePublic.
Import Js Uri MsGraphService.
Local Open Scope js_scope.

Definition msRedirectUri : jsstring := lit "https://login.live.com/oauth20_desktop.srf".
Definition msGraphAuthUrl : jsstring :=
  lit "https://login.microsoftonline.com/common/oauth2/v2.0/".
Definition msDomainUrl : jsstring := lit "https://%s.sharepoint.com/".

(** [/literal/]: the literal itself, at the current position. *)
Definition re_literal (p : jsstring) : matcher :=
  fun _ s => if starts_with p s then Some (List.length p) else None.

(** GetSubstitution of ECMA-262 for a regular expression without
    capture groups: in the replacement text [$$] stands for a dollar
    sign, [$&] for the match, [$`] for the text before it and [$'] for
    the text after it; any other dollar sign stands for itself. *)
Fixpoint GetSubstitution (matched before after template : jsstring) : jsstring :=
  match template with
  | [] => []
  | c :: r =>
      if (c =? ch "$")%N then
        match r with
        | d :: r' =>
            if (d =? ch "$")%N then ch "$" :: GetSubstitution matched before after r'
            else if (d =? ch "&")%N then matched ++ GetSubstitution matched before after r'
            else if (d =? ch "`")%N then before ++ GetSubstitution matched before after r'
            else if (d =? ch "'")%N then after ++ GetSubstitution matched before after r'
            else c :: GetSubstitution matched before after r
        | [] => [c]
        end
      else c :: GetSubstitution matched before after r
  end.

(** [s.replace(/re/, template)] with its replacement patterns;
    [before] is the text already passed. *)
Fixpoint replace_first_subst_from (m : matcher) (template : jsstring)
         (at_start : bool) (before s : jsstring) : jsstring :=
  match m at_start s with
  | Some n => GetSubstitution (firstn n s) before (skipn n s) template ++ skipn n s
  | None =>
      match s with
      | [] => []
      | c :: r => c :: replace_first_subst_from m template false (before ++ [c]) r
      end
  end.

Definition replace_first_subst (m : matcher) (template s : jsstring) : jsstring :=
  replace_first_subst_from m template true [] s.

(** [getSharepointUrl(url)] *)
Definition getSharepointUrl (this : service) (url : jsstring) : jsstring :=
  replace_first_subst (re_literal (lit "%s")) (ToString (msDomain this)) msDomainUrl
    ++ sharepointFolderUrl this ++ url.

(** [#generateAuthorizeRequest()] *)
Definition generateAuthorizeRequest (this : service) : option jsstring :=
  option_map
    (fun scope =>
       msGraphAuthUrl ++ lit "authorize?client_id=" ++ ToString (msClientId this)
         ++ lit "&response_type=code&redirect_uri=" ++ msRedirectUri
         ++ lit "&response_mode=query&scope=" ++ scope ++ lit "&state=12345")
    (encodeURIComponent msScopes).

Definition set_code (code : value) : M unit :=
  fun st =>
    let s := this st in
    (Ok tt,
     {| this := {| msDomain := msDomain s; msClientId := msClientId s;
                   msClientSecret := msClientSecret s; msCode := code;
                   msAccessToken := msAccessToken s;
                   msRefreshToken := msRefreshToken s;
                   sharepointFolder := sharepointFolder s;
                   sharepointFolderUrl := sharepointFolderUrl s;
                   isDebug := isDebug s; shouldLogToken := shouldLogToken s |};
        trace := trace st; requests := requests st;
        token_requests := token_requests st |}).

(** The light bulb that opens the first line of [signIn] (U+1F4A1). *)
Definition bulb_sign : jsstring := [55357%N; 56481%N].

(** The authorize URL, or the [URIError] of [encodeURIComponent]. *)
Definition authorizeRequest : M jsstring :=
  fun st => match generateAuthorizeRequest (this st) with
            | Some u => (Ok u, st)
            | None => (Throw URIError, st)
            end.

Section Methods.

Variable w : world.

(** [#getMyInfo()] *)
Definition getMyInfo : M json := requestGraphGet w (lit "me").

(** [signIn()]; [answer] is what [prompt.question] resolves to.  The
    prompt itself and the blank [console.log()] are not events of the
    trace. *)
Definition signIn (answer : jsstring) : M unit :=
  emit (EvConsoleInfo (bulb_sign ++ lit " Sharepoint Authentication step" ++ [ch "010"])
                      None) ;;
  t <- read msAccessToken ;;
  if truthy t then
    emit (EvConsoleInfo
            (key_sign ++ lit " Sharepoint access token already informed." ++ [ch "010"])
            None) ;;
    getMyInfo ;;
    ret tt
  else
    authorizeUrl <- authorizeRequest ;;
    set_code (str answer) ;;
    code <- read msCode ;;
    requestAuthorizationToken w code (lit "authorization_code") ;;
    ret tt.

End Methods.

End MsGraphServicePublic.

(** ** More vocabulary *)

Module MoreNotions.
Import Js Uri NormalizeUtils MsGraphService MsGraphServicePublic Notions.
Local Open Scope js_scope.

(** A code unit proper: below [2^16]. *)
Definition isCodeUnit (c : N) : bool := (c <? 65536)%N.

Definition isSurrogate (c : N) : bool := isHighSurrogate c || isLowSurrogate c.

(** [String.prototype.isWellFormed]: every surrogate is half of a
    pair. *)
Fixpoint isWellFormed (s : jsstring) : bool :=
  match s with
  | [] => true
  | c :: r =>
      if isHighSurrogate c then
        match r with
        | d :: r' => isLowSurrogate d && isWellFormed r'
        | [] => false
        end
      else negb (isLowSurrogate c) && isWellFormed r
  end.

(** The code point of a surrogate pair. *)
Definition pair_code_point (c d : N) : N :=
  (65536 + (c - 55296) * 1024 + (d - 56320))%N.

(** What [encodeRFC3986URIComponent] writes for one code unit of the
    result of [encodeURIComponent]. *)
Definition escapeExtra (c : N) : jsstring :=
  if isRfc3986Extra c then ch "%" :: toString16Upper c else [c].

(** The text has a link at its very start, and somewhere. *)
Definition has_link_here (s : jsstring) : bool :=
  match re_link false s with
  | Some _ => true
  | None => false
  end.

Fixpoint has_link (s : jsstring) : bool :=
  has_link_here s ||
  match s with
  | [] => false
  | _ :: r => has_link r
  end.

(** The first code unit of the text, if any, is no white space. *)
Definition starts_clean (s : jsstring) : bool :=
  match s with
  | [] => true
  | c :: _ => negb (isWhiteSpace c)
  end.

(** Carriage return, tab and ampersand. *)
Definition isControlOrAmp (c : N) : bool :=
  isChar "013" c || isChar "009" c || isChar "&" c.

(** The unreserved characters of RFC 3986 and the percent sign. *)
Definition isUrlSafe (c : N) : bool :=
  isAlnum c || existsb (N.eqb c) [ch "-"; ch "_"; ch "."; ch "~"; ch "%"].

(** The fields of a service other than its two tokens. *)
Definition config (s : service) :=
  (msDomain s, msClientId s, msClientSecret s, msCode s,
   sharepointFolder s, sharepointFolderUrl s, isDebug s, shouldLogToken s).

(** What a request for [url] may leave in the trace: requests to that
    very URL with the given verb and body, refreshes, diagnostics; no
    access to the file system. *)
Definition expected (url method : jsstring) (content : option (list N)) (e : event) : Prop :=
  match e with
  | EvRequest u m c _ => u = url /\ m = method /\ c = content
  | EvTokenRequest g _ => g = lit "refresh_token"
  | EvAccess _ => False
  | EvReadFile _ => False
  | EvConsoleInfo _ _ => True
  | EvConsoleError _ _ => True
  | EvDebug _ => True
  end.

(** A payload that [#requestGraphApi] hands back: its [error] can be
    read and is falsy. *)
Definition error_free (p : json) : Prop :=
  exists e, get (Some p) (lit "error") = Ok e /\ truthy e = false.

(** An answer of the token endpoint that makes the exchange fail:
    [fetch] rejects, the body cannot be parsed, is [null], or carries a
    truthy [error]. *)
Definition exchange_fails (o : option response) : bool :=
  match o with
  | None => true
  | Some r =>
      match body r with
      | None => true
      | Some a =>
          match get (Some a) (lit "error") with
          | Ok e => truthy e
          | Throw _ => true
          end
      end
  end.

Definition isTokenRequest (e : event) : bool :=
  match e with EvTokenRequest _ _ => true | _ => false end.

(** The calls of a trace to the token endpoint, and its calls to the
    Graph API, in order. *)
Definition exchanges (tr : list event) : list event := filter isTokenRequest tr.
Definition graph_requests (tr : list event) : list event := filter isRequest tr.

(** The key under which [#requestAuthorizationToken] sends its
    credential. *)
Definition tokenKey (grant_type : jsstring) : jsstring :=
  if jseqb grant_type (lit "refresh_token") then grant_type else lit "code".

(** A service whose stored tokens are those of the payload [a]. *)
Definition holds_tokens_of (a : json) (s : service) : Prop :=
  msAccessToken s = get_opt (Some a) (lit "access_token") /\
  msRefreshToken s = get_opt (Some a) (lit "refresh_token").

(** The remote path [uploadFile] builds. *)
Definition remote_path (s : service) (folderName encoded : jsstring) : jsstring :=
  sharepointFolder s ++ lit ":/" ++ folderName ++ lit "/" ++ encoded ++ lit ":/content".

(** An answer of the Graph API that ends a request well at once: not a
    401, with a body whose [error] is falsy. *)
Definition good_answer (r : response) (p : json) : Prop :=
  (status r =? 401)%N = false /\ body r = Some p /\ error_free p.

Definition noDollar (c : N) : bool := negb (c =? ch "$")%N.

(** The state once [logout()] has run. *)
Definition logged_out (st : state) : state :=
  {| this := logout (this st); trace := trace st;
     requests := requests st; token_requests := token_requests st |}.

(** The message of a failed token exchange for an authorization code. *)
Definition codeExchangeError : jsstring :=
  lit "Cannot get the Sharepoint authorization code".

(** What [signIn] does when it has to ask for a code: one exchange of
    the code typed in, all or nothing. *)
Definition interactive_sign_in (w : world) (answer : jsstring)
           (st : state) (r : result unit) (st' : state) : Prop :=
  requests st' = requests st /\
  token_requests st' = S (token_requests st) /\
  graph_requests (trace st') = graph_requests (trace st) /\
  exchanges (trace st')
  = exchanges (trace st) ++ [EvTokenRequest (lit "authorization_code") (str answer)] /\
  msCode (this st') = str answer /\
  (exchange_fails (auth w (token_requests st)) = true ->
   r = Throw (BaseError codeExchangeError NoDetail) /\
   msAccessToken (this st') = msAccessToken (this st) /\
   msRefreshToken (this st') = msRefreshToken (this st)) /\
  (exchange_fails (auth w (token_requests st)) = false ->
   r = Ok tt /\
   exists ra a, auth w (token_requests st) = Some ra /\ body ra = Some a /\
                holds_tokens_of a (this st')).

(** *** More sample data *)

(** The Graph API answers every request with the profile; every file
    exists and can be read. *)
Definition healthy : world :=
  {| graph := fun _ => Some {| status := 200; statusText := lit "OK";
                               body := Some profile |};
     auth := fun _ => Some token_granted;
     file_exists := fun _ => true;
     file_content := fun _ => Some [37; 80; 68; 70]%N |}.

(** Every file exists, none can be read. *)
Definition unreadable_files : world :=
  {| graph := fun _ => None;
     auth := fun _ => None;
     file_exists := fun _ => true;
     file_content := fun _ => None |}.

(** The Graph API answers 401 and the token endpoint is out of reach. *)
Definition refresh_denied : world :=
  {| graph := fun _ => Some unauthorized;
     auth := fun _ => None;
     file_exists := fun _ => false;
     file_content := fun _ => None |}.

(** Construction parameters with and without an access token. *)
Definition params_with_token : MsGraphServiceParams :=
  {| domain := str (lit "contoso");
     client := str (lit "client-id");
     secret := str (lit "client-secret");
     token := str (lit "given-access");
     sharepointFolder_param := None;
     sharepointFolderUrl_param := None;
     debug_param := None;
     logToken := None |}.

Definition params_without_token : MsGraphServiceParams :=
  {| domain := str (lit "contoso");
     client := str (lit "client-id");
     secret := str (lit "client-secret");
     token := None;
     sharepointFolder_param := None;
     sharepointFolderUrl_param := None;
     debug_param := None;
     logToken := None |}.

(** Construction parameters with the string [true] as [logToken]. *)
Definition params_with_string_logToken : MsGraphServiceParams :=
  {| domain := str (lit "contoso");
     client := str (lit "client-id");
     secret := str (lit "client-secret");
     token := None;
     sharepointFolder_param := None;
     sharepointFolderUrl_param := None;
     debug_param := None;
     logToken := str (lit "true") |}.

(** *** The token on the console *)

(** The line [#setAuthorizationTokens] writes when token logging is
    on. *)
Definition isTokenLog (e : event) : bool :=
  match e with
  | EvConsoleInfo text _ =>
      jseqb text (key_sign ++ lit " MS Access Token: %s" ++ [ch "010"])
  | _ => false
  end.

Definition token_logs (tr : list event) : list event := filter isTokenLog tr.

(** A computation that, run with token logging off, leaves it off and
    writes no token to the console. *)
Definition discreet {A} (m : M A) : Prop :=
  forall st r st',
    shouldLogToken (this st) = false ->
    m st = (r, st') ->
    shouldLogToken (this st') = false /\ token_logs (trace st') = token_logs (trace st).

(** The calls a client can make on a service that change it or reach
    the outside world. *)
Inductive call :=
| CallSignIn (answer : jsstring)
| CallGet (url : jsstring)
| CallPost (url : jsstring) (content : option (list N))
| CallPut (url : jsstring) (content : option (list N))
| CallDelete (url : jsstring) (content : option (list N))
| CallUpload (rnd : Q) (attachmentDir folderName file : jsstring)
| CallLogout.

(** The state a call leaves, whether it returns or throws. *)
Definition perform (w : world) (c : call) (st : state) : state :=
  match c with
  | CallSignIn answer => snd (signIn w answer st)
  | CallGet url => snd (requestGraphGet w url st)
  | CallPost url content => snd (requestGraphPost w url content st)
  | CallPut url content => snd (requestGraphPut w url content st)
  | CallDelete url content => snd (requestGraphDelete w url content st)
  | CallUpload rnd attachmentDir folderName file =>
      snd (uploadFile w rnd attachmentDir folderName file st)
  | CallLogout => logged_out st
  end.

(** A client that makes the calls one after the other and goes on
    after an error. *)
Definition session (w : world) (calls : list call) (st : state) : state :=
  fold_left (fun st c => perform w c st) calls st.

End MoreNotions.

(* ================================================================== *)
(** * Part II. Properties                                              *)
(* ================================================================== *)

(** ** Strings and numerals *)

Module JsFacts.
Import Js.

Lemma jseqb_eq (a b : jsstring) : jseqb a b = true <-> a = b.
Proof.
  unfold jseqb. destruct (list_eq_dec N.eq_dec a b); split; congruence.
Qed.

Lemma jseqb_refl (a : jsstring) : jseqb a a = true.
Proof. now apply jseqb_eq. Qed.

Lemma includes_In (l : list jsstring) (x : jsstring) : includes l x = true <-> In x l.
Proof.
  unfold includes. rewrite existsb_exists. split.
  - intros (y & Hy & E). apply jseqb_eq in E. now subst.
  - intros H. exists x. split; [assumption | apply jseqb_refl].
Qed.

Lemma forallb_skipn {A} (q : A -> bool) (n : nat) (l : list A) :
  forallb q l = true -> forallb q (skipn n l) = true.
Proof.
  revert l. induction n as [|n IH]; intros [|a l]; simpl; auto.
  intros H. apply andb_true_iff in H as [_ H]. auto.
Qed.

Lemma forallb_rev {A} (q : A -> bool) (l : list A) :
  forallb q (rev l) = forallb q l.
Proof.
  induction l as [|a l IH]; simpl; auto.
  rewrite forallb_app, IH. simpl. rewrite andb_true_r. apply andb_comm.
Qed.

Lemma forallb_impl {A} (p q : A -> bool) (l : list A) :
  (forall a, p a = true -> q a = true) ->
  forallb p l = true -> forallb q l = true.
Proof.
  intros Hpq. induction l as [|a l IH]; simpl; auto.
  intros H. apply andb_true_iff in H as [Ha Hl].
  rewrite (Hpq _ Ha). auto.
Qed.

Lemma forallb_trimStart (q : N -> bool) (s : jsstring) :
  forallb q s = true -> forallb q (trimStart s) = true.
Proof.
  induction s as [|c r IH]; simpl; auto.
  intros H. destruct (isWhiteSpace c); auto.
  apply andb_true_iff in H as [_ H]. auto.
Qed.

Lemma forallb_trim (q : N -> bool) (s : jsstring) :
  forallb q s = true -> forallb q (trim s) = true.
Proof.
  intros H. unfold trim, trimEnd.
  rewrite forallb_rev. apply forallb_trimStart.
  rewrite forallb_rev. now apply forallb_trimStart.
Qed.

(** *** Replacement by a class of single code units *)

Lemma replace_g_from_class (p : N -> bool) (f : jsstring -> jsstring) (b : bool) (s : jsstring) :
  replace_g_from (re_class p) f b O s
  = flat_map (fun c => if p c then f [c] else [c]) s.
Proof.
  revert b. induction s as [|c r IH]; intros b; simpl; auto.
  destruct (p c); simpl; now rewrite IH.
Qed.

Lemma forallb_flat_map {A B} (q : B -> bool) (g : A -> list B) (l : list A) :
  (forall a, In a l -> forallb q (g a) = true) ->
  forallb q (flat_map g l) = true.
Proof.
  induction l as [|a l IH]; simpl; auto.
  intros H. rewrite forallb_app, H by auto. simpl. apply IH. auto.
Qed.

(** Whatever holds of the text and of the replacement holds of the
    result. *)
Lemma forallb_replace_class (q p : N -> bool) (repl s : jsstring) :
  forallb q repl = true -> forallb q s = true ->
  forallb q (replace_g (re_class p) repl s) = true.
Proof.
  intros Hr Hs. unfold replace_g, replace_g_fn. rewrite replace_g_from_class.
  apply forallb_flat_map. intros c Hc.
  destruct (p c); auto. simpl. rewrite andb_true_r.
  rewrite forallb_forall in Hs. auto.
Qed.

(** No unit of the class is left, when the replacement has none. *)
Lemma replace_class_clears (p : N -> bool) (repl s : jsstring) :
  forallb (fun c => negb (p c)) repl = true ->
  forallb (fun c => negb (p c)) (replace_g (re_class p) repl s) = true.
Proof.
  intros Hr. unfold replace_g, replace_g_fn. rewrite replace_g_from_class.
  apply forallb_flat_map. intros c _.
  destruct (p c) eqn:E; auto. simpl. now rewrite E.
Qed.

Lemma forallb_replace_first (q : N -> bool) (m : matcher) (repl : jsstring)
      (b : bool) (s : jsstring) :
  forallb q repl = true -> forallb q s = true ->
  forallb q (replace_first_from m repl b s) = true.
Proof.
  intros Hr. revert b. induction s as [|c r IH]; intros b Hs; simpl.
  - destruct (m b []) as [n|]; auto.
    rewrite forallb_app, Hr. now destruct n.
  - destruct (m b (c :: r)) as [n|].
    + rewrite forallb_app, Hr. simpl. now apply forallb_skipn.
    + simpl in Hs |- *. apply andb_true_iff in Hs as [Hc Hs'].
      rewrite Hc. simpl. auto.
Qed.

(** *** Numerals *)

Lemma digits_of_uint_digits (d : Decimal.uint) : forallb isDigit (digits_of_uint d) = true.
Proof. induction d; simpl; auto. Qed.

Lemma digits_of_uint_inj (d d' : Decimal.uint) :
  digits_of_uint d = digits_of_uint d' -> d = d'.
Proof.
  revert d'. induction d; destruct d'; cbn; intros H;
    try discriminate; try reflexivity;
    injection H as H; f_equal; auto.
Qed.

Lemma decimal_digits (n : N) : forallb isDigit (decimal n) = true.
Proof. apply digits_of_uint_digits. Qed.

Lemma decimal_nonempty (n : N) : decimal n <> [].
Proof.
  unfold decimal. intros H.
  assert (E : N.to_uint n = Decimal.Nil)
    by (apply digits_of_uint_inj; exact H).
  destruct n as [|p]; [discriminate|].
  exact (Unsigned.to_uint_nonnil p E).
Qed.

Lemma decimal_inj (n n' : N) : decimal n = decimal n' -> n = n'.
Proof.
  intros H. apply DecimalN.Unsigned.to_uint_inj. now apply digits_of_uint_inj.
Qed.

(** *** [toFixed(0)] of a number in [0, 1000) *)

Lemma toFixed0_nonneg (x : Q) : 0 <= x -> toFixed0 x = decimal (round_half_up x).
Proof.
  intros H. unfold toFixed0. destruct (Qlt_le_dec x 0) as [L|_]; [|reflexivity].
  exfalso. lra.
Qed.

Lemma round_half_up_below (x : Q) (k : Z) :
  (0 <= k)%Z -> x < inject_Z k -> (round_half_up x <= Z.to_N k)%N.
Proof.
  intros Hk Hx. unfold round_half_up.
  assert (H : (Qfloor (x + (1 # 2)) < k + 1)%Z).
  { rewrite Zlt_Qlt, inject_Z_plus.
    pose proof (Qfloor_le (x + (1 # 2))) as L.
    change (inject_Z 1) with 1. lra. }
  lia.
Qed.

Lemma round_half_up_le (x : Q) (k : Z) :
  (0 <= k)%Z -> x <= inject_Z k -> (round_half_up x <= Z.to_N k)%N.
Proof.
  intros Hk Hx. unfold round_half_up.
  assert (H : (Qfloor (x + (1 # 2)) < k + 1)%Z).
  { rewrite Zlt_Qlt, inject_Z_plus.
    pose proof (Qfloor_le (x + (1 # 2))) as L.
    change (inject_Z 1) with 1. lra. }
  lia.
Qed.

(** *** Rounding to binary64 *)

Lemma round_half_even_nonneg (y : Q) : 0 <= y -> (0 <= round_half_even y)%Z.
Proof.
  intros H. unfold round_half_even.
  assert (F : (0 <= Qfloor y)%Z).
  { change 0%Z with (Qfloor 0). now apply Qfloor_resp_le. }
  destruct (Qcompare (y - inject_Z (Qfloor y)) (1 # 2)); [destruct (Z.even _)| |]; lia.
Qed.

Lemma round_half_even_le (y : Q) (k : Z) :
  y <= inject_Z k -> (round_half_even y <= k)%Z.
Proof.
  intros H. unfold round_half_even.
  assert (F : (Qfloor y <= k)%Z).
  { rewrite <- (Qfloor_Z k). now apply Qfloor_resp_le. }
  assert (G : 0 < y - inject_Z (Qfloor y) -> (Qfloor y + 1 <= k)%Z).
  { intros P. assert (L : inject_Z (Qfloor y) < inject_Z k) by lra.
    rewrite <- Zlt_Qlt in L. lia. }
  destruct (Qcompare (y - inject_Z (Qfloor y)) (1 # 2)) eqn:C.
  - apply Qeq_alt in C. destruct (Z.even _); [lia|]. apply G. lra.
  - exact F.
  - apply Qgt_alt in C. apply G. lra.
Qed.

Lemma binary64_pos_nonneg (x : Q) : 0 <= x -> 0 <= binary64_pos x.
Proof.
  intros H. unfold binary64_pos.
  set (e := Z.max _ _).
  assert (P : 0 < 2 ^ e) by (apply Qpower_0_lt; reflexivity).
  apply Qmult_le_0_compat; [|lra].
  change 0 with (inject_Z 0). rewrite <- Zle_Qle.
  apply round_half_even_nonneg.
  apply Qle_shift_div_l; [exact P|]. lra.
Qed.

Lemma binary64_nonneg (x : Q) : 0 <= x -> 0 <= binary64 x.
Proof.
  intros H. unfold binary64. destruct (Qcompare x 0) eqn:C.
  - lra.
  - apply Qlt_alt in C. lra.
  - now apply binary64_pos_nonneg.
Qed.

Lemma ilog2_le (x : Q) (k : Z) :
  0 < x -> (0 <= k)%Z -> x <= inject_Z (2 ^ k) -> (ilog2 x <= k)%Z.
Proof.
  intros Hx Hk H. unfold ilog2.
  destruct x as [p q]. cbn [Qnum Qden].
  assert (Hp : (0 < p)%Z) by (unfold Qlt in Hx; cbn in Hx; lia).
  assert (L : (p <= 2 ^ k * Z.pos q)%Z) by (unfold Qle in H; cbn in H; lia).
  assert (E : (Z.log2 p <= k + Z.log2 (Z.pos q))%Z).
  { rewrite <- (Z.log2_mul_pow2 (Z.pos q) k) by lia.
    apply Z.log2_le_mono. lia. }
  destruct (Qle_bool _ _); lia.
Qed.

(** Rounding to binary64 does not pass an integer of at most 53 bits. *)
Lemma binary64_le_int (x : Q) (n k : Z) :
  0 <= x -> (0 <= k <= 52)%Z -> (0 <= n <= 2 ^ k)%Z ->
  x <= inject_Z n -> binary64 x <= inject_Z n.
Proof.
  intros H0 Hk Hn H. unfold binary64. destruct (Qcompare x 0) eqn:C.
  - change 0 with (inject_Z 0). rewrite <- Zle_Qle. lia.
  - apply Qlt_alt in C. lra.
  - apply Qgt_alt in C. unfold binary64_pos.
    assert (I : (ilog2 x <= k)%Z).
    { apply ilog2_le; [lra | lia |]. 
      apply Qle_trans with (inject_Z n); [exact H|]. rewrite <- Zle_Qle. lia. }
    set (e := Z.max _ _).
    assert (He : (e <= 0)%Z) by (unfold e; lia).
    assert (P : 0 < 2 ^ e) by (apply Qpower_0_lt; reflexivity).
    assert (S : 2 ^ e * inject_Z (2 ^ (- e)) == 1).
    { rewrite Zpower_Qpower by lia. change (inject_Z 2) with 2.
      rewrite <- Qpower_plus by discriminate.
      replace (e + - e)%Z with 0%Z by lia. reflexivity. }
    assert (R : (round_half_even (x / 2 ^ e) <= n * 2 ^ (- e))%Z).
    { apply round_half_even_le. rewrite inject_Z_mult.
      apply Qle_shift_div_r; [exact P|].
      rewrite <- Qmult_assoc, (Qmult_comm (inject_Z (2 ^ (- e)))), S. lra. }
    rewrite Zle_Qle, inject_Z_mult in R.
    apply Qle_trans with (inject_Z n * inject_Z (2 ^ (- e)) * 2 ^ e).
    + apply Qmult_le_compat_r; [exact R | lra].
    + rewrite <- Qmult_assoc, (Qmult_comm (inject_Z (2 ^ (- e)))), S. lra.
Qed.

Lemma Qmake_times_den (p : Z) (q : positive) : (p # q) * inject_Z (Zpos q) == inject_Z p.
Proof. unfold Qeq, Qmult, inject_Z. cbn. lia. Qed.

(** [ilog2] is the integer part of the binary logarithm. *)
Lemma ilog2_spec (x : Q) :
  0 < x -> 2 ^ ilog2 x <= x /\ x < 2 ^ (ilog2 x + 1).
Proof.
  intros Hx. unfold ilog2. destruct x as [p q]. cbn [Qnum Qden].
  assert (Hp : (0 < p)%Z) by (unfold Qlt in Hx; cbn in Hx; lia).
  destruct (Z.log2_spec p Hp) as [P1 P2].
  destruct (Z.log2_spec (Z.pos q) eq_refl) as [Q1 Q2].
  pose proof (Z.log2_nonneg p) as Lp. pose proof (Z.log2_nonneg (Z.pos q)) as Lq.
  set (lp := Z.log2 p) in *. set (lq := Z.log2 (Z.pos q)) in *.
  rewrite Zle_Qle, Zpower_Qpower in P1, Q1 by lia.
  rewrite Zlt_Qlt, Zpower_Qpower in P2, Q2 by lia.
  change (inject_Z 2) with 2 in *.
  pose proof (Qmake_times_den p q) as E.
  assert (A : 0 < 2 ^ lq) by (apply Qpower_0_lt; reflexivity).
  assert (B : 0 < 2 ^ Z.succ lq) by (apply Qpower_0_lt; reflexivity).
  assert (U : (p # q) < 2 ^ (lp - lq + 1)).
  { replace (lp - lq + 1)%Z with (Z.succ lp - lq)%Z by lia.
    rewrite Qpower_minus by discriminate.
    apply Qlt_shift_div_l; [exact A|]. nra. }
  assert (L : 2 ^ (lp - lq - 1) <= (p # q)).
  { replace (lp - lq - 1)%Z with (lp - Z.succ lq)%Z by lia.
    rewrite Qpower_minus by discriminate.
    apply Qle_shift_div_r; [exact B|]. nra. }
  destruct (Qle_bool (2 ^ (lp - lq)) (p # q)) eqn:C.
  - apply Qle_bool_iff in C. split; [exact C | exact U].
  - split; [exact L|].
    replace (lp - lq - 1 + 1)%Z with (lp - lq)%Z by lia.
    apply Qnot_le_lt. intros N. apply Qle_bool_iff in N. congruence.
Qed.

(** The values of a few roundings: one tenth, ties above [2^53], the
    least subnormal numbers, a negative number. *)
Lemma binary64_examples :
  binary64 (1 # 10) == 3602879701896397 # 36028797018963968 /\
  binary64 (inject_Z (2 ^ 53 + 1)) == inject_Z (2 ^ 53) /\
  binary64 (inject_Z (2 ^ 53 + 3)) == inject_Z (2 ^ 53 + 4) /\
  binary64 (2 ^ (-1075)) == 0 /\
  binary64 (3 * 2 ^ (-1075)) == 2 ^ (-1073) /\
  binary64 (- (1 # 3)) == - (6004799503160661 # 18014398509481984).
Proof. repeat split; vm_compute; reflexivity. Qed.

Lemma round_half_even_near (y : Q) :
  y - (1 # 2) <= inject_Z (round_half_even y) <= y + (1 # 2).
Proof.
  unfold round_half_even.
  pose proof (Qfloor_le y) as L. pose proof (Qlt_floor y) as U.
  rewrite inject_Z_plus in U. change (inject_Z 1) with 1 in U.
  destruct (Qcompare (y - inject_Z (Qfloor y)) (1 # 2)) eqn:C.
  - apply Qeq_alt in C. destruct (Z.even _);
      rewrite ?inject_Z_plus; change (inject_Z 1) with 1; lra.
  - apply Qlt_alt in C. lra.
  - apply Qgt_alt in C. rewrite inject_Z_plus. change (inject_Z 1) with 1. lra.
Qed.

(** [binary64_pos x] is a multiple [m * 2^e] of the unit in the last
    place, with a significand [m] of at most 53 bits (or [2^53], the
    next power of two), at most half a unit away from [x]. *)
Lemma binary64_pos_spec (x : Q) :
  0 < x ->
  let e := Z.max (ilog2 x - 52) (-1074) in
  exists m : Z,
    binary64_pos x = inject_Z m * 2 ^ e /\
    (0 <= m <= 2 ^ 53)%Z /\
    x - (1 # 2) * 2 ^ e <= inject_Z m * 2 ^ e <= x + (1 # 2) * 2 ^ e.
Proof.
  intros Hx e. exists (round_half_even (x / 2 ^ e)).
  split; [reflexivity|].
  assert (P : 0 < 2 ^ e) by (apply Qpower_0_lt; reflexivity).
  assert (Y : x / 2 ^ e * 2 ^ e == x) by (field; lra).
  destruct (ilog2_spec Hx) as [_ U].
  assert (B : x / 2 ^ e <= inject_Z (2 ^ 53)).
  { apply Qle_shift_div_r; [exact P|].
    rewrite Zpower_Qpower by lia. change (inject_Z 2) with 2.
    rewrite <- Qpower_plus by discriminate.
    apply Qle_trans with (2 ^ (ilog2 x + 1)); [lra|].
    apply Qpower_le_compat_l; [unfold e; lia | discriminate]. }
  split.
  - split; [|now apply round_half_even_le].
    apply round_half_even_nonneg. apply Qle_shift_div_l; [exact P | lra].
  - destruct (round_half_even_near (x / 2 ^ e)) as [N1 N2].
    set (m := inject_Z (round_half_even (x / 2 ^ e))) in *.
    set (y := x / 2 ^ e) in *. set (u := 2 ^ e) in *.
    assert (M1 : (y - (1 # 2)) * u <= m * u) by (apply Qmult_le_compat_r; lra).
    assert (M2 : m * u <= (y + (1 # 2)) * u) by (apply Qmult_le_compat_r; lra).
    split; lra.
Qed.

End JsFacts.

(** ** The name normaliser *)

Module NormalizeFacts.
Import Js Uri NormalizeUtils Notions JsFacts.

(** The assertions of [normalize.test.js] hold of the embedding, for
    every draw. *)
Example normalize_test_invalid_chars (rnd : Q) :
  map (normalize rnd)
      [lit "~test"; lit ".test"; lit "test."; lit "te...st"; lit "~Tilde";
       lit "Number sign (#)"; lit "Percent (%)"; lit "Ampersand (&)";
       lit "Asterisk (*)"; lit "Braces ({ })"; lit "Backslash ()";
       lit "Colon (:)"; lit "Angle brackets (< >)"; lit "Question mark (?)";
       lit "Slash (/)"; lit "Plus sign (+)"; lit "Pipe (|)";
       lit "Quotation mark (" ++ [34%N] ++ lit ")"; lit ".lock"]
  = [lit "test"; lit "test"; lit "test"; lit "te.st"; lit "Tilde";
     lit "Number sign (#)"; lit "Percent ()"; lit "Ampersand (and)";
     lit "Asterisk ()"; lit "Braces ( )"; lit "Backslash ()";
     lit "Colon ()"; lit "Angle brackets ( )"; lit "Question mark ()";
     lit "Slash ()"; lit "Plus sign ()"; lit "Pipe ()";
     lit "Quotation mark ()"; lit "lock"].
Proof. vm_compute. reflexivity. Qed.

Example normalize_line_feed (rnd : Q) :
  normalize rnd (lit "a" ++ [ch "010"] ++ lit "b" ++ [ch "013"; ch "009"] ++ lit "c")
  = lit "a - bc".
Proof. vm_compute. reflexivity. Qed.

Example encode_escapes (rnd : Q) :
  encode rnd (lit "Plan (v2)!.pdf") = Some (lit "Plan%20%28v2%29%21.pdf").
Proof. vm_compute. reflexivity. Qed.

Example decodeURIComponent_utf8 :
  decodeURIComponent (lit "%E2%82%AC%20a") = Some (8364%N :: lit " a") /\
  decodeURIComponent (lit "%C0%80") = None /\
  decodeURIComponent (lit "50%") = None /\
  encodeURIComponent [8364%N] = Some (lit "%E2%82%AC") /\
  encodeURIComponent [55357%N; 56593%N] = Some (lit "%F0%9F%94%91") /\
  encodeURIComponent [56593%N] = None.
Proof. repeat split; vm_compute; reflexivity. Qed.

Example normalize_test_links (rnd : Q) :
  map (normalize rnd)
      [lit "Manteca  https://data-manteca.opendata.arcgis.com/datasets/437728d82d744e9b91d0c2202ef545dc_28/explore?location=37.812660%2C-121.260275%2C18.95";
       lit "Google http://google.com.br WebSite"]
  = [lit "Manteca"; lit "Google WebSite"].
Proof. vm_compute. reflexivity. Qed.

Lemma forallb_andb {A} (p q : A -> bool) (l : list A) :
  forallb (fun a => p a && q a) l = forallb p l && forallb q l.
Proof.
  induction l as [|a l IH]; simpl; auto.
  rewrite IH. destruct (p a), (q a), (forallb p l); reflexivity.
Qed.

Lemma normalizedTxt_clean (text : jsstring) : forallb clean (normalizedTxt text) = true.
Proof.
  unfold normalizedTxt. apply forallb_trim.
  do 4 (apply forallb_replace_first; [reflexivity|]).
  apply forallb_replace_class; [reflexivity|].
  unfold clean. rewrite forallb_andb. apply andb_true_iff. split.
  - apply forallb_replace_class; [reflexivity|].
    apply forallb_replace_class; [reflexivity|].
    apply replace_class_clears. reflexivity.
  - apply replace_class_clears. reflexivity.
Qed.

Lemma isDigit_clean (c : N) : isDigit c = true -> clean c = true.
Proof.
  unfold isDigit. intros H. apply andb_true_iff in H as [L U].
  apply N.leb_le in L, U.
  unfold clean, isStripped, isChar. cbn [existsb].
  repeat match goal with
         | |- context [(c =? ?k)%N] =>
             destruct (N.eqb_spec c k) as [E|_];
             [exfalso; revert L U; rewrite E; vm_compute; intuition congruence|]
         end.
  reflexivity.
Qed.

Lemma numberTxt_decimal (rnd : Q) :
  0 <= rnd -> numberTxt rnd = decimal (round_half_up (binary64 (rnd * 1000))).
Proof.
  intros H. unfold numberTxt. apply toFixed0_nonneg. apply binary64_nonneg. lra.
Qed.

Lemma numberTxt_digits (rnd : Q) : 0 <= rnd -> forallb isDigit (numberTxt rnd) = true.
Proof. intros H. rewrite numberTxt_decimal by assumption. apply decimal_digits. Qed.

Lemma numberTxt_nonempty (rnd : Q) : 0 <= rnd -> numberTxt rnd <> [].
Proof. intros H. rewrite numberTxt_decimal by assumption. apply decimal_nonempty. Qed.

Lemma normalize_clean (rnd : Q) (text : jsstring) :
  0 <= rnd -> forallb clean (normalize rnd text) = true.
Proof.
  intros H. unfold normalize, replaceOutlookInvalidNames.
  pose proof (normalizedTxt_clean text) as Ht.
  assert (Hn : forallb clean (numberTxt rnd) = true)
    by (eapply forallb_impl; [apply isDigit_clean | now apply numberTxt_digits]).
  destruct (contains _ _).
  - rewrite forallb_app, Hn. reflexivity.
  - destruct (includes _ _); [|assumption].
    now rewrite forallb_app, Ht, Hn.
Qed.

(** Decoding a text without any percent sign changes nothing. *)
Lemma Decode_no_percent (s : jsstring) :
  forallb (fun c => negb (isChar "%" c)) s = true -> Decode_from O s = Some s.
Proof.
  induction s as [|c r IH]; [reflexivity|].
  cbn [forallb]. intros H. apply andb_true_iff in H as [Hc Hr].
  unfold isChar in Hc. apply negb_true_iff in Hc.
  cbn [Decode_from]. now rewrite Hc, (IH Hr).
Qed.

Lemma clean_no_percent (c : N) : clean c = true -> negb (isChar "%" c) = true.
Proof.
  unfold isChar. destruct (N.eqb_spec c (ch "%")) as [->|_]; [|reflexivity].
  vm_compute. congruence.
Qed.

(** C5.  For every input text, the result of [normalize] contains none
    of the characters double quote, [{ } * : < > ? / % + |], and no line
    feed.  ([rnd], the value drawn by [Math.random()], lies in [0, 1).) *)
Theorem normalize_has_no_forbidden_character (rnd : Q) (text : jsstring) (c : N) :
  0 <= rnd < 1 ->
  In c (normalize rnd text) ->
  ~ In c (34%N :: lit "{}*:<>?/%+|" ++ [ch "010"]).
Proof.
  intros [H0 _] Hin Hbad.
  pose proof (normalize_clean text H0) as Hc.
  rewrite forallb_forall in Hc. specialize (Hc c Hin).
  cbn in Hbad.
  repeat (destruct Hbad as [<-|Hbad]; [vm_compute in Hc; congruence|]).
  exact Hbad.
Qed.

Lemma normalize_has_no_forbidden_character_witness :
  ~ In (ch "a") (34%N :: lit "{}*:<>?/%+|" ++ [ch "010"]).
Proof.
  apply (@normalize_has_no_forbidden_character (1 # 3) (lit "a*b") (ch "a")).
  - split; [discriminate | reflexivity].
  - vm_compute. now left.
Defined.

Lemma decode_is_normalize_core (rnd : Q) (text : jsstring) :
  0 <= rnd -> decode rnd text = Some (normalize rnd text).
Proof.
  intros H0. unfold decode, decodeURIComponent.
  apply Decode_no_percent.
  eapply forallb_impl; [apply clean_no_percent | now apply normalize_clean].
Qed.

(** C9.  For every input text, [decode(text)] is [normalize(text)]: the
    percent-decoding step has nothing to decode, since [normalize] has
    removed every percent sign; in particular [decode] does not throw. *)
Theorem decode_is_normalize (rnd : Q) (text : jsstring) :
  0 <= rnd < 1 ->
  decode rnd text = Some (normalize rnd text).
Proof.
  intros [H0 _]. now apply decode_is_normalize_core.
Qed.

Lemma decode_is_normalize_witness :
  decode (1 # 3) (lit "a%20b") = Some (normalize (1 # 3) (lit "a%20b")).
Proof.
  apply decode_is_normalize. split; [discriminate | reflexivity].
Defined.

Lemma unit_draw_suffix (rnd : Q) :
  0 <= rnd < 1 ->
  exists n, (n <= 1000)%N /\ numberTxt rnd = decimal n.
Proof.
  intros [H0 H1]. exists (round_half_up (binary64 (rnd * 1000))). split.
  - apply (@round_half_up_le (binary64 (rnd * 1000)) 1000); [lia|].
    apply (@binary64_le_int (rnd * 1000) 1000 10); [lra | lia | lia |].
    change (inject_Z 1000) with 1000. lra.
  - now apply numberTxt_decimal.
Qed.

(** The product is rounded before it is printed: for the draw
    6759903040683114 / 2^53 the exact product lies below 750.5, the
    binary64 product is 750.5, and the suffix is 751. *)
Lemma numberTxt_prints_the_rounded_product :
  (6759903040683114 # 9007199254740992) * 1000 < 7505 # 10 /\
  binary64 ((6759903040683114 # 9007199254740992) * 1000) == 7505 # 10 /\
  numberTxt (6759903040683114 # 9007199254740992) = lit "751".
Proof. repeat split; vm_compute; reflexivity. Qed.

(** C8, as the code has it.  The suffix appended by the reserved-name
    substitution is the decimal numeral of an integer between 0 and
    1000, both included: the binary64 product of a draw below 1 with
    1000 is at most 1000, and [toFixed(0)] rounds it to the nearest
    integer, so a product of 999.5 or more prints as 1000. *)
Theorem reserved_suffix_range (rnd : Q) (str : jsstring) :
  0 <= rnd < 1 ->
  contains (lit "_vti_") str = true \/ includes invalidNames str = true ->
  exists n, (n <= 1000)%N /\
            replaceOutlookInvalidNames rnd str
            = (if contains (lit "_vti_") str then lit "vti" else str) ++ decimal n.
Proof.
  intros Hr Hstr. destruct (unit_draw_suffix Hr) as (n & Hn & E).
  exists n. split; [assumption|].
  unfold replaceOutlookInvalidNames. rewrite E.
  destruct (contains _ str); [reflexivity|].
  destruct Hstr as [Hc|Hi]; [discriminate|]. now rewrite Hi.
Qed.

Lemma reserved_suffix_range_witness :
  exists n, (n <= 1000)%N /\
            replaceOutlookInvalidNames (3 # 8) (lit "COM7")
            = (if contains (lit "_vti_") (lit "COM7") then lit "vti" else lit "COM7")
                ++ decimal n.
Proof.
  apply reserved_suffix_range.
  - split; [discriminate | reflexivity].
  - right. reflexivity.
Defined.

(** C8 as stated fails: for the draw 2047/2048 (a binary64 value below
    1, whose product with 1000 is the binary64 value 999.51171875) the
    suffix of the reserved name [CON] is 1000, which no integer below
    1000 prints as. *)
Lemma reserved_suffix_can_be_1000 :
  (0 <= 2047 # 2048 < 1) /\
  includes invalidNames (lit "CON") = true /\
  replaceOutlookInvalidNames (2047 # 2048) (lit "CON") = lit "CON" ++ decimal 1000 /\
  ~ (exists n, (n < 1000)%N /\
               replaceOutlookInvalidNames (2047 # 2048) (lit "CON") = lit "CON" ++ decimal n).
Proof.
  split; [split; [discriminate | reflexivity]|].
  split; [reflexivity|].
  assert (E : replaceOutlookInvalidNames (2047 # 2048) (lit "CON") = lit "CON" ++ decimal 1000)
    by (vm_compute; reflexivity).
  split; [exact E|].
  intros (n & Hn & E'). rewrite E in E'.
  apply app_inv_head in E'. apply decimal_inj in E'. lia.
Qed.

(** Every reserved name but [.lock] passes the chain of replacements
    unchanged. *)
Lemma reserved_names_pass :
  forallb (fun R => jseqb (normalizedTxt R) R) (tl invalidNames) = true.
Proof. vm_compute. reflexivity. Qed.

(** C3, as the code has it.  For each reserved name [R] other than
    [.lock], [normalize(R)] is [R] followed by one or more decimal
    digits ([vti] followed by digits for [_vti_]); [normalize('.lock')]
    is [lock], the leading period being removed before the reserved
    names are looked at, as the test of the repository expects. *)
Theorem normalize_reserved_name (rnd : Q) :
  0 <= rnd < 1 ->
  normalize rnd (lit ".lock") = lit "lock" /\
  forall R, In R invalidNames -> R <> lit ".lock" ->
    exists d, d <> [] /\ forallb isDigit d = true /\
              normalize rnd R = (if jseqb R (lit "_vti_") then lit "vti" else R) ++ d.
Proof.
  intros [H0 _]. split; [vm_compute; reflexivity|].
  intros R HR Hlock.
  exists (numberTxt rnd).
  split; [now apply numberTxt_nonempty|].
  split; [now apply numberTxt_digits|].
  assert (Ht : In R (tl invalidNames)).
  { destruct HR as [E|HR]; [congruence | exact HR]. }
  pose proof reserved_names_pass as P. rewrite forallb_forall in P.
  specialize (P R Ht). apply jseqb_eq in P.
  unfold normalize, replaceOutlookInvalidNames. rewrite P.
  assert (Hi : includes invalidNames R = true) by (now apply includes_In).
  rewrite Hi.
  cbn in Ht.
  repeat (destruct Ht as [<-|Ht]; [reflexivity|]).
  contradiction.
Qed.

Lemma normalize_reserved_name_witness :
  normalize (1 # 3) (lit ".lock") = lit "lock" /\
  forall R, In R invalidNames -> R <> lit ".lock" ->
    exists d, d <> [] /\ forallb isDigit d = true /\
              normalize (1 # 3) R = (if jseqb R (lit "_vti_") then lit "vti" else R) ++ d.
Proof.
  apply normalize_reserved_name. split; [discriminate | reflexivity].
Defined.

(** C3 as stated fails at [.lock]: its normal form is [lock], which
    does not start with [.lock]. *)
Lemma normalize_lock_not_suffixed :
  In (lit ".lock") invalidNames /\
  normalize (1 # 3) (lit ".lock") = lit "lock" /\
  ~ (exists d, normalize (1 # 3) (lit ".lock") = lit ".lock" ++ d).
Proof.
  split; [now left|]. split; [vm_compute; reflexivity|].
  intros (d & E). vm_compute in E. discriminate.
Qed.

(** *** Texts that neither [normalize] nor percent-encoding changes *)

Lemma isPlain_bound (c : N) : isPlain c = true -> (c < 128)%N.
Proof.
  unfold isPlain, isAlnum, isDigit, isChar.
  rewrite !orb_true_iff, !andb_true_iff, !N.leb_le, !N.eqb_eq.
  change (ch "-") with 45%N. change (ch "_") with 95%N. lia.
Qed.

Lemma plain_table :
  forallb (fun k => implb (isPlain (N.of_nat k)) (plain_properties (N.of_nat k)))
          (seq 0 128) = true.
Proof. vm_compute. reflexivity. Qed.

Lemma isPlain_properties (c : N) : isPlain c = true -> plain_properties c = true.
Proof.
  intros H. pose proof (isPlain_bound c H) as B.
  pose proof plain_table as T. rewrite forallb_forall in T.
  specialize (T (N.to_nat c)). rewrite N2Nat.id, H in T.
  apply T. apply in_seq. lia.
Qed.

Ltac plain_property H :=
  apply isPlain_properties in H; unfold plain_properties in H;
  repeat (apply andb_true_iff in H; destruct H as [H ?]);
  repeat match goal with
         | X : negb _ = true |- _ => apply negb_true_iff in X
         end;
  try assumption.

Lemma plain_not_stripped c : isPlain c = true -> isStripped c = false.
Proof. intros H. plain_property H. Qed.
Lemma plain_not_space c : isPlain c = true -> isWhiteSpace c = false.
Proof. intros H. plain_property H. Qed.
Lemma plain_not_dot c : isPlain c = true -> isChar "." c = false.
Proof. intros H. plain_property H. Qed.
Lemma plain_not_tilde c : isPlain c = true -> isChar "~" c = false.
Proof. intros H. plain_property H. Qed.
Lemma plain_not_amp c : isPlain c = true -> isChar "&" c = false.
Proof. intros H. plain_property H. Qed.
Lemma plain_not_star c : isPlain c = true -> isChar "*" c = false.
Proof. intros H. plain_property H. Qed.
Lemma plain_not_colon c : isPlain c = true -> isChar ":" c = false.
Proof. intros H. plain_property H. Qed.
Lemma plain_not_crtab c : isPlain c = true -> (isChar "013" c || isChar "009" c) = false.
Proof. intros H. plain_property H. Qed.
Lemma plain_not_lf c : isPlain c = true -> isChar "010" c = false.
Proof. intros H. plain_property H. Qed.
Lemma plain_unescaped c : isPlain c = true -> uriUnescaped c = true.
Proof. intros H. plain_property H. Qed.
Lemma plain_not_extra c : isPlain c = true -> isRfc3986Extra c = false.
Proof. intros H. plain_property H. Qed.

Lemma replace_g_silent (m : matcher) (f : jsstring -> jsstring) (b : bool) (s : jsstring) :
  silent m -> forallb isPlain s = true -> replace_g_from m f b O s = s.
Proof.
  intros Hm. revert b. induction s as [|c r IH]; intros b Hs.
  - cbn. now rewrite (Hm b [] Hs).
  - cbn [replace_g_from]. rewrite (Hm b (c :: r) Hs).
    cbn [forallb] in Hs. apply andb_true_iff in Hs as [_ Hr].
    now rewrite IH.
Qed.

Lemma replace_first_silent (m : matcher) (repl : jsstring) (b : bool) (s : jsstring) :
  silent m -> forallb isPlain s = true -> replace_first_from m repl b s = s.
Proof.
  intros Hm. revert b. induction s as [|c r IH]; intros b Hs.
  - cbn. now rewrite (Hm b [] Hs).
  - cbn [replace_first_from]. rewrite (Hm b (c :: r) Hs).
    cbn [forallb] in Hs. apply andb_true_iff in Hs as [_ Hr].
    now rewrite IH.
Qed.

Lemma silent_class (p : N -> bool) :
  (forall c, isPlain c = true -> p c = false) -> silent (re_class p).
Proof.
  intros Hp b [|c r] Hs; [reflexivity|].
  cbn [forallb] in Hs. apply andb_true_iff in Hs as [Hc _].
  unfold re_class. now rewrite (Hp c Hc).
Qed.

Lemma silent_class_plus (p : N -> bool) :
  (forall c, isPlain c = true -> p c = false) -> silent (re_class_plus p).
Proof.
  intros Hp b [|c r] Hs; [reflexivity|].
  cbn [forallb] in Hs. apply andb_true_iff in Hs as [Hc _].
  unfold re_class_plus. cbn [run_length]. now rewrite (Hp c Hc).
Qed.

Lemma silent_leading_tilde : silent re_leading_tilde.
Proof.
  intros b [|c r] Hs; [reflexivity|].
  cbn [forallb] in Hs. apply andb_true_iff in Hs as [Hc _].
  unfold re_leading_tilde. rewrite (plain_not_tilde c Hc).
  now rewrite andb_false_r.
Qed.

Lemma silent_edge_dot : silent re_edge_dot.
Proof.
  intros b [|c r] Hs; [reflexivity|].
  cbn [forallb] in Hs. apply andb_true_iff in Hs as [Hc _].
  unfold re_edge_dot. now rewrite (plain_not_dot c Hc).
Qed.

Lemma link_tail_plain (n : nat) (s : jsstring) :
  forallb isPlain s = true -> re_link_tail n s = None.
Proof.
  intros Hs. unfold re_link_tail.
  destruct s as [|c r]; [reflexivity|].
  cbn [forallb] in Hs. apply andb_true_iff in Hs as [Hc _].
  apply plain_not_colon in Hc. unfold isChar in Hc.
  cbn [lit list_ascii_of_string map starts_with].
  change (N_of_ascii ":") with (ch ":").
  now rewrite N.eqb_sym, Hc.
Qed.

Lemma silent_link : silent re_link.
Proof.
  intros b s Hs. unfold re_link.
  destruct (starts_with (lit "http") s); [|reflexivity].
  rewrite (link_tail_plain 4) by (now apply forallb_skipn).
  destruct (starts_with (lit "s") (skipn 4 s)); [|reflexivity].
  now rewrite (link_tail_plain 5) by (now do 2 apply forallb_skipn).
Qed.

Lemma trimStart_plain (s : jsstring) : forallb isPlain s = true -> trimStart s = s.
Proof.
  destruct s as [|c r]; [reflexivity|].
  cbn [forallb]. intros Hs. apply andb_true_iff in Hs as [Hc _].
  cbn [trimStart]. now rewrite (plain_not_space c Hc).
Qed.

Lemma trim_plain (s : jsstring) : forallb isPlain s = true -> trim s = s.
Proof.
  intros Hs. unfold trim, trimEnd.
  rewrite (trimStart_plain s Hs).
  rewrite trimStart_plain by (now rewrite forallb_rev).
  apply rev_involutive.
Qed.

(** The chain of replacements leaves a plain text as it is. *)
Lemma normalizedTxt_plain (s : jsstring) :
  forallb isPlain s = true -> normalizedTxt s = s.
Proof.
  intros Hs. unfold normalizedTxt, removeLinks, replace_g, replace_g_fn, replace_first.
  rewrite (@replace_g_silent _ _ true _ silent_link Hs).
  rewrite (@replace_g_silent _ _ true _ (silent_class _ plain_not_star) Hs).
  rewrite (@replace_g_silent _ _ true _ (silent_class _ plain_not_stripped) Hs).
  rewrite (@replace_g_silent _ _ true _ (silent_class _ plain_not_crtab) Hs).
  rewrite (@replace_g_silent _ _ true _ (silent_class _ plain_not_lf) Hs).
  rewrite (@replace_g_silent _ _ true _ (silent_class _ plain_not_amp) Hs).
  rewrite (@replace_first_silent _ _ true _ (silent_class_plus _ plain_not_dot) Hs).
  rewrite (@replace_first_silent _ _ true _ silent_leading_tilde Hs).
  rewrite (@replace_first_silent _ _ true _ silent_edge_dot Hs).
  rewrite (@replace_first_silent _ _ true _ (silent_class_plus _ plain_not_space) Hs).
  now apply trim_plain.
Qed.

Lemma Encode_plain (s : jsstring) :
  forallb isPlain s = true -> Encode_from O s = Some s.
Proof.
  induction s as [|c r IH]; [reflexivity|].
  cbn [forallb]. intros Hs. apply andb_true_iff in Hs as [Hc Hr].
  cbn [Encode_from]. now rewrite (plain_unescaped c Hc), (IH Hr).
Qed.

Lemma encodeRFC3986URIComponent_plain (s : jsstring) :
  forallb isPlain s = true -> encodeRFC3986URIComponent s = Some s.
Proof.
  intros Hs. unfold encodeRFC3986URIComponent, encodeURIComponent.
  rewrite (Encode_plain s Hs). cbn [option_map]. unfold replace_g_fn.
  now rewrite (@replace_g_silent _ _ true _ (silent_class _ plain_not_extra) Hs).
Qed.

(** *** The result of the reserved-name substitution is not reserved *)

Lemma no_underscore_no_vti (s : jsstring) :
  forallb noUnderscore s = true -> contains (lit "_vti_") s = false.
Proof.
  induction s as [|c r IH]; [reflexivity|].
  cbn [forallb]. intros H. apply andb_true_iff in H as [Hc Hr].
  cbn [contains]. rewrite (IH Hr), orb_false_r.
  unfold noUnderscore, isChar in Hc. apply negb_true_iff in Hc.
  cbn [lit list_ascii_of_string map starts_with].
  change (N_of_ascii "_") with (ch "_").
  now rewrite N.eqb_sym, Hc.
Qed.

Lemma digit_no_underscore (c : N) : isDigit c = true -> noUnderscore c = true.
Proof.
  unfold isDigit, noUnderscore, isChar. intros H.
  apply andb_true_iff in H as [L U]. apply N.leb_le in L, U.
  apply negb_true_iff, N.eqb_neq. change (ch "_") with 95%N. lia.
Qed.

Lemma reserved_no_underscore :
  forallb (fun R => jseqb R (lit "_vti_") || forallb noUnderscore R) invalidNames = true.
Proof. vm_compute. reflexivity. Qed.

Lemma starts_with_app (s d : jsstring) : starts_with s (s ++ d) = true.
Proof.
  induction s as [|c r IH]; cbn; [now destruct d|].
  now rewrite N.eqb_refl, IH.
Qed.

Lemma extends_app (s d : jsstring) :
  d <> [] -> forallb isDigit d = true -> extends s (s ++ d) = true.
Proof.
  intros Hd Hdig. unfold extends.
  rewrite starts_with_app, skipn_app, skipn_all, Nat.sub_diag. cbn [skipn app andb].
  rewrite Hdig, andb_true_r. apply negb_true_iff, Nat.eqb_neq.
  rewrite length_app. destruct d; [congruence | cbn; lia].
Qed.

Lemma no_reserved_extends_reserved :
  forallb (fun s => forallb (fun x => negb (extends s x)) invalidNames) invalidNames = true.
Proof. vm_compute. reflexivity. Qed.

Lemma vti_digits_not_reserved (d : jsstring) : includes invalidNames (lit "vti" ++ d) = false.
Proof.
  destruct (includes invalidNames (lit "vti" ++ d)) eqn:E; [|reflexivity].
  apply includes_In in E. cbn in E.
  repeat (destruct E as [E|E]; [discriminate E|]).
  contradiction.
Qed.

(** Whatever [replaceOutlookInvalidNames] returns neither contains
    [_vti_] nor is a reserved name. *)
Lemma replaceOutlookInvalidNames_settled (rnd : Q) (str : jsstring) :
  0 <= rnd ->
  contains (lit "_vti_") (replaceOutlookInvalidNames rnd str) = false /\
  includes invalidNames (replaceOutlookInvalidNames rnd str) = false.
Proof.
  intros H0.
  pose proof (numberTxt_digits H0) as Hdig.
  pose proof (numberTxt_nonempty H0) as Hne.
  assert (Hu : forallb noUnderscore (numberTxt rnd) = true)
    by (eapply forallb_impl; [apply digit_no_underscore | exact Hdig]).
  unfold replaceOutlookInvalidNames.
  destruct (contains (lit "_vti_") str) eqn:Hc.
  - split; [|apply vti_digits_not_reserved].
    apply no_underscore_no_vti. now rewrite forallb_app, Hu.
  - destruct (includes invalidNames str) eqn:Hi; [|now split].
    pose proof Hi as Hin. apply includes_In in Hin.
    split.
    + apply no_underscore_no_vti. rewrite forallb_app, Hu, andb_true_r.
      pose proof reserved_no_underscore as T. rewrite forallb_forall in T.
      specialize (T str Hin). apply orb_true_iff in T as [T|T]; [|exact T].
      apply jseqb_eq in T. subst str. discriminate Hc.
    + destruct (includes invalidNames (str ++ numberTxt rnd)) eqn:E; [|reflexivity].
      apply includes_In in E.
      pose proof no_reserved_extends_reserved as T. rewrite forallb_forall in T.
      specialize (T str Hin). rewrite forallb_forall in T. specialize (T _ E).
      now rewrite (extends_app str Hne Hdig) in T.
Qed.

Lemma replaceOutlookInvalidNames_plain (rnd : Q) (str : jsstring) :
  0 <= rnd -> forallb isPlain str = true ->
  forallb isPlain (replaceOutlookInvalidNames rnd str) = true.
Proof.
  intros H0 Hs.
  assert (Hn : forallb isPlain (numberTxt rnd) = true).
  { eapply forallb_impl; [|exact (numberTxt_digits H0)].
    intros c Hc. unfold isPlain, isAlnum. now rewrite Hc. }
  unfold replaceOutlookInvalidNames.
  destruct (contains _ _); [now rewrite forallb_app, Hn|].
  destruct (includes _ _); [now rewrite forallb_app, Hs, Hn | exact Hs].
Qed.

(** A text of letters, digits, hyphens and underscores has a normal
    form of the same kind. *)
Lemma normalize_plain (rnd : Q) (s : jsstring) :
  0 <= rnd -> forallb isPlain s = true -> forallb isPlain (normalize rnd s) = true.
Proof.
  intros H0 Hs. unfold normalize. rewrite (normalizedTxt_plain s Hs).
  now apply replaceOutlookInvalidNames_plain.
Qed.

(** C4, as the code has it.  [decode(encode(s))] is the [normalize(s)]
    computed inside [encode] whenever that normal form is made of ASCII
    letters, digits, hyphens and underscores only, the characters that
    neither percent-encoding nor a second normalisation touches.  (By
    [normalize_plain] this covers every [s] made of such characters.) *)
Theorem decode_encode_plain (rnd1 rnd2 : Q) (s : jsstring) :
  0 <= rnd1 < 1 -> 0 <= rnd2 < 1 ->
  forallb isPlain (normalize rnd1 s) = true ->
  decode_encode rnd1 rnd2 s = Some (normalize rnd1 s).
Proof.
  intros [H1 _] H2 Hp. unfold decode_encode, encode.
  rewrite (encodeRFC3986URIComponent_plain _ Hp).
  rewrite (decode_is_normalize_core _ (proj1 H2)).
  f_equal. unfold normalize at 1. rewrite (normalizedTxt_plain _ Hp).
  destruct (replaceOutlookInvalidNames_settled (normalizedTxt s) H1) as [Hc Hi].
  fold (normalize rnd1 s) in Hc, Hi.
  unfold replaceOutlookInvalidNames. now rewrite Hc, Hi.
Qed.

Lemma decode_encode_plain_witness :
  decode_encode (1 # 3) (2 # 3) (lit "CON") = Some (normalize (1 # 3) (lit "CON")).
Proof.
  apply decode_encode_plain.
  - split; [discriminate | reflexivity].
  - split; [discriminate | reflexivity].
  - vm_compute. reflexivity.
Defined.

(** C4 as stated fails at the text [a b], which holds no character of
    the stripped set: [encode] writes the space as [%20], the
    [normalize] inside [decode] removes the percent sign, and [a20b]
    comes back, whatever the draws. *)
Lemma decode_encode_loses_space :
  forallb (fun c => negb (isStripped c)) (lit "a b") = true /\
  forall rnd1 rnd2 rnd3,
    encode rnd1 (lit "a b") = Some (lit "a%20b") /\
    decode_encode rnd1 rnd2 (lit "a b") = Some (lit "a20b") /\
    normalize rnd3 (lit "a b") = lit "a b" /\
    decode_encode rnd1 rnd2 (lit "a b") <> Some (normalize rnd3 (lit "a b")).
Proof.
  split; [reflexivity|]. intros rnd1 rnd2 rnd3.
  assert (E : decode_encode rnd1 rnd2 (lit "a b") = Some (lit "a20b"))
    by (vm_compute; reflexivity).
  assert (N3 : normalize rnd3 (lit "a b") = lit "a b") by (vm_compute; reflexivity).
  split; [vm_compute; reflexivity|]. split; [exact E|]. split; [exact N3|].
  rewrite E, N3. discriminate.
Qed.

End NormalizeFacts.

(** ** The request pipeline *)

Module ServiceFacts.
Import Js MsGraphService Notions JsFacts.
Local Open Scope js_scope.

Lemma quiet_refl st : quiet st st.
Proof. now repeat split. Qed.

Lemma quiet_trans st1 st2 st3 : quiet st1 st2 -> quiet st2 st3 -> quiet st1 st3.
Proof.
  intros (A1 & A2 & A3 & A4) (B1 & B2 & B3 & B4).
  repeat split; congruence.
Qed.

Lemma network_app (l l' : list event) : network (l ++ l') = network l ++ network l'.
Proof. apply filter_app. Qed.

Lemma debug_quiet (path : jsstring) (st : state) :
  exists st', debug path st = (Ok tt, st') /\ quiet st st'.
Proof.
  unfold debug, bind, read. destruct (isDebug (this st)).
  - eexists. split; [reflexivity|].
    repeat split; cbn. rewrite network_app. cbn. apply app_nil_r.
  - eexists. split; [reflexivity | apply quiet_refl].
Qed.

Lemma bind_ok (A B : Type) (m : M A) (k : A -> M B) st a st' :
  m st = (Ok a, st') -> bind m k st = k a st'.
Proof. intros E. unfold bind. now rewrite E. Qed.
Arguments bind_ok {A B m} k {st} _ {st'} E.

Lemma bind_throw (A B : Type) (m : M A) (k : A -> M B) st e st' :
  m st = (Throw e, st') -> bind m k st = (Throw e, st').
Proof. intros E. unfold bind. now rewrite E. Qed.
Arguments bind_throw {A B m} k {st} _ {st'} E.

Lemma try_ok (A : Type) (m : M A) (h : exn -> M A) st a st' :
  m st = (Ok a, st') -> try_catch m h st = (Ok a, st').
Proof. intros E. unfold try_catch. now rewrite E. Qed.
Arguments try_ok {A m} h {st} _ {st'} E.

Lemma try_throw (A : Type) (m : M A) (h : exn -> M A) st e st' :
  m st = (Throw e, st') -> try_catch m h st = h e st'.
Proof. intros E. unfold try_catch. now rewrite E. Qed.
Arguments try_throw {A m} h {st} _ {st'} E.

(** The loop ends within the fuel it is given by [requestGraphApi]. *)
Lemma retry_loop_total w fuel url method content retry response st :
  (MAX_RETRIES < fuel + retry)%nat ->
  fst (retry_loop w fuel url method content retry response st) <> Ok OutOfFuel.
Proof.
  revert retry st. induction fuel as [|fuel IH]; intros retry st H.
  - cbn. destruct (Nat.leb_spec retry MAX_RETRIES); [lia | cbn; discriminate].
  - cbn [retry_loop]. destruct (Nat.leb_spec retry MAX_RETRIES); [|cbn; discriminate].
    destruct (attempt w url method content st) as [[[r|]|e] st1]; try (cbn; discriminate).
    destruct (debug_quiet (lit "RequestGraphApi") st1) as (st2 & E & _).
    rewrite (bind_ok _ _ E). apply IH. lia.
Qed.

(** After [n] failed iterations the loop goes on with [retry + n]. *)
Lemma retry_loop_after_failures w url method content n st st' :
  failed_attempts w url method content n st st' ->
  forall fuel retry response,
    (retry + n <= S MAX_RETRIES)%nat ->
    retry_loop w (n + fuel) url method content retry response st
    = retry_loop w fuel url method content (retry + n) response st'.
Proof.
  induction 1 as [st | n st st1 st2 st3 e Ha Hd _ IH]; intros fuel retry response Hr.
  - now rewrite Nat.add_0_r.
  - cbn [Nat.add retry_loop].
    destruct (Nat.leb_spec retry MAX_RETRIES); [|lia].
    rewrite Ha, (bind_ok _ _ Hd), IH by lia.
    f_equal. lia.
Qed.

(** *** Running a method on a symbolic state

    The methods are unfolded down to the state they thread; every test
    the run meets is decided from the hypotheses at hand, or split. *)

Arguments lit : simpl never.
Arguments get : simpl never.
Arguments truthy : simpl never.
Arguments msGraphUrl : simpl never.
Arguments isIgnorableMessage : simpl never.
Arguments requestError : simpl never.
Arguments N.eqb : simpl never.
Arguments app : simpl never.

Ltac unfold_methods :=
  unfold attempt, renewTokenWithNeeded, refreshToken, requestAuthorizationToken,
    setAuthorizationTokens, fetch_token, internalRequest, set_tokens,
    bind, try_catch, debug, read, ret, throw, json_of, lift, emit in *.

Ltac split_scrutinee :=
  match goal with
  | H : ?x = _ |- context [match ?x with _ => _ end] => rewrite H
  | H : ?x = _ |- context [if ?x then _ else _] => rewrite H
  | |- context [match ?x with _ => _ end] =>
      lazymatch x with
      | context [match _ with _ => _ end] => fail
      | _ => destruct x eqn:?
      end
  | |- context [if ?x then _ else _] =>
      lazymatch x with
      | context [match _ with _ => _ end] => fail
      | context [if _ then _ else _] => fail
      | _ => destruct x eqn:?
      end
  end.

Ltac run := repeat (cbn in *; try discriminate; try congruence; try split_scrutinee).

Ltac trace_done :=
  cbn; repeat rewrite network_app; cbn; rewrite ?jseqb_refl; cbn;
  rewrite ?app_nil_r, <- ?app_assoc; try reflexivity.

(** An attempt that meets a plain failure throws, after exactly one
    request and no refresh. *)
Lemma attempt_plain_failure w url method content st :
  plain_failure (graph w (requests st)) = true ->
  exists e st',
    attempt w url method content st = (Throw e, st') /\
    this st' = this st /\ requests st' = S (requests st) /\
    token_requests st' = token_requests st /\
    network (trace st')
    = network (trace st)
      ++ [EvRequest (msGraphUrl ++ url) method content (msAccessToken (this st))].
Proof.
  unfold plain_failure. intros H. unfold_methods.
  run.
  all: try (do 2 eexists; split; [reflexivity|]; repeat split; trace_done).
Qed.

Lemma failed_attempts_plain w url method content n :
  forall st,
  (forall k, (k < n)%nat -> plain_failure (graph w (requests st + k)) = true) ->
  exists st',
    failed_attempts w url method content n st st' /\
    this st' = this st /\ requests st' = (requests st + n)%nat /\
    token_requests st' = token_requests st /\
    network (trace st')
    = network (trace st)
      ++ repeat (EvRequest (msGraphUrl ++ url) method content (msAccessToken (this st))) n.
Proof.
  induction n as [|n IH]; intros st H.
  - exists st. split; [constructor|].
    repeat split; [lia | cbn; now rewrite app_nil_r].
  - destruct (@attempt_plain_failure w url method content st)
      as (e & st1 & Ha & T1 & R1 & K1 & N1).
    { rewrite <- (Nat.add_0_r (requests st)). apply H. lia. }
    destruct (debug_quiet (lit "RequestGraphApi") st1) as (st2 & Hd & T2 & R2 & K2 & N2).
    destruct (IH st2) as (st3 & Hf & T3 & R3 & K3 & N3).
    { intros k Hk. rewrite R2, R1.
      replace (S (requests st) + k)%nat with (requests st + S k)%nat by lia.
      apply H. lia. }
    exists st3. split; [econstructor; eassumption|].
    repeat split; try congruence; try lia.
    rewrite N3, N2, N1, T2, T1, <- app_assoc. reflexivity.
Qed.

Lemma failed_attempts_snoc w url method content n st st1 st2 st3 e :
  failed_attempts w url method content n st st1 ->
  attempt w url method content st1 = (Throw e, st2) ->
  debug (lit "RequestGraphApi") st2 = (Ok tt, st3) ->
  failed_attempts w url method content (S n) st st3.
Proof.
  induction 1 as [st | n st sa sb sc e' Ha Hd _ IH]; intros A D.
  - econstructor; [exact A | exact D | constructor].
  - econstructor; [exact Ha | exact Hd | now apply IH].
Qed.

Lemma failed_attempts_unique w url method content n st st1 st2 :
  failed_attempts w url method content n st st1 ->
  failed_attempts w url method content n st st2 ->
  st1 = st2.
Proof.
  induction 1 as [st | n st sa sb sc e Ha Hd _ IH]; intros F; inversion F; subst.
  - reflexivity.
  - apply IH.
    match goal with
    | A : attempt _ _ _ _ st = _ |- _ => rewrite Ha in A; injection A as _ <-
    end.
    match goal with
    | D : debug _ sa = _ |- _ => rewrite Hd in D; injection D as <-
    end.
    assumption.
Qed.

(** After three failed attempts the request gives up. *)
Lemma three_failed_attempts w url method content st st' :
  failed_attempts w url method content 3 st st' ->
  requestGraphApi w url method content st
  = (Throw (BaseError (maxRetriesError url method) NoDetail), st').
Proof.
  intros Hf. unfold requestGraphApi.
  pose proof (@retry_loop_after_failures w url method content 3 st st' Hf
                0%nat 1%nat JNull) as L.
  change (3 + 0)%nat with MAX_RETRIES in L.
  erewrite bind_ok; [|rewrite L by (unfold MAX_RETRIES; lia); reflexivity].
  reflexivity.
Qed.

(** C2.  When every attempt fails (throws: the ignorable error, which
    returns, is not among these), the request makes exactly three
    attempts and then throws the error whose message is
    [Max retries error in request [VERB]: PATH].  When moreover the
    failures are plain ones, neither an authorisation failure nor the
    ignorable error, the three attempts are three HTTP requests and no
    refresh. *)
Theorem request_gives_up_after_three_attempts w url method content st :
  (forall n st1,
      (n < MAX_RETRIES)%nat ->
      failed_attempts w url method content n st st1 ->
      exists e st2, attempt w url method content st1 = (Throw e, st2)) ->
  exists st',
    requestGraphApi w url method content st
    = (Throw (BaseError (lit "Max retries error in request [" ++ method ++ lit "]: " ++ url)
                        NoDetail), st') /\
    failed_attempts w url method content 3 st st' /\
    ((forall k, (k < 3)%nat -> plain_failure (graph w (requests st + k)) = true) ->
     requests st' = (requests st + 3)%nat /\
     token_requests st' = token_requests st /\
     network (trace st')
     = network (trace st)
       ++ repeat (EvRequest (msGraphUrl ++ url) method content (msAccessToken (this st))) 3).
Proof.
  intros H.
  assert (F : forall n, (n <= MAX_RETRIES)%nat ->
                        exists st1, failed_attempts w url method content n st st1).
  { induction n as [|n IH]; intros Hn.
    - exists st. constructor.
    - destruct IH as (st1 & F1); [lia|].
      destruct (H n st1 Hn F1) as (e & st2 & A).
      destruct (debug_quiet (lit "RequestGraphApi") st2) as (st3 & D & _).
      exists st3. exact (failed_attempts_snoc F1 A D). }
  destruct (F 3%nat) as (st' & Hf); [unfold MAX_RETRIES; lia|].
  exists st'. split; [exact (three_failed_attempts Hf)|]. split; [exact Hf|].
  intros P.
  destruct (@failed_attempts_plain w url method content 3 st P)
    as (st'' & Hf' & _ & R & K & N).
  rewrite (failed_attempts_unique Hf Hf'). now repeat split.
Qed.

Lemma request_gives_up_after_three_attempts_witness :
  exists st',
    requestGraphApi unreachable (lit "me") (lit "GET") None (start sample_service)
    = (Throw (BaseError (lit "Max retries error in request [" ++ lit "GET" ++ lit "]: "
                           ++ lit "me") NoDetail), st') /\
    failed_attempts unreachable (lit "me") (lit "GET") None 3 (start sample_service) st' /\
    ((forall k, (k < 3)%nat ->
                plain_failure (graph unreachable (requests (start sample_service) + k)) = true) ->
     requests st' = (requests (start sample_service) + 3)%nat /\
     token_requests st' = token_requests (start sample_service) /\
     network (trace st')
     = network (trace (start sample_service))
       ++ repeat (EvRequest (msGraphUrl ++ lit "me") (lit "GET") None
                            (msAccessToken (this (start sample_service)))) 3).
Proof.
  apply (@request_gives_up_after_three_attempts
           unreachable (lit "me") (lit "GET") None (start sample_service)).
  intros n st1 _ _.
  destruct (@attempt_plain_failure unreachable (lit "me") (lit "GET") None st1)
    as (e & st2 & A & _); [reflexivity|].
  now exists e, st2.
Defined.

Lemma attempt_ignorable w url method content st payload st1 :
  renewTokenWithNeeded w (msGraphUrl ++ url) method content st = (Ok payload, st1) ->
  ignorable payload = true ->
  exists st2,
    attempt w url method content st = (Ok ReturnNull, st2) /\ quiet st1 st2.
Proof.
  intros Hr Hi. unfold attempt. rewrite (bind_ok _ _ Hr). clear Hr.
  unfold ignorable in Hi. unfold bind, debug, read, ret, throw, lift, emit, quiet.
  run.
  all: try (eexists; split; [reflexivity|]; repeat split; trace_done).
Qed.

(** C6.  Whenever the payload that an attempt of the request receives
    carries an error whose message matches
    [IO error during request payload read], the request returns [null]
    and does not throw; the loop is left with [retry] at the value it
    had for that attempt ([1 + n] after [n] failed attempts): the
    response consumes no retry, and nothing more is sent. *)
Theorem ignorable_error_returns_null w url method content n st st1 payload st2 :
  failed_attempts w url method content n st st1 ->
  (n < MAX_RETRIES)%nat ->
  renewTokenWithNeeded w (msGraphUrl ++ url) method content st1 = (Ok payload, st2) ->
  ignorable payload = true ->
  exists st3,
    requestGraphApi w url method content st = (Ok JNull, st3) /\
    retry_loop w MAX_RETRIES url method content 1 JNull st
    = (Ok (Returned (1 + n) JNull), st3) /\
    quiet st2 st3.
Proof.
  intros Hf Hn Hr Hi.
  destruct (@attempt_ignorable w url method content st1 payload st2 Hr Hi)
    as (st3 & Ha & Q).
  exists st3.
  assert (L : retry_loop w MAX_RETRIES url method content 1 JNull st
              = (Ok (Returned (1 + n) JNull), st3)).
  { replace MAX_RETRIES with (n + S (MAX_RETRIES - S n))%nat at 1 by lia.
    rewrite (@retry_loop_after_failures w url method content n st st1 Hf)
      by (unfold MAX_RETRIES in *; lia).
    cbn [retry_loop]. destruct (Nat.leb_spec (1 + n) MAX_RETRIES); [|lia].
    now rewrite Ha. }
  split; [|now split].
  unfold requestGraphApi. now rewrite (bind_ok _ _ L).
Qed.

Lemma ignorable_error_returns_null_witness :
  exists st3,
    requestGraphApi io_errors (lit "me") (lit "GET") None (start sample_service)
    = (Ok JNull, st3) /\
    retry_loop io_errors MAX_RETRIES (lit "me") (lit "GET") None 1 JNull (start sample_service)
    = (Ok (Returned (1 + 0) JNull), st3) /\
    quiet (snd (renewTokenWithNeeded io_errors (msGraphUrl ++ lit "me") (lit "GET") None
                  (start sample_service))) st3.
Proof.
  apply (@ignorable_error_returns_null
           io_errors (lit "me") (lit "GET") None 0 (start sample_service)
           (start sample_service) io_error).
  - constructor.
  - unfold MAX_RETRIES. lia.
  - vm_compute. reflexivity.
  - vm_compute. reflexivity.
Defined.

Lemma get_defined (a : json) (name name' : jsstring) (e : value) :
  get (Some a) name = Ok e -> get (Some a) name' = Ok (get_opt (Some a) name').
Proof.
  unfold get_opt. destruct a; unfold get; intros H; try discriminate; reflexivity.
Qed.




(** C7, as the code has it.  When the name of the file can be
    percent-encoded and the local file does not exist, [uploadFile]
    returns [null] without throwing and without any HTTP request; and
    whatever is thrown once the remote path has been built is wrapped in
    an error whose message ends with that path. *)
Theorem upload_of_absent_file w rnd attachmentDir folderName file st encoded :
  0 <= rnd < 1 ->
  NormalizeUtils.encode rnd (last (split (ch "/") file) []) = Some encoded ->
  (file_exists w (attachmentDir ++ lit "/" ++ file) = false ->
   exists st',
     uploadFile w rnd attachmentDir folderName file st = (Ok JNull, st') /\
     quiet st st') /\
  (forall e st',
     uploadFile w rnd attachmentDir folderName file st = (Throw e, st') ->
     exists cause,
       e = BaseError (lit "Cannot upload a new file in "
                        ++ sharepointFolder (this st) ++ lit ":/" ++ folderName
                        ++ lit "/" ++ encoded ++ lit ":/content")
                     (DetailExn cause)).
Proof.
  intros _ Henc. split.
  - intros Hex. apply (f_equal negb) in Hex. cbn [negb] in Hex.
    unfold uploadFile. rewrite Henc.
    unfold fileExists, bind, try_catch, debug, read, ret, throw, emit, quiet.
    run.
    all: eexists; split; [reflexivity|]; repeat split; trace_done.
  - intros e st'. unfold uploadFile. rewrite Henc.
    unfold bind at 1. unfold read at 1. cbv iota beta.
    unfold try_catch.
    match goal with
    | |- context [match ?body st with _ => _ end] =>
        destruct (body st) as [[v|e0] st1]
    end; [discriminate|].
    destruct (debug_quiet (lit "UploadFile") st1) as (st2 & Hd & _).
    rewrite (bind_ok _ _ Hd). unfold throw. intros H. injection H as <- _.
    now exists e0.
Qed.

Lemma upload_of_absent_file_witness :
  (file_exists unreachable (lit "/tmp" ++ lit "/" ++ lit "in/report 1.pdf") = false ->
   exists st',
     uploadFile unreachable (1 # 3) (lit "/tmp") (lit "Docs") (lit "in/report 1.pdf")
                (start sample_service) = (Ok JNull, st') /\
     quiet (start sample_service) st') /\
  (forall e st',
     uploadFile unreachable (1 # 3) (lit "/tmp") (lit "Docs") (lit "in/report 1.pdf")
                (start sample_service) = (Throw e, st') ->
     exists cause,
       e = BaseError (lit "Cannot upload a new file in "
                        ++ sharepointFolder (this (start sample_service)) ++ lit ":/"
                        ++ lit "Docs" ++ lit "/" ++ lit "report%201.pdf" ++ lit ":/content")
                     (DetailExn cause)).
Proof.
  apply (@upload_of_absent_file
           unreachable (1 # 3) (lit "/tmp") (lit "Docs") (lit "in/report 1.pdf")
           (start sample_service) (lit "report%201.pdf")).
  - split; [discriminate | reflexivity].
  - vm_compute. reflexivity.
Defined.

(** C7 as stated fails for a file name that cannot be percent-encoded:
    for the name made of the lone surrogate U+D800, [encode] throws a
    [URIError] before the [try] block is entered, although the local
    file does not exist. *)
Lemma upload_of_unencodable_name_throws :
  file_exists unreachable (lit "/tmp" ++ lit "/" ++ [55296%N]) = false /\
  uploadFile unreachable (1 # 3) (lit "/tmp") (lit "Docs") [55296%N] (start sample_service)
  = (Throw URIError, start sample_service) /\
  fst (uploadFile unreachable (1 # 3) (lit "/tmp") (lit "Docs") [55296%N]
         (start sample_service)) <> Ok JNull.
Proof.
  split; [reflexivity|].
  assert (E : uploadFile unreachable (1 # 3) (lit "/tmp") (lit "Docs") [55296%N]
                (start sample_service) = (Throw URIError, start sample_service))
    by (vm_compute; reflexivity).
  split; [exact E|]. rewrite E. discriminate.
Qed.

(** *** Token logging

    The flag is set by the constructor and by nothing else; with the
    flag off, no method writes the token. *)

Import MsGraphServicePublic MoreNotions.

Lemma token_logs_snoc (tr : list event) (e : event) :
  isTokenLog e = false -> token_logs (tr ++ [e]) = token_logs tr.
Proof.
  intros H. unfold token_logs. rewrite filter_app. cbn [filter]. rewrite H. apply app_nil_r.
Qed.

Lemma discreet_ret A (a : A) : discreet (ret a).
Proof. intros st r st' F H. injection H as _ <-. now split. Qed.

Lemma discreet_throw A (e : exn) : discreet (@throw A e).
Proof. intros st r st' F H. injection H as _ <-. now split. Qed.

Lemma discreet_lift A (x : result A) : discreet (lift x).
Proof. intros st r st' F H. injection H as _ <-. now split. Qed.

Lemma discreet_read A (f : service -> A) : discreet (read f).
Proof. intros st r st' F H. injection H as _ <-. now split. Qed.

Lemma discreet_emit (e : event) : isTokenLog e = false -> discreet (emit e).
Proof.
  intros E st r st' F H. injection H as _ <-. cbn [this trace].
  split; [exact F | now apply token_logs_snoc].
Qed.

Lemma discreet_bind A B (m : M A) (k : A -> M B) :
  discreet m -> (forall a, discreet (k a)) -> discreet (bind m k).
Proof.
  intros Hm Hk st r st' F. unfold bind.
  destruct (m st) as [[a|e] st1] eqn:E; intros H.
  - destruct (Hm _ _ _ F E) as [F1 T1]. destruct (Hk a _ _ _ F1 H) as [F2 T2].
    split; congruence.
  - injection H as _ <-. exact (Hm _ _ _ F E).
Qed.

Lemma discreet_try A (m : M A) (h : exn -> M A) :
  discreet m -> (forall e, discreet (h e)) -> discreet (try_catch m h).
Proof.
  intros Hm Hh st r st' F. unfold try_catch.
  destruct (m st) as [[a|e] st1] eqn:E; intros H.
  - injection H as _ <-. exact (Hm _ _ _ F E).
  - destruct (Hm _ _ _ F E) as [F1 T1]. destruct (Hh e _ _ _ F1 H) as [F2 T2].
    split; congruence.
Qed.

Create HintDb discreet.
#[local] Hint Resolve discreet_ret discreet_throw discreet_lift discreet_read : discreet.
#[local] Hint Extern 1 (discreet (emit _)) => (apply discreet_emit; reflexivity) : discreet.

Ltac discreet :=
  cbv zeta;
  repeat first
    [ solve [auto with discreet]
    | apply discreet_bind; [|intros ?]
    | apply discreet_try; [|intros ?]
    | match goal with
      | |- discreet (if ?b then _ else _) => destruct b
      | |- discreet (match ?x with _ => _ end) => destruct x
      end ].

Lemma discreet_debug path : discreet (debug path).
Proof. unfold debug. discreet. Qed.
#[local] Hint Resolve discreet_debug : discreet.

Lemma discreet_set_tokens access refresh : discreet (set_tokens access refresh).
Proof. intros st r st' F H. injection H as _ <-. now split. Qed.
#[local] Hint Resolve discreet_set_tokens : discreet.

Lemma discreet_json_of r : discreet (json_of r).
Proof. unfold json_of. discreet. Qed.
#[local] Hint Resolve discreet_json_of : discreet.

(** With token logging off, [#setAuthorizationTokens] writes nothing at
    all and leaves the flag as it is. *)
Lemma setAuthorizationTokens_silent authorization st r st' :
  shouldLogToken (this st) = false ->
  setAuthorizationTokens authorization st = (r, st') ->
  trace st' = trace st /\ shouldLogToken (this st') = false.
Proof.
  intros F. unfold setAuthorizationTokens, bind, lift, set_tokens, read, ret.
  destruct (get (Some authorization) (lit "access_token")) as [a|e];
    [|intros H; injection H as _ <-; now split].
  destruct (get (Some authorization) (lit "refresh_token")) as [b|e];
    [|intros H; injection H as _ <-; now split].
  cbn [this shouldLogToken]. rewrite F.
  intros H; injection H as _ <-. now split.
Qed.

Lemma discreet_setAuthorizationTokens authorization :
  discreet (setAuthorizationTokens authorization).
Proof.
  intros st r st' F H. destruct (@setAuthorizationTokens_silent authorization st r st' F H) as [T F'].
  split; [exact F' | now rewrite T].
Qed.
#[local] Hint Resolve discreet_setAuthorizationTokens : discreet.

Lemma discreet_fetch_token w grant credential : discreet (fetch_token w grant credential).
Proof.
  intros st r st' F. unfold fetch_token.
  destruct (auth w (token_requests st)); intros H; injection H as _ <-;
    (split; [exact F | now apply token_logs_snoc]).
Qed.
#[local] Hint Resolve discreet_fetch_token : discreet.

Lemma discreet_requestAuthorizationToken w credential grant :
  discreet (requestAuthorizationToken w credential grant).
Proof. unfold requestAuthorizationToken. discreet. Qed.
#[local] Hint Resolve discreet_requestAuthorizationToken : discreet.

Lemma discreet_refreshToken w : discreet (refreshToken w).
Proof. unfold refreshToken. discreet. Qed.
#[local] Hint Resolve discreet_refreshToken : discreet.

Lemma discreet_internalRequest w url method content :
  discreet (internalRequest w url method content).
Proof.
  intros st r st' F. unfold internalRequest.
  destruct (graph w (requests st)); intros H; injection H as _ <-;
    (split; [exact F | now apply token_logs_snoc]).
Qed.
#[local] Hint Resolve discreet_internalRequest : discreet.

Lemma discreet_renewTokenWithNeeded w url method content :
  discreet (renewTokenWithNeeded w url method content).
Proof. unfold renewTokenWithNeeded. discreet. Qed.
#[local] Hint Resolve discreet_renewTokenWithNeeded : discreet.

Lemma discreet_attempt w url method content : discreet (attempt w url method content).
Proof. unfold attempt. discreet. Qed.
#[local] Hint Resolve discreet_attempt : discreet.

Lemma discreet_retry_loop w url method content fuel :
  forall retry response, discreet (retry_loop w fuel url method content retry response).
Proof.
  induction fuel as [|fuel IH]; intros retry response; cbn [retry_loop];
    destruct (retry <=? MAX_RETRIES)%nat; auto with discreet.
  intros st r st' F.
  destruct (attempt w url method content st) as [[[p|]|e] st1] eqn:A;
    destruct (@discreet_attempt w url method content st _ st1 F A) as [F1 T1]; intros H.
  - injection H as _ <-. now split.
  - injection H as _ <-. now split.
  - assert (D : discreet (debug (lit "RequestGraphApi") ;;
                          retry_loop w fuel url method content (S retry) response))
      by (apply discreet_bind; [auto with discreet | intros _; apply IH]).
    destruct (D _ _ _ F1 H) as [F2 T2]. split; congruence.
Qed.
#[local] Hint Resolve discreet_retry_loop : discreet.

Lemma discreet_requestGraphApi w url method content :
  discreet (requestGraphApi w url method content).
Proof. unfold requestGraphApi. discreet. Qed.
#[local] Hint Resolve discreet_requestGraphApi : discreet.

Lemma discreet_uploadFile w rnd attachmentDir folderName file :
  discreet (uploadFile w rnd attachmentDir folderName file).
Proof.
  unfold uploadFile, fileExists, readFile, requestGraphPut. discreet.
Qed.

Lemma discreet_signIn w answer : discreet (signIn w answer).
Proof.
  assert (C : forall code, discreet (set_code code))
    by (intros code st r st' F H; injection H as _ <-; now split).
  assert (U : discreet authorizeRequest).
  { intros st r st' F. unfold authorizeRequest.
    destruct (generateAuthorizeRequest (this st)); intros H; injection H as _ <-; now split. }
  unfold signIn, getMyInfo, requestGraphGet. discreet.
Qed.

Lemma perform_discreet w c st :
  shouldLogToken (this st) = false ->
  shouldLogToken (this (perform w c st)) = false /\
  token_logs (trace (perform w c st)) = token_logs (trace st).
Proof.
  intros F.
  assert (R : forall A (m : M A), discreet m ->
                shouldLogToken (this (snd (m st))) = false /\
                token_logs (trace (snd (m st))) = token_logs (trace st)).
  { intros A m D. destruct (m st) as [r st'] eqn:E. exact (D _ _ _ F E). }
  destruct c; cbn [perform].
  - apply R, discreet_signIn.
  - apply R. unfold requestGraphGet. auto with discreet.
  - apply R. unfold requestGraphPost. auto with discreet.
  - apply R. unfold requestGraphPut. auto with discreet.
  - apply R. unfold requestGraphDelete. auto with discreet.
  - apply R, discreet_uploadFile.
  - now split.
Qed.

Lemma session_discreet w calls :
  forall st, shouldLogToken (this st) = false ->
             token_logs (trace (session w calls st)) = token_logs (trace st).
Proof.
  unfold session.
  induction calls as [|c calls IH]; intros st F; [reflexivity|].
  cbn [fold_left]. destruct (@perform_discreet w c st F) as [F1 T1].
  now rewrite (IH _ F1).
Qed.

Lemma constructor_flag env_debug p s :
  constructor env_debug p = Ok s ->
  shouldLogToken s = strict_eq_string (logToken p) (lit "true").
Proof.
  unfold constructor.
  destruct (negb (truthy (client p))); [discriminate|].
  destruct (negb (truthy (secret p))); [discriminate|].
  intros C. injection C as <-. reflexivity.
Qed.

(** C10.  Token logging is on exactly when the [logToken] parameter is
    the string [true]; the boolean [true] leaves it off.  For every
    service built with another [logToken], [#setAuthorizationTokens]
    writes nothing to the console in any state that has the flag of the
    constructor, and leaves that flag as it is; and whatever calls a
    client makes on the service afterwards (sign-in, requests with
    their refreshes, uploads, logout), no token is ever written. *)
Theorem token_logging_needs_the_string_true env_debug p s :
  constructor env_debug p = Ok s ->
  (shouldLogToken s = true <-> logToken p = str (lit "true")) /\
  (logToken p = Some (JBool true) -> shouldLogToken s = false) /\
  (logToken p <> str (lit "true") ->
   (forall st authorization r st',
      shouldLogToken (this st) = shouldLogToken s ->
      setAuthorizationTokens authorization st = (r, st') ->
      trace st' = trace st /\ shouldLogToken (this st') = shouldLogToken s) /\
   (forall w calls, token_logs (trace (session w calls (start s))) = [])).
Proof.
  intros C. pose proof (@constructor_flag env_debug p s C) as S.
  assert (I : shouldLogToken s = true <-> logToken p = str (lit "true")).
  { rewrite S. unfold strict_eq_string, str.
    destruct (logToken p) as [[| | |t| |]|]; try (split; [discriminate | congruence]).
    rewrite jseqb_eq. split; congruence. }
  split; [exact I|]. split.
  - intros L. rewrite S, L. reflexivity.
  - intros L.
    assert (F : shouldLogToken s = false).
    { destruct (shouldLogToken s); [|reflexivity]. exfalso. now apply L, I. }
    rewrite F. split.
    + intros st authorization r st' Fst H. exact (@setAuthorizationTokens_silent authorization st r st' Fst H).
    + intros w calls. exact (@session_discreet w calls (start s) F).
Qed.

Lemma token_logging_needs_the_string_true_witness :
  (shouldLogToken service_with_boolean_logToken = true
   <-> logToken params_with_boolean_logToken = str (lit "true")) /\
  (logToken params_with_boolean_logToken = Some (JBool true) ->
   shouldLogToken service_with_boolean_logToken = false) /\
  (logToken params_with_boolean_logToken <> str (lit "true") ->
   (forall st authorization r st',
      shouldLogToken (this st) = shouldLogToken service_with_boolean_logToken ->
      setAuthorizationTokens authorization st = (r, st') ->
      trace st' = trace st /\
      shouldLogToken (this st') = shouldLogToken service_with_boolean_logToken) /\
   (forall w calls,
      token_logs (trace (session w calls (start service_with_boolean_logToken))) = [])).
Proof.
  apply (@token_logging_needs_the_string_true None params_with_boolean_logToken
           service_with_boolean_logToken).
  reflexivity.
Defined.

(** With the string [true] the token is logged: signing in writes the
    access token that the token endpoint granted. *)
Lemma token_is_logged_with_the_string_true :
  exists s,
    constructor None params_with_string_logToken = Ok s /\
    token_logs (trace (session healthy [CallSignIn (lit "M.C507")] (start s)))
    = [EvConsoleInfo (key_sign ++ lit " MS Access Token: %s" ++ [ch "010"])
                     (str (lit "new-access"))].
Proof. eexists. split; [reflexivity|]. vm_compute. reflexivity. Qed.

End ServiceFacts.

(* ================================================================== *)
(** * Part III. More of the code                                       *)
(* ================================================================== *)

(** ** The percent-encoding *)

Module UriFacts.
Import Js Uri NormalizeUtils Notions MoreNotions JsFacts NormalizeFacts.

Ltac Zify.zify_post_hook ::= Z.to_euclidean_division_equations.

(** Every number below [2^k] satisfies [p]; a table checked by
    evaluation. *)
Lemma below_table (p : N -> bool) (k : nat) :
  forallb (fun i => p (N.of_nat i)) (seq 0 k) = true ->
  forall n, (n < N.of_nat k)%N -> p n = true.
Proof.
  intros T n Hn. rewrite forallb_forall in T.
  specialize (T (N.to_nat n)). rewrite N2Nat.id in T. apply T.
  apply in_seq. lia.
Qed.

Lemma hexval_hexDigitUpper (d : N) : (d < 16)%N -> hexval (hexDigitUpper d) = Some d.
Proof.
  intros H.
  pose (p := fun d => match hexval (hexDigitUpper d) with
                      | Some x => (x =? d)%N
                      | None => false
                      end).
  assert (T : p d = true)
    by (apply (@below_table p 16); [vm_compute; reflexivity | exact H]).
  unfold p in T.
  destruct (hexval (hexDigitUpper d)); [|discriminate].
  apply N.eqb_eq in T. now subst.
Qed.

Lemma parseHexOctet_hex2 (b : N) (rest : jsstring) :
  (b < 256)%N -> parseHexOctet (hex2 b ++ rest) = Some (b, rest).
Proof.
  intros H. unfold hex2, parseHexOctet. rewrite <- !app_comm_cons, app_nil_l.
  rewrite !hexval_hexDigitUpper by lia.
  f_equal. f_equal. lia.
Qed.

Lemma Decode_skip (l rest : jsstring) :
  Decode_from (List.length l) (l ++ rest) = Decode_from 0 rest.
Proof.
  induction l as [|c l IH].
  - rewrite app_nil_l. reflexivity.
  - rewrite <- app_comm_cons. cbn [List.length Decode_from]. exact IH.
Qed.

Lemma percent_octets_cons (b : N) (bs : list N) :
  percent_octets (b :: bs) = ch "%" :: hex2 b ++ percent_octets bs.
Proof. reflexivity. Qed.

Lemma read_continuation_octets (bs : list N) (rest : jsstring) :
  Forall (fun b => (b < 256)%N) bs ->
  read_continuation (List.length bs) (percent_octets bs ++ rest) = Some bs.
Proof.
  induction 1 as [|b bs Hb _ IH]; [reflexivity|].
  rewrite percent_octets_cons, <- app_comm_cons, <- app_assoc.
  cbn [List.length read_continuation].
  rewrite N.eqb_refl, (parseHexOctet_hex2 _ Hb), IH. reflexivity.
Qed.

Lemma percent_octets_length (bs : list N) :
  List.length (percent_octets bs) = (3 * List.length bs)%nat.
Proof.
  induction bs as [|b bs IH]; [reflexivity|].
  rewrite percent_octets_cons. cbn [List.length]. rewrite length_app. cbn [hex2 List.length].
  lia.
Qed.

(** Decoding the escapes of a sequence of two to four octets. *)
Lemma Decode_octets (b : N) (bs : list N) (cp : N) (rest : jsstring) :
  (b < 256)%N -> Forall (fun b => (b < 256)%N) bs ->
  leading_ones b = S (List.length bs) ->
  (1 <= List.length bs <= 3)%nat ->
  utf8_decode (b :: bs) = Some cp ->
  Decode_from 0 (percent_octets (b :: bs) ++ rest)
  = option_map (app (utf16 cp)) (Decode_from 0 rest).
Proof.
  intros Hb Hbs Hl Hn Hd.
  rewrite percent_octets_cons, <- app_comm_cons.
  cbn [Decode_from]. rewrite N.eqb_refl.
  unfold decode_escape. rewrite <- app_assoc, (parseHexOctet_hex2 _ Hb), Hl.
  destruct (List.length bs) as [|m] eqn:L; [lia|].
  destruct (Nat.ltb_spec 2 m); [lia|].
  rewrite <- L, (read_continuation_octets _ Hbs), Hd.
  f_equal.
  replace (2 + 3 * List.length bs)%nat
    with (List.length (hex2 b ++ percent_octets bs))
    by (rewrite length_app, percent_octets_length; reflexivity).
  rewrite app_assoc. apply Decode_skip.
Qed.


Ltac bool_to_prop :=
  repeat match goal with
         | H : (_ && _) = true |- _ => apply andb_true_iff in H; destruct H
         | H : (_ && _) = false |- _ => apply andb_false_iff in H
         | H : (_ || _) = true |- _ => apply orb_true_iff in H
         | H : (_ || _) = false |- _ => apply orb_false_iff in H; destruct H
         | H : negb _ = true |- _ => apply negb_true_iff in H
         | H : negb _ = false |- _ => apply negb_false_iff in H
         | H : (_ <=? _)%N = true |- _ => apply N.leb_le in H
         | H : (_ <=? _)%N = false |- _ => apply N.leb_gt in H
         | H : (_ <? _)%N = true |- _ => apply N.ltb_lt in H
         | H : (_ <? _)%N = false |- _ => apply N.ltb_ge in H
         | H : (_ =? _)%N = true |- _ => apply N.eqb_eq in H
         | H : (_ =? _)%N = false |- _ => apply N.eqb_neq in H
         end.

Ltac prop_to_bool :=
  repeat match goal with
         | |- (_ && _) = true => apply andb_true_iff; split
         | |- negb _ = true => apply negb_true_iff
         | |- (_ && _) = false => apply andb_false_iff
         | |- (_ <=? _)%N = true => apply N.leb_le
         | |- (_ <=? _)%N = false => apply N.leb_gt
         | |- (_ <? _)%N = true => apply N.ltb_lt
         | |- (_ <? _)%N = false => apply N.ltb_ge
         | |- (_ =? _)%N = true => apply N.eqb_eq
         | |- (_ =? _)%N = false => apply N.eqb_neq
         end.

Lemma not_surrogate_range (c : N) :
  isSurrogate c = false <-> (c < 55296 \/ 57343 < c)%N.
Proof.
  unfold isSurrogate, isHighSurrogate, isLowSurrogate.
  destruct (N.leb_spec 55296 c), (N.leb_spec c 56319),
    (N.leb_spec 56320 c), (N.leb_spec c 57343); cbn; split; intros; try lia;
    try discriminate; reflexivity.
Qed.

(** The escapes of a code point decode to its UTF-16 form. *)
Lemma Decode_utf8 (cp : N) (rest : jsstring) :
  (cp < 1114112)%N -> isSurrogate cp = false ->
  Decode_from 0 (percent_octets (utf8 cp) ++ rest)
  = option_map (app (utf16 cp)) (Decode_from 0 rest).
Proof.
  intros Hcp Hs. apply not_surrogate_range in Hs.
  unfold utf8.
  destruct (N.ltb_spec cp 128) as [H1|H1];
    [|destruct (N.ltb_spec cp 2048) as [H2|H2];
      [|destruct (N.ltb_spec cp 65536) as [H3|H3]]].
  - (* one octet *)
    rewrite percent_octets_cons. change (percent_octets []) with (@nil N).
    rewrite app_nil_r, <- app_comm_cons. cbn [Decode_from]. rewrite N.eqb_refl.
    unfold decode_escape. rewrite parseHexOctet_hex2 by lia.
    unfold leading_ones. destruct (N.ltb_spec cp 128); [|lia].
    cbv beta iota.
    change 2%nat with (List.length (hex2 cp)). rewrite Decode_skip.
    unfold utf16. destruct (N.ltb_spec cp 65536); [reflexivity | lia].
  - apply Decode_octets; try (repeat constructor; lia); try lia.
    + unfold leading_ones.
      repeat match goal with |- context [(?a <? ?b)%N] =>
               destruct (N.ltb_spec a b); try lia end.
      reflexivity.
    + unfold utf8_decode, isContinuation.
      replace ((192 + cp / 64 - 192) * 64 + (128 + cp mod 64 - 128))%N with cp by lia.
      match goal with |- (if ?c then _ else _) = _ =>
        replace c with true; [reflexivity|] end.
      symmetry. prop_to_bool; lia.
  - apply Decode_octets; try (repeat constructor; lia); try lia.
    + unfold leading_ones.
      repeat match goal with |- context [(?a <? ?b)%N] =>
               destruct (N.ltb_spec a b); try lia end.
      reflexivity.
    + unfold utf8_decode, isContinuation.
      replace ((224 + cp / 4096 - 224) * 4096 + (128 + (cp / 64) mod 64 - 128) * 64
               + (128 + cp mod 64 - 128))%N with cp by lia.
      match goal with |- (if ?c then _ else _) = _ =>
        replace c with true; [reflexivity|] end.
      symmetry. prop_to_bool; try lia.
      destruct Hs; [left | right]; apply N.leb_gt; lia.
  - apply Decode_octets; try (repeat constructor; lia); try lia.
    + unfold leading_ones.
      repeat match goal with |- context [(?a <? ?b)%N] =>
               destruct (N.ltb_spec a b); try lia end.
      reflexivity.
    + unfold utf8_decode, isContinuation.
      replace ((240 + cp / 262144 - 240) * 262144 + (128 + (cp / 4096) mod 64 - 128) * 4096
               + (128 + (cp / 64) mod 64 - 128) * 64 + (128 + cp mod 64 - 128))%N
        with cp by lia.
      match goal with |- (if ?c then _ else _) = _ =>
        replace c with true; [reflexivity|] end.
      symmetry. prop_to_bool; lia.
Qed.


(** How [encodeURIComponent] proceeds, as an induction principle. *)
Lemma Encode_ind (P : jsstring -> jsstring -> Prop) :
  P [] [] ->
  (forall c r e, uriUnescaped c = true -> Encode_from 0 r = Some e -> P r e ->
                 P (c :: r) (c :: e)) ->
  (forall c d r e, uriUnescaped c = false ->
                   isHighSurrogate c = true -> isLowSurrogate d = true ->
                   Encode_from 0 r = Some e -> P r e ->
                   P (c :: d :: r) (percent_octets (utf8 (pair_code_point c d)) ++ e)) ->
  (forall c r e, uriUnescaped c = false -> isSurrogate c = false ->
                 Encode_from 0 r = Some e -> P r e ->
                 P (c :: r) (percent_octets (utf8 c) ++ e)) ->
  forall s e, Encode_from 0 s = Some e -> P s e.
Proof.
  intros P0 Pu Pp Pb.
  assert (A : forall n s, (List.length s <= n)%nat ->
                          forall e, Encode_from 0 s = Some e -> P s e).
  { induction n as [|n IH]; intros [|c r] Hl e He; cbn [List.length] in Hl; try lia.
    - injection He as <-. exact P0.
    - injection He as <-. exact P0.
    - cbn [Encode_from] in He.
      destruct (uriUnescaped c) eqn:U.
      + destruct (Encode_from 0 r) as [e'|] eqn:Er; [|discriminate].
        injection He as <-. apply Pu; auto. apply IH; [lia | exact Er].
      + destruct (isHighSurrogate c) eqn:Hh.
        * destruct r as [|d r']; [discriminate|].
          destruct (isLowSurrogate d) eqn:Hd; [|discriminate].
          change (65536 + (c - 55296) * 1024 + (d - 56320))%N
            with (pair_code_point c d) in He.
          set (po := percent_octets (utf8 (pair_code_point c d))) in *.
          change (Encode_from 1 (d :: r')) with (Encode_from 0 r') in He.
          destruct (Encode_from 0 r') as [e'|] eqn:Er; [|discriminate].
          injection He as <-. apply Pp; auto.
          apply IH; [cbn [List.length] in Hl; lia | exact Er].
        * destruct (isLowSurrogate c) eqn:Hw; [discriminate|].
          destruct (Encode_from 0 r) as [e'|] eqn:Er; [|discriminate].
          injection He as <-. apply Pb; auto.
          -- unfold isSurrogate. now rewrite Hh, Hw.
          -- apply IH; [lia | exact Er]. }
  intros s e. now apply (A (List.length s)).
Qed.

Lemma encodeRFC3986URIComponent_map (str : jsstring) :
  encodeRFC3986URIComponent str
  = option_map (flat_map escapeExtra) (encodeURIComponent str).
Proof.
  unfold encodeRFC3986URIComponent, replace_g_fn.
  destruct (encodeURIComponent str) as [e|]; [|reflexivity].
  cbn [option_map]. f_equal. apply replace_g_from_class.
Qed.

Lemma unescaped_bound (c : N) : uriUnescaped c = true -> (c < 128)%N.
Proof.
  unfold uriUnescaped, isAlnum, isDigit. cbn [existsb].
  rewrite !orb_true_iff, !andb_true_iff, !N.leb_le, !N.eqb_eq.
  intros H.
  repeat match goal with
         | H : _ \/ _ |- _ => destruct H as [H|H]
         end; try (vm_compute in H; discriminate); try lia; subst; vm_compute; reflexivity.
Qed.

Lemma extra_escape (c : N) :
  isRfc3986Extra c = true ->
  escapeExtra c = percent_octets (utf8 c) /\ (c < 128)%N.
Proof.
  intros H. unfold escapeExtra. rewrite H.
  unfold isRfc3986Extra in H. cbn [existsb] in H.
  rewrite !orb_true_iff, !N.eqb_eq in H.
  repeat match goal with
         | H : _ \/ _ |- _ => destruct H as [H|H]
         end; try discriminate; subst; vm_compute; auto.
Qed.

Lemma escapeExtra_octets (bs : list N) :
  Forall (fun b => (b < 256)%N) bs ->
  flat_map escapeExtra (percent_octets bs) = percent_octets bs.
Proof.
  induction 1 as [|b bs Hb _ IH]; [reflexivity|].
  rewrite percent_octets_cons.
  change (ch "%" :: hex2 b ++ percent_octets bs)
    with ([ch "%"; hexDigitUpper (b / 16); hexDigitUpper (b mod 16)] ++ percent_octets bs).
  rewrite flat_map_app, IH. f_equal.
  pose (p := fun d => negb (isRfc3986Extra (hexDigitUpper d))).
  assert (T : forall d, (d < 16)%N -> p d = true)
    by (apply (@below_table p 16); vm_compute; reflexivity).
  assert (T1 := T (b / 16)%N ltac:(lia)). assert (T2 := T (b mod 16)%N ltac:(lia)).
  unfold p in T1, T2. apply negb_true_iff in T1, T2.
  cbn [flat_map]. unfold escapeExtra at 2 3. rewrite T1, T2. reflexivity.
Qed.

Lemma utf8_octets (cp : N) :
  (cp < 1114112)%N -> Forall (fun b => (b < 256)%N) (utf8 cp).
Proof.
  intros H. unfold utf8.
  repeat match goal with |- context [(?a <? ?b)%N] =>
           destruct (N.ltb_spec a b) end;
    repeat constructor; lia.
Qed.

Lemma pair_code_point_range (c d : N) :
  isHighSurrogate c = true -> isLowSurrogate d = true ->
  (65536 <= pair_code_point c d < 1114112)%N /\
  utf16 (pair_code_point c d) = [c; d].
Proof.
  unfold isHighSurrogate, isLowSurrogate, pair_code_point, utf16.
  intros Hc Hd. bool_to_prop.
  split; [lia|].
  destruct (N.ltb_spec (65536 + (c - 55296) * 1024 + (d - 56320)) 65536); [lia|].
  f_equal; [|f_equal]; lia.
Qed.

Lemma Decode_cons_plain (c : N) (x : jsstring) :
  (c =? ch "%")%N = false ->
  Decode_from 0 (c :: x) = option_map (cons c) (Decode_from 0 x).
Proof. intros H. cbn [Decode_from]. now rewrite H. Qed.

Lemma percent_round_trip_core (s e : jsstring) :
  Encode_from 0 s = Some e ->
  forallb isCodeUnit s = true ->
  Decode_from 0 (flat_map escapeExtra e) = Some s.
Proof.
  revert s e.
  apply (@Encode_ind (fun s e => forallb isCodeUnit s = true ->
                                 Decode_from 0 (flat_map escapeExtra e) = Some s)).
  - reflexivity.
  - intros c r e U _ IH Hu. cbn [forallb] in Hu. apply andb_true_iff in Hu as [_ Hr].
    specialize (IH Hr).
    change (flat_map escapeExtra (c :: e)) with (escapeExtra c ++ flat_map escapeExtra e).
    destruct (isRfc3986Extra c) eqn:X.
    + destruct (extra_escape c X) as [-> Hc].
      rewrite Decode_utf8, IH; try lia.
      * unfold utf16. destruct (N.ltb_spec c 65536); [reflexivity | lia].
      * apply not_surrogate_range. lia.
    + unfold escapeExtra at 1. rewrite X. rewrite <- app_comm_cons, app_nil_l.
      rewrite Decode_cons_plain, IH; [reflexivity|].
      destruct (N.eqb_spec c (ch "%")) as [->|_]; [discriminate U | reflexivity].
  - intros c d r e U Hc Hd _ IH Hu.
    cbn [forallb] in Hu. apply andb_true_iff in Hu as [_ Hu].
    apply andb_true_iff in Hu as [_ Hr]. specialize (IH Hr).
    destruct (pair_code_point_range c d Hc Hd) as [R E].
    rewrite flat_map_app, escapeExtra_octets by (apply utf8_octets; lia).
    rewrite Decode_utf8, IH, E; try lia; [reflexivity|].
    apply not_surrogate_range. lia.
  - intros c r e U S _ IH Hu.
    cbn [forallb] in Hu. apply andb_true_iff in Hu as [Hc Hr]. specialize (IH Hr).
    unfold isCodeUnit in Hc. apply N.ltb_lt in Hc.
    rewrite flat_map_app, escapeExtra_octets by (apply utf8_octets; lia).
    rewrite Decode_utf8, IH; try lia; [|exact S].
    unfold utf16. destruct (N.ltb_spec c 65536); [reflexivity | lia].
Qed.


Lemma surrogate_not_unescaped (c : N) :
  isHighSurrogate c = true \/ isLowSurrogate c = true -> uriUnescaped c = false.
Proof.
  intros H. destruct (uriUnescaped c) eqn:U; [|reflexivity].
  apply unescaped_bound in U.
  unfold isHighSurrogate, isLowSurrogate in H.
  destruct H as [H|H]; bool_to_prop; lia.
Qed.

Lemma Encode_wellFormed (s e : jsstring) :
  Encode_from 0 s = Some e -> isWellFormed s = true.
Proof.
  revert s e. apply (@Encode_ind (fun s _ => isWellFormed s = true)).
  - reflexivity.
  - intros c r e U _ IH. cbn [isWellFormed].
    destruct (isHighSurrogate c) eqn:Hh;
      [now rewrite surrogate_not_unescaped in U by now left|].
    destruct (isLowSurrogate c) eqn:Hl;
      [now rewrite surrogate_not_unescaped in U by now right|].
    exact IH.
  - intros c d r e _ Hc Hd _ IH. cbn [isWellFormed]. now rewrite Hc, Hd, IH.
  - intros c r e _ S _ IH. cbn [isWellFormed].
    unfold isSurrogate in S. apply orb_false_iff in S as [-> ->]. exact IH.
Qed.

Lemma wellFormed_Encode (s : jsstring) :
  isWellFormed s = true -> exists e, Encode_from 0 s = Some e.
Proof.
  assert (A : forall n s, (List.length s <= n)%nat -> isWellFormed s = true ->
                          exists e, Encode_from 0 s = Some e).
  { induction n as [|n IH]; intros [|c r] Hl W; cbn [List.length] in Hl; try lia;
      try (now exists []).
    cbn [isWellFormed] in W. cbn [Encode_from].
    destruct (isHighSurrogate c) eqn:Hh.
    - rewrite surrogate_not_unescaped by now left.
      destruct r as [|d r']; [discriminate|].
      apply andb_true_iff in W as [Hd W]. rewrite Hd.
      change (Encode_from 1 (d :: r')) with (Encode_from 0 r').
      destruct (IH r') as (e & ->); [cbn [List.length] in Hl; lia | exact W |].
      eexists. reflexivity.
    - apply andb_true_iff in W as [Hl' W]. apply negb_true_iff in Hl'.
      destruct (IH r) as (e & ->); [lia | exact W |].
      rewrite Hl'. destruct (uriUnescaped c); eexists; reflexivity. }
  intros W. now apply (A (List.length s)).
Qed.

Lemma octets_safe (bs : list N) :
  Forall (fun b => (b < 256)%N) bs -> forallb isUrlSafe (percent_octets bs) = true.
Proof.
  induction 1 as [|b bs Hb _ IH]; [reflexivity|].
  rewrite percent_octets_cons. cbn [forallb]. rewrite forallb_app, IH, andb_true_r.
  pose (p := fun d => isUrlSafe (hexDigitUpper d)).
  assert (T : forall d, (d < 16)%N -> p d = true)
    by (apply (@below_table p 16); vm_compute; reflexivity).
  assert (T1 := T (b / 16)%N ltac:(lia)). assert (T2 := T (b mod 16)%N ltac:(lia)).
  unfold p in T1, T2. unfold hex2. cbn [forallb]. now rewrite T1, T2.
Qed.

Lemma unescaped_safe (c : N) :
  uriUnescaped c = true -> isRfc3986Extra c = false -> isUrlSafe c = true.
Proof.
  intros U X. pose proof (unescaped_bound c U) as B.
  pose (p := fun c => implb (uriUnescaped c && negb (isRfc3986Extra c)) (isUrlSafe c)).
  assert (T : p c = true)
    by (apply (@below_table p 128); [vm_compute; reflexivity | exact B]).
  unfold p in T. now rewrite U, X in T.
Qed.

Lemma escaped_safe_core (s e : jsstring) :
  Encode_from 0 s = Some e ->
  forallb isCodeUnit s = true ->
  forallb isUrlSafe (flat_map escapeExtra e) = true.
Proof.
  revert s e.
  apply (@Encode_ind (fun s e => forallb isCodeUnit s = true ->
                                 forallb isUrlSafe (flat_map escapeExtra e) = true)).
  - reflexivity.
  - intros c r e U _ IH Hu. cbn [forallb] in Hu. apply andb_true_iff in Hu as [_ Hr].
    change (flat_map escapeExtra (c :: e)) with (escapeExtra c ++ flat_map escapeExtra e).
    rewrite forallb_app, (IH Hr), andb_true_r.
    destruct (isRfc3986Extra c) eqn:X.
    + destruct (extra_escape c X) as [-> Hc]. apply octets_safe, utf8_octets. lia.
    + unfold escapeExtra. rewrite X. cbn [forallb]. now rewrite unescaped_safe.
  - intros c d r e U Hc Hd _ IH Hu.
    cbn [forallb] in Hu. apply andb_true_iff in Hu as [_ Hu].
    apply andb_true_iff in Hu as [_ Hr].
    destruct (pair_code_point_range c d Hc Hd) as [R _].
    rewrite flat_map_app, escapeExtra_octets, forallb_app, (IH Hr), andb_true_r
      by (apply utf8_octets; lia).
    apply octets_safe, utf8_octets. lia.
  - intros c r e U S _ IH Hu.
    cbn [forallb] in Hu. apply andb_true_iff in Hu as [Hc Hr].
    unfold isCodeUnit in Hc. apply N.ltb_lt in Hc.
    rewrite flat_map_app, escapeExtra_octets, forallb_app, (IH Hr), andb_true_r
      by (apply utf8_octets; lia).
    apply octets_safe, utf8_octets. lia.
Qed.


(** *** What the percent-encoding guarantees *)

(** X8.  [decodeURIComponent] undoes [encodeRFC3986URIComponent]: when
    the encoding of a string of UTF-16 code units succeeds, decoding its
    result gives the string back, the five extra escapes included. *)
Theorem percent_encoding_round_trip (s e : jsstring) :
  forallb isCodeUnit s = true ->
  encodeRFC3986URIComponent s = Some e ->
  decodeURIComponent e = Some s.
Proof.
  intros Hs He. rewrite encodeRFC3986URIComponent_map in He.
  unfold encodeURIComponent in He.
  destruct (Encode_from 0 s) as [e0|] eqn:E; [|discriminate].
  injection He as <-. exact (@percent_round_trip_core s e0 E Hs).
Qed.

Lemma percent_encoding_round_trip_witness :
  decodeURIComponent (lit "a%20b%2A%28c%29%21%C3%A9%F0%9F%92%A1")
  = Some (lit "a b*(c)!" ++ [233; 55357; 56481]%N).
Proof.
  apply (@percent_encoding_round_trip
           (lit "a b*(c)!" ++ [233; 55357; 56481]%N)
           (lit "a%20b%2A%28c%29%21%C3%A9%F0%9F%92%A1")).
  - vm_compute. reflexivity.
  - vm_compute. reflexivity.
Defined.

(** X9.  [encodeRFC3986URIComponent] throws its [URIError] exactly on
    the strings that are not well formed, those with a surrogate that
    is not half of a pair; on every other string it returns. *)
Theorem percent_encoding_defined_iff_well_formed (s : jsstring) :
  (exists e, encodeRFC3986URIComponent s = Some e) <-> isWellFormed s = true.
Proof.
  rewrite encodeRFC3986URIComponent_map. unfold encodeURIComponent. split.
  - intros [e He]. destruct (Encode_from 0 s) as [e0|] eqn:E; [|discriminate].
    exact (@Encode_wellFormed s e0 E).
  - intros H. destruct (@wellFormed_Encode s H) as [e0 E]. rewrite E.
    now exists (flat_map escapeExtra e0).
Qed.

(** X10.  The result of [encodeRFC3986URIComponent] is written with the
    unreserved characters of RFC 3986 and the percent sign only: ASCII
    letters and digits, [-], [_], [.], [~] and [%]. *)
Theorem percent_encoding_alphabet (s e : jsstring) :
  forallb isCodeUnit s = true ->
  encodeRFC3986URIComponent s = Some e ->
  forallb isUrlSafe e = true.
Proof.
  intros Hs He. rewrite encodeRFC3986URIComponent_map in He.
  unfold encodeURIComponent in He.
  destruct (Encode_from 0 s) as [e0|] eqn:E; [|discriminate].
  injection He as <-. exact (@escaped_safe_core s e0 E Hs).
Qed.

Lemma percent_encoding_alphabet_witness :
  forallb isUrlSafe (lit "it%27s%20%28here%29%2A%21") = true.
Proof.
  apply (@percent_encoding_alphabet (lit "it's (here)*!") (lit "it%27s%20%28here%29%2A%21")).
  - vm_compute. reflexivity.
  - vm_compute. reflexivity.
Defined.

End UriFacts.




(** ** More on [normalize.js] *)

Module NormalizeMore.
Import Js Uri NormalizeUtils Notions MoreNotions JsFacts NormalizeFacts UriFacts.

(** *** What the chain of replacements keeps *)

Lemma forallb_replace_g_from (q : N -> bool) (m : matcher) (repl : jsstring) :
  forallb q repl = true ->
  forall s b skip,
    forallb q s = true ->
    forallb q (replace_g_from m (fun _ => repl) b skip s) = true.
Proof.
  intros Hr. induction s as [|c r IH]; intros b skip Hs.
  - cbn [replace_g_from]. destruct skip; [|reflexivity].
    destruct (m b []); [exact Hr | reflexivity].
  - cbn [forallb] in Hs. apply andb_true_iff in Hs as [Hc Hs].
    cbn [replace_g_from]. destruct skip as [|k]; [|now apply IH].
    destruct (m b (c :: r)) as [[|n]|].
    + rewrite forallb_app, Hr. cbn [forallb andb]. rewrite Hc. now apply IH.
    + rewrite forallb_app, Hr. now apply IH.
    + cbn [forallb]. rewrite Hc. now apply IH.
Qed.

(** A property of code units that holds of the text and of every
    literal the replacements write holds of the result. *)
Lemma normalizedTxt_keeps (q : N -> bool) (text : jsstring) :
  forallb q (lit " -and.") = true ->
  forallb q text = true -> forallb q (normalizedTxt text) = true.
Proof.
  intros L H.
  assert (Q : forall a, In a (lit " -and.") -> q a = true)
    by (now apply forallb_forall).
  assert (Ql : forall l, (forall a, In a l -> In a (lit " -and.")) -> forallb q l = true).
  { intros l Hl. apply forallb_forall. auto. }
  unfold normalizedTxt. apply forallb_trim.
  apply forallb_replace_first; [apply Ql; vm_compute; tauto|].
  apply forallb_replace_first; [reflexivity|].
  apply forallb_replace_first; [reflexivity|].
  apply forallb_replace_first; [apply Ql; vm_compute; tauto|].
  apply forallb_replace_class; [apply Ql; vm_compute; tauto|].
  apply forallb_replace_class; [apply Ql; vm_compute; tauto|].
  apply forallb_replace_class; [reflexivity|].
  apply forallb_replace_class; [reflexivity|].
  apply forallb_replace_class; [reflexivity|].
  unfold removeLinks, replace_g, replace_g_fn.
  now apply forallb_replace_g_from.
Qed.

Lemma digit_in_digits (c : N) : isDigit c = true -> In c (lit "0123456789").
Proof.
  unfold isDigit. intros H. apply andb_true_iff in H as [L U].
  apply N.leb_le in L, U.
  assert (E : (c = 48 \/ c = 49 \/ c = 50 \/ c = 51 \/ c = 52 \/ c = 53 \/ c = 54
               \/ c = 55 \/ c = 56 \/ c = 57)%N) by lia.
  vm_compute. intuition.
Qed.

Lemma normalize_keeps (q : N -> bool) (rnd : Q) (text : jsstring) :
  0 <= rnd ->
  forallb q (lit " -and.vti0123456789") = true ->
  forallb q text = true -> forallb q (normalize rnd text) = true.
Proof.
  intros H0 L H.
  assert (Q : forall a, In a (lit " -and.vti0123456789") -> q a = true)
    by (now apply forallb_forall).
  assert (Ht : forallb q (normalizedTxt text) = true).
  { apply normalizedTxt_keeps; [|exact H].
    apply forallb_forall. intros a Ha. apply Q. vm_compute in Ha |- *. tauto. }
  assert (Hn : forallb q (numberTxt rnd) = true).
  { eapply forallb_impl; [|exact (numberTxt_digits H0)].
    intros c Hc. apply Q. apply digit_in_digits in Hc. vm_compute in Hc |- *. tauto. }
  assert (Hv : forallb q (lit "vti") = true).
  { apply forallb_forall. intros a Ha. apply Q. vm_compute in Ha |- *. tauto. }
  unfold normalize, replaceOutlookInvalidNames.
  destruct (contains _ _); [now rewrite forallb_app, Hv, Hn|].
  destruct (includes _ _); [now rewrite forallb_app, Ht, Hn | exact Ht].
Qed.


(** *** White space at the edges *)

Lemma trimStart_clean (s : jsstring) : starts_clean s = true -> trimStart s = s.
Proof.
  destruct s as [|c r]; [reflexivity|]. cbn [starts_clean trimStart].
  intros H. apply negb_true_iff in H. now rewrite H.
Qed.

Lemma starts_clean_trimStart (s : jsstring) : starts_clean (trimStart s) = true.
Proof.
  induction s as [|c r IH]; [reflexivity|]. cbn [trimStart].
  destruct (isWhiteSpace c) eqn:W; [exact IH|]. cbn [starts_clean]. now rewrite W.
Qed.

Lemma trimStart_suffix (s : jsstring) : exists p, s = p ++ trimStart s.
Proof.
  induction s as [|c r (p & IH)]; [now exists []|]. cbn [trimStart].
  destruct (isWhiteSpace c); [|now exists []].
  exists (c :: p). rewrite <- app_comm_cons. now f_equal.
Qed.

Lemma starts_clean_prefix (a b : jsstring) :
  starts_clean (a ++ b) = true -> a <> [] -> starts_clean a = true.
Proof. destruct a as [|c a]; [congruence|]. now rewrite <- app_comm_cons. Qed.

Lemma starts_clean_app (a b : jsstring) :
  starts_clean a = true -> starts_clean b = true -> starts_clean (a ++ b) = true.
Proof. destruct a as [|c a]; [now rewrite app_nil_l|]. now rewrite <- app_comm_cons. Qed.

Lemma trim_clean (s : jsstring) :
  starts_clean (trim s) = true /\ starts_clean (rev (trim s)) = true.
Proof.
  unfold trim, trimEnd. rewrite rev_involutive.
  split; [|apply starts_clean_trimStart].
  destruct (trimStart_suffix (rev (trimStart s))) as (p & E).
  set (v := trimStart (rev (trimStart s))) in *.
  apply (f_equal (@rev N)) in E. rewrite rev_involutive, rev_app_distr in E.
  destruct (rev v) as [|c x] eqn:V; [reflexivity|].
  apply (@starts_clean_prefix (c :: x) (rev p)); [|discriminate].
  rewrite <- E. apply starts_clean_trimStart.
Qed.

Lemma trim_fixed (s : jsstring) :
  starts_clean s = true -> starts_clean (rev s) = true -> trim s = s.
Proof.
  intros H1 H2. unfold trim, trimEnd.
  now rewrite (trimStart_clean s H1), (trimStart_clean _ H2), rev_involutive.
Qed.

Lemma digit_not_space (c : N) : isDigit c = true -> isWhiteSpace c = false.
Proof.
  intros H. apply digit_in_digits in H. vm_compute in H.
  repeat (destruct H as [<-|H]; [reflexivity|]). contradiction.
Qed.

Lemma digits_clean (d x : jsstring) :
  forallb isDigit d = true -> d <> [] -> starts_clean (d ++ x) = true.
Proof.
  destruct d as [|c d]; [congruence|]. intros H _.
  cbn [forallb] in H. apply andb_true_iff in H as [H _].
  rewrite <- app_comm_cons. cbn [starts_clean]. now rewrite digit_not_space.
Qed.

Lemma suffixed_trimmed (n d : jsstring) :
  starts_clean n = true -> forallb isDigit d = true -> d <> [] ->
  trim (n ++ d) = n ++ d.
Proof.
  intros Hn Hd Hne. apply trim_fixed.
  - apply starts_clean_app; [exact Hn|].
    rewrite <- (app_nil_r d). now apply digits_clean.
  - rewrite rev_app_distr. apply digits_clean.
    + now rewrite forallb_rev.
    + intros E. apply Hne. apply (f_equal (@rev N)) in E.
      now rewrite rev_involutive in E.
Qed.

Lemma normalizedTxt_edges (text : jsstring) :
  starts_clean (normalizedTxt text) = true /\
  starts_clean (rev (normalizedTxt text)) = true.
Proof. unfold normalizedTxt. apply trim_clean. Qed.

Lemma normalize_trimmed_core (rnd : Q) (text : jsstring) :
  0 <= rnd -> trim (normalize rnd text) = normalize rnd text.
Proof.
  intros H0. unfold normalize, replaceOutlookInvalidNames.
  pose proof (numberTxt_digits H0) as Hd. pose proof (numberTxt_nonempty H0) as Hne.
  destruct (normalizedTxt_edges text) as [C1 C2].
  destruct (contains _ _); [now apply suffixed_trimmed|].
  destruct (includes _ _); [now apply suffixed_trimmed | now apply trim_fixed].
Qed.

(** *** Carriage returns, tabs and ampersands *)

Lemma normalizedTxt_no_control (text : jsstring) :
  forallb (fun c => negb (isControlOrAmp c)) (normalizedTxt text) = true.
Proof.
  unfold normalizedTxt. apply forallb_trim.
  do 4 (apply forallb_replace_first; [reflexivity|]).
  assert (E : forall l,
             forallb (fun c => negb (isControlOrAmp c)) l
             = forallb (fun c => negb (isChar "013" c || isChar "009" c)) l
               && forallb (fun c => negb (isChar "&" c)) l).
  { induction l as [|c l IH]; [reflexivity|]. cbn [forallb]. rewrite IH.
    unfold isControlOrAmp.
    destruct (isChar "013" c || isChar "009" c), (isChar "&" c),
      (forallb (fun c => negb (isChar "013" c || isChar "009" c)) l); reflexivity. }
  rewrite E. apply andb_true_iff. split.
  - apply forallb_replace_class; [reflexivity|].
    apply forallb_replace_class; [reflexivity|].
    apply (replace_class_clears (fun c => isChar "013" c || isChar "009" c)). reflexivity.
  - apply (replace_class_clears (isChar "&")). reflexivity.
Qed.

Lemma normalize_no_control (rnd : Q) (text : jsstring) :
  0 <= rnd ->
  forallb (fun c => negb (isControlOrAmp c)) (normalize rnd text) = true.
Proof.
  intros H0. unfold normalize, replaceOutlookInvalidNames.
  pose proof (normalizedTxt_no_control text) as Ht.
  assert (Hn : forallb (fun c => negb (isControlOrAmp c)) (numberTxt rnd) = true).
  { eapply forallb_impl; [|exact (numberTxt_digits H0)].
    intros c Hc. apply digit_in_digits in Hc. vm_compute in Hc.
    repeat (destruct Hc as [<-|Hc]; [reflexivity|]). contradiction. }
  destruct (contains _ _); [now rewrite forallb_app, Hn|].
  destruct (includes _ _); [now rewrite forallb_app, Ht, Hn | exact Ht].
Qed.


(** *** Links *)

Lemma starts_with_split (p s : jsstring) :
  starts_with p s = true -> s = p ++ skipn (List.length p) s.
Proof.
  revert s. induction p as [|a p IH]; intros s H; [reflexivity|].
  destruct s as [|b s]; [discriminate|]. cbn [starts_with] in H.
  apply andb_true_iff in H as [E H]. apply N.eqb_eq in E. subst b.
  rewrite <- app_comm_cons. cbn [List.length skipn]. f_equal. now apply IH.
Qed.

Lemma starts_with_prefix (p x : jsstring) : starts_with p (p ++ x) = true.
Proof.
  induction p as [|a p IH]; [reflexivity|].
  rewrite <- app_comm_cons. cbn [starts_with]. now rewrite N.eqb_refl.
Qed.

Lemma run_length_app (q : N -> bool) (p x : jsstring) :
  forallb q p = true -> run_length q (p ++ x) = (List.length p + run_length q x)%nat.
Proof.
  induction p as [|a p IH]; [reflexivity|].
  cbn [forallb]. intros H. apply andb_true_iff in H as [Ha Hp].
  rewrite <- app_comm_cons. cbn [run_length List.length]. rewrite Ha, (IH Hp). reflexivity.
Qed.

(** After a greedy run comes the end of the text or a code unit outside
    the class. *)
Lemma run_length_stops (q : N -> bool) (x : jsstring) :
  match skipn (run_length q x) x with
  | [] => True
  | c :: _ => q c = false
  end.
Proof.
  induction x as [|a x IH]; [exact I|]. cbn [run_length].
  destruct (q a) eqn:E; [exact IH | exact E].
Qed.

Lemma re_link_http (x : jsstring) :
  re_link false (lit "http://" ++ x)
  = match run_length notSpaceTilde x with
    | O => None
    | k => Some (7 + k)%nat
    end.
Proof. reflexivity. Qed.

Lemma re_link_https (x : jsstring) :
  re_link false (lit "https://" ++ x)
  = match run_length notSpaceTilde x with
    | O => None
    | k => Some (8 + k)%nat
    end.
Proof.
  change (re_link false (lit "https://" ++ x))
    with (match (match run_length notSpaceTilde x with
                 | O => None
                 | k => Some (5 + 3 + k)%nat
                 end) with
          | Some n => Some n
          | None => None
          end).
  now destruct (run_length notSpaceTilde x).
Qed.

(** The shape of a text with a link at its start. *)
Lemma re_link_shape (s : jsstring) (n : nat) :
  re_link false s = Some n ->
  exists p x k,
    s = p ++ x /\ (p = lit "http://" \/ p = lit "https://") /\
    run_length notSpaceTilde x = S k /\ n = (List.length p + S k)%nat.
Proof.
  unfold re_link.
  destruct (starts_with (lit "http") s) eqn:H; [|discriminate].
  apply starts_with_split in H. change (List.length (lit "http")) with 4%nat in H.
  set (r := skipn 4 s) in *.
  assert (T : forall m y k', re_link_tail m y = Some k' ->
                exists x k, y = lit "://" ++ x /\ run_length notSpaceTilde x = S k
                            /\ k' = (m + 3 + S k)%nat).
  { intros m y k'. unfold re_link_tail.
    destruct (starts_with (lit "://") y) eqn:Y; [|discriminate].
    apply starts_with_split in Y. change (List.length (lit "://")) with 3%nat in Y.
    destruct (run_length notSpaceTilde (skipn 3 y)) as [|k] eqn:R; [discriminate|].
    intros E. injection E as <-. now exists (skipn 3 y), k. }
  destruct (starts_with (lit "s") r) eqn:S1.
  - apply starts_with_split in S1. change (List.length (lit "s")) with 1%nat in S1.
    destruct (re_link_tail 5 (skipn 1 r)) as [k'|] eqn:T5.
    + intros E. injection E as <-.
      destruct (T _ _ _ T5) as (x & k & Ex & Rx & ->).
      exists (lit "https://"), x, k. repeat split; auto.
      rewrite H, S1, Ex. reflexivity.
    + intros E. destruct (T _ _ _ E) as (x & k & Ex & _).
      rewrite S1 in Ex. discriminate Ex.
  - intros E. destruct (T _ _ _ E) as (x & k & Ex & Rx & ->).
    exists (lit "http://"), x, k. repeat split; auto.
    rewrite H, Ex. reflexivity.
Qed.

Lemma has_link_here_intro (p x : jsstring) :
  p = lit "http://" \/ p = lit "https://" ->
  run_length notSpaceTilde x <> 0%nat ->
  has_link_here (p ++ x) = true.
Proof.
  unfold has_link_here.
  intros [-> | ->] R; rewrite ?re_link_http, ?re_link_https;
    now destruct (run_length notSpaceTilde x).
Qed.

(** What [removeLinks] leaves of a text, from any position of the scan. *)
Lemma unlink_skip (n : nat) (r : jsstring) (b : bool) :
  replace_g_from re_link (fun _ => []) b n r
  = replace_g_from re_link (fun _ => []) false 0 (skipn n r).
Proof.
  revert r b. induction n as [|n IH]; intros r b.
  - destruct r; reflexivity.
  - destruct r as [|c r]; [reflexivity|]. cbn [replace_g_from skipn]. apply IH.
Qed.

Lemma unlink_cons (c : N) (r : jsstring) :
  replace_g_from re_link (fun _ => []) false 0 (c :: r)
  = match re_link false (c :: r) with
    | Some (S n) => replace_g_from re_link (fun _ => []) false 0 (skipn n r)
    | _ => c :: replace_g_from re_link (fun _ => []) false 0 r
    end.
Proof.
  cbn [replace_g_from].
  destruct (re_link false (c :: r)) as [[|n]|]; rewrite ?app_nil_l; try reflexivity.
  apply unlink_skip.
Qed.

Lemma removeLinks_unfold (text : jsstring) :
  removeLinks text = replace_g_from re_link (fun _ => []) false 0 text.
Proof. exact (unlink_skip 0 text true). Qed.

(** A link starts with a code unit of [[^ ~]], is not empty, and is
    followed by the end of the text or by a space or a tilde. *)
Lemma re_link_extent (c : N) (r : jsstring) (n : nat) :
  re_link false (c :: r) = Some n ->
  notSpaceTilde c = true /\
  exists k, n = S k /\
    match skipn k r with
    | [] => True
    | d :: _ => notSpaceTilde d = false
    end.
Proof.
  intros H. destruct (re_link_shape _ H) as (p & x & k & Es & Hp & Rx & ->).
  assert (Hk := run_length_stops notSpaceTilde x). rewrite Rx in Hk.
  destruct Hp as [-> | ->]; injection Es as -> ->.
  - split; [reflexivity|]. exists (6 + S k)%nat. split; [reflexivity|].
    change (skipn (6 + S k) (lit "ttp://" ++ x)) with (skipn (S k) x). exact Hk.
  - split; [reflexivity|]. exists (7 + S k)%nat. split; [reflexivity|].
    change (skipn (7 + S k) (lit "ttps://" ++ x)) with (skipn (S k) x). exact Hk.
Qed.

Lemma skipn_length_le (A : Type) (n : nat) (l : list A) :
  (List.length (skipn n l) <= List.length l)%nat.
Proof. rewrite length_skipn. lia. Qed.

(** The leading run of [[^ ~]] in what is left of a text is a prefix of
    the text: a removal can only bring together pieces that a space or
    a tilde keeps apart. *)
Lemma unlink_run_prefix (n : nat) :
  forall s, (List.length s <= n)%nat ->
  let o := replace_g_from re_link (fun _ => []) false 0 s in
  starts_with (firstn (run_length notSpaceTilde o) o) s = true.
Proof.
  induction n as [|n IH]; intros s Hn.
  - destruct s; [reflexivity | cbn in Hn; lia].
  - destruct s as [|c r]; [reflexivity|]. cbn [List.length] in Hn.
    cbv zeta. rewrite unlink_cons.
    assert (Keep : starts_with
              (firstn (run_length notSpaceTilde
                         (c :: replace_g_from re_link (fun _ => []) false 0 r))
                      (c :: replace_g_from re_link (fun _ => []) false 0 r))
              (c :: r) = true).
    { cbn [run_length]. destruct (notSpaceTilde c); [|reflexivity].
      cbn [firstn starts_with]. rewrite N.eqb_refl. apply (IH r). lia. }
    destruct (re_link false (c :: r)) as [[|k]|] eqn:L; try exact Keep.
    destruct (re_link_extent _ _ L) as (_ & k' & Ek & Hk). injection Ek as <-.
    destruct (skipn k r) as [|d r'] eqn:Sk; [reflexivity|].
    rewrite unlink_cons.
    destruct (re_link false (d :: r')) as [m|] eqn:L'.
    + destruct (re_link_extent _ _ L') as (Hd & _). congruence.
    + cbn [run_length]. rewrite Hk. reflexivity.
Qed.

(** Whether a text starts with a link is decided by its leading run of
    [[^ ~]]. *)
Lemma has_link_here_run (z s : jsstring) :
  has_link_here z = true ->
  starts_with (firstn (run_length notSpaceTilde z) z) s = true ->
  has_link_here s = true.
Proof.
  unfold has_link_here at 1.
  destruct (re_link false z) as [n|] eqn:L; [|discriminate]. intros _.
  destruct (re_link_shape _ L) as (p & x & k & -> & Hp & Rx & _).
  assert (Pp : forallb notSpaceTilde p = true) by (destruct Hp as [-> | ->]; reflexivity).
  rewrite (@run_length_app _ _ x Pp), Rx.
  rewrite firstn_app_2.
  destruct x as [|y x]; [discriminate|].
  cbn [run_length] in Rx. destruct (notSpaceTilde y) eqn:Hy; [|discriminate].
  cbn [firstn]. intros H. apply starts_with_split in H.
  rewrite <- app_assoc in H. rewrite H.
  apply has_link_here_intro; [exact Hp|].
  rewrite <- app_comm_cons. cbn [run_length]. rewrite Hy. discriminate.
Qed.

Lemma unlink_no_link (n : nat) :
  forall s, (List.length s <= n)%nat ->
  has_link (replace_g_from re_link (fun _ => []) false 0 s) = false.
Proof.
  induction n as [|n IH]; intros s Hn.
  - destruct s; [reflexivity | cbn in Hn; lia].
  - destruct s as [|c r]; [reflexivity|]. cbn [List.length] in Hn.
    rewrite unlink_cons.
    assert (Keep : re_link false (c :: r) = None \/ re_link false (c :: r) = Some 0%nat ->
              has_link (c :: replace_g_from re_link (fun _ => []) false 0 r) = false).
    { intros L. cbn [has_link]. rewrite (IH r) by lia. rewrite orb_false_r.
      destruct (has_link_here (c :: replace_g_from re_link (fun _ => []) false 0 r)) eqn:E;
        [|reflexivity].
      assert (H : has_link_here (c :: r) = true).
      { apply (@has_link_here_run _ (c :: r) E).
        cbn [run_length]. destruct (notSpaceTilde c); [|reflexivity].
        cbn [firstn starts_with]. rewrite N.eqb_refl.
        apply (@unlink_run_prefix (List.length r) r). lia. }
      unfold has_link_here in H.
      destruct L as [L | L]; rewrite L in H; [discriminate|].
      destruct (re_link_extent _ _ L) as (_ & k & Ek & _). discriminate Ek. }
    destruct (re_link false (c :: r)) as [[|k]|] eqn:L; auto.
    apply IH. pose proof (skipn_length_le k r). lia.
Qed.

Lemma unlink_fixed (s : jsstring) :
  has_link s = false -> replace_g_from re_link (fun _ => []) false 0 s = s.
Proof.
  induction s as [|c r IH]; [reflexivity|].
  cbn [has_link]. intros H. apply orb_false_iff in H as [Hh Hr].
  rewrite unlink_cons. unfold has_link_here in Hh.
  destruct (re_link false (c :: r)); [discriminate|]. now rewrite IH.
Qed.


Lemma no_surrogate_wellFormed (s : jsstring) :
  forallb (fun c => negb (isSurrogate c)) s = true -> isWellFormed s = true.
Proof.
  induction s as [|c r IH]; [reflexivity|].
  cbn [forallb isWellFormed]. intros H. apply andb_true_iff in H as [Hc Hr].
  unfold isSurrogate in Hc. apply negb_true_iff, orb_false_iff in Hc as [Hh Hl].
  rewrite Hh, Hl. now rewrite (IH Hr).
Qed.

(** *** What [removeLinks] and [normalize] guarantee *)

(** X1.  After [removeLinks] no link is left: at no position of the
    result does [/https?:\/\/[^ ~]+/] match, although what stood before
    and after a removed link is joined. *)
Theorem removeLinks_leaves_no_link (text : jsstring) :
  has_link (removeLinks text) = false.
Proof.
  rewrite removeLinks_unfold.
  exact (@unlink_no_link (List.length text) text (le_n _)).
Qed.

(** X2.  [removeLinks] returns a text without a link unchanged. *)
Theorem removeLinks_keeps_linkless_text (s : jsstring) :
  has_link s = false -> removeLinks s = s.
Proof. intros H. rewrite removeLinks_unfold. now apply unlink_fixed. Qed.

Lemma removeLinks_keeps_linkless_text_witness :
  removeLinks (lit "http is a protocol; see http:/ and https:// ~")
  = lit "http is a protocol; see http:/ and https:// ~".
Proof.
  apply (@removeLinks_keeps_linkless_text
           (lit "http is a protocol; see http:/ and https:// ~")).
  vm_compute. reflexivity.
Defined.

(** X3.  [removeLinks] is idempotent: a second pass changes nothing. *)
Theorem removeLinks_is_idempotent (text : jsstring) :
  removeLinks (removeLinks text) = removeLinks text.
Proof.
  rewrite !removeLinks_unfold. apply unlink_fixed.
  exact (@unlink_no_link (List.length text) text (le_n _)).
Qed.

(** X4.  The result of [normalize] has no white space at either end:
    the substitution of reserved names, which runs after [trim()],
    keeps the text trimmed. *)
Theorem normalize_is_trimmed (rnd : Q) (text : jsstring) :
  0 <= rnd < 1 ->
  trim (normalize rnd text) = normalize rnd text.
Proof. intros [H0 _]. now apply normalize_trimmed_core. Qed.

Lemma normalize_is_trimmed_witness :
  trim (normalize (1 # 2) (lit "  CON  ")) = normalize (1 # 2) (lit "  CON  ").
Proof.
  apply (@normalize_is_trimmed (1 # 2) (lit "  CON  ")).
  split; [discriminate | reflexivity].
Defined.

(** X5.  [normalize] never returns a reserved name, nor a text that
    contains [_vti_]: one substitution is enough, the suffixed name is
    not reserved again. *)
Theorem normalize_is_never_reserved (rnd : Q) (text : jsstring) :
  0 <= rnd < 1 ->
  contains (lit "_vti_") (normalize rnd text) = false /\
  includes invalidNames (normalize rnd text) = false.
Proof.
  intros [H0 _]. unfold normalize. now apply replaceOutlookInvalidNames_settled.
Qed.

Lemma normalize_is_never_reserved_witness :
  contains (lit "_vti_") (normalize (1 # 2) (lit "COM1")) = false /\
  includes invalidNames (normalize (1 # 2) (lit "COM1")) = false.
Proof.
  apply (@normalize_is_never_reserved (1 # 2) (lit "COM1")).
  split; [discriminate | reflexivity].
Defined.

(** X6.  The result of [normalize] holds no carriage return, no tab and
    no ampersand. *)
Theorem normalize_has_no_control_character (rnd : Q) (text : jsstring) :
  0 <= rnd < 1 ->
  forallb (fun c => negb (isControlOrAmp c)) (normalize rnd text) = true.
Proof. intros [H0 _]. now apply normalize_no_control. Qed.

Lemma normalize_has_no_control_character_witness :
  forallb (fun c => negb (isControlOrAmp c))
          (normalize (1 # 2) (lit "R&D" ++ [9; 13; 10]%N ++ lit "plan")) = true.
Proof.
  apply (@normalize_has_no_control_character
           (1 # 2) (lit "R&D" ++ [9; 13; 10]%N ++ lit "plan")).
  split; [discriminate | reflexivity].
Defined.

(** X7.  A name made of ASCII letters, digits, [-] and [_] that is not
    reserved and does not contain [_vti_] goes through unchanged:
    [normalize] returns it, and so does [encode], whatever the draw. *)
Theorem plain_name_is_kept (rnd : Q) (s : jsstring) :
  forallb isPlain s = true ->
  contains (lit "_vti_") s = false ->
  includes invalidNames s = false ->
  normalize rnd s = s /\ encode rnd s = Some s.
Proof.
  intros Hs Hv Hi.
  assert (E : normalize rnd s = s).
  { unfold normalize. rewrite (normalizedTxt_plain s Hs).
    unfold replaceOutlookInvalidNames. now rewrite Hv, Hi. }
  split; [exact E|]. unfold encode. rewrite E.
  now apply encodeRFC3986URIComponent_plain.
Qed.

Lemma plain_name_is_kept_witness :
  normalize (1 # 2) (lit "report_2024-final") = lit "report_2024-final" /\
  encode (1 # 2) (lit "report_2024-final") = Some (lit "report_2024-final").
Proof.
  apply (@plain_name_is_kept (1 # 2) (lit "report_2024-final")); vm_compute; reflexivity.
Defined.

(** X11.  [encode] returns, without a [URIError], for every text that
    holds no surrogate: [normalize] brings none in. *)
Theorem encode_defined_without_surrogates (rnd : Q) (text : jsstring) :
  0 <= rnd < 1 ->
  forallb (fun c => negb (isSurrogate c)) text = true ->
  exists e, encode rnd text = Some e.
Proof.
  intros [H0 _] Ht. unfold encode.
  rewrite encodeRFC3986URIComponent_map. unfold encodeURIComponent.
  assert (Hn : forallb (fun c => negb (isSurrogate c)) (normalize rnd text) = true)
    by (apply normalize_keeps; [exact H0 | reflexivity | exact Ht]).
  destruct (@wellFormed_Encode _ (@no_surrogate_wellFormed _ Hn)) as [e0 E].
  rewrite E. now exists (flat_map escapeExtra e0).
Qed.

Lemma encode_defined_without_surrogates_witness :
  exists e, encode (1 # 2) (lit "caf" ++ [233]%N ++ lit " & co.") = Some e.
Proof.
  apply (@encode_defined_without_surrogates (1 # 2) (lit "caf" ++ [233]%N ++ lit " & co.")).
  - split; [discriminate | reflexivity].
  - vm_compute. reflexivity.
Defined.

(** X12.  What [encode] returns is decoded by [decodeURIComponent] to
    the normalized text: the encoding loses nothing of what [normalize]
    keeps. *)
Theorem encode_decodes_to_normalize (rnd : Q) (text e : jsstring) :
  0 <= rnd < 1 ->
  forallb isCodeUnit text = true ->
  encode rnd text = Some e ->
  decodeURIComponent e = Some (normalize rnd text).
Proof.
  intros [H0 _] Ht He. unfold encode in He.
  rewrite encodeRFC3986URIComponent_map in He. unfold encodeURIComponent in He.
  destruct (Encode_from 0 (normalize rnd text)) as [e0|] eqn:E; [|discriminate].
  injection He as <-. apply (@percent_round_trip_core _ _ E).
  apply normalize_keeps; [exact H0 | reflexivity | exact Ht].
Qed.

Lemma encode_decodes_to_normalize_witness :
  decodeURIComponent (lit "a%20b%20%28draft%29")
  = Some (normalize (1 # 2) (lit " a b (draft)?")).
Proof.
  apply (@encode_decodes_to_normalize (1 # 2) (lit " a b (draft)?") (lit "a%20b%20%28draft%29")).
  - split; [discriminate | reflexivity].
  - vm_compute. reflexivity.
  - vm_compute. reflexivity.
Defined.

End NormalizeMore.

(** ** More on [msGraph.service.js] *)

Module ServiceMore.
Import Js MsGraphService MsGraphServicePublic Notions MoreNotions JsFacts ServiceFacts.
Local Open Scope js_scope.

Arguments lit : simpl never.
Arguments get : simpl never.
Arguments truthy : simpl never.
Arguments msGraphUrl : simpl never.
Arguments isIgnorableMessage : simpl never.
Arguments requestError : simpl never.
Arguments N.eqb : simpl never.
Arguments app : simpl never.

Ltac config_done := unfold config; cbn; congruence.

Ltac events_done :=
  eexists; split; [rewrite <- ?app_assoc; reflexivity|];
  unfold app; repeat constructor.

(** What one attempt does, whatever the collaborators answer. *)
Lemma attempt_inv w url method content st r st' :
  attempt w url method content st = (r, st') ->
  config (this st') = config (this st) /\
  (S (requests st) <= requests st' <= 2 + requests st)%nat /\
  (token_requests st <= token_requests st' <= 1 + token_requests st)%nat /\
  (exists evs, trace st' = trace st ++ evs /\
               Forall (expected (msGraphUrl ++ url) method content) evs) /\
  (forall p, r = Ok (Break p) -> error_free p).
Proof.
  unfold_methods. run.
  all: intros H; injection H as <- <-; cbn.
  all: split; [config_done|]; split; [lia|]; split; [lia|]; split; [events_done|].
  all: intros p Hp; try discriminate.
  all: injection Hp as <-; eexists; split; eassumption.
Qed.

Lemma debug_step (path : jsstring) (st : state) :
  exists st', debug path st = (Ok tt, st') /\
              this st' = this st /\ requests st' = requests st /\
              token_requests st' = token_requests st /\
              (trace st' = trace st \/ trace st' = trace st ++ [EvDebug path]).
Proof.
  unfold debug, bind, read, emit, ret. destruct (isDebug (this st)).
  - eexists. split; [reflexivity|]. cbn. auto.
  - eexists. split; [reflexivity|]. auto.
Qed.

(** What the loop does, whatever the collaborators answer. *)
Lemma retry_loop_inv w url method content fuel :
  forall retry response st r st',
    retry_loop w fuel url method content retry response st = (r, st') ->
    config (this st') = config (this st) /\
    (requests st <= requests st' <= requests st + 2 * (S MAX_RETRIES - retry))%nat /\
    ((retry <= MAX_RETRIES)%nat -> fuel <> 0%nat -> (S (requests st) <= requests st')%nat) /\
    (token_requests st <= token_requests st'
     <= token_requests st + (S MAX_RETRIES - retry))%nat /\
    (exists evs, trace st' = trace st ++ evs /\
                 Forall (expected (msGraphUrl ++ url) method content) evs) /\
    (exists x, r = Ok x /\
               match x with
               | Returned _ v => v = JNull
               | Left k p => (k <= MAX_RETRIES)%nat -> error_free p
               | OutOfFuel => True
               end).
Proof.
  induction fuel as [|fuel IH]; intros retry response st r st'; cbn [retry_loop].
  - destruct (Nat.leb_spec retry MAX_RETRIES); unfold ret; intros E; injection E as <- <-.
    all: split; [reflexivity|]; split; [lia|]; split; [congruence|]; split; [lia|].
    all: split; [exists []; split; [now rewrite app_nil_r | constructor]|].
    all: eexists; split; [reflexivity|]; cbn; try exact I; lia.
  - destruct (Nat.leb_spec retry MAX_RETRIES) as [Hr|Hr].
    2:{ unfold ret; intros H; injection H as <- <-.
        split; [reflexivity|]; split; [lia|]; split; [lia|]; split; [lia|].
        split; [exists []; split; [now rewrite app_nil_r | constructor]|].
        eexists; split; [reflexivity|]; cbn; lia. }
    destruct (attempt w url method content st) as [[[p|]|e] st1] eqn:A;
      destruct (@attempt_inv _ _ _ _ _ _ _ A) as (C1 & R1 & K1 & (ev1 & T1 & F1) & G1).
    + intros H; injection H as <- <-.
      split; [exact C1|]. split; [lia|]. split; [lia|]. split; [lia|].
      split; [now exists ev1|].
      eexists; split; [reflexivity|]. cbn. intros _. now apply G1.
    + intros H; injection H as <- <-.
      split; [exact C1|]. split; [lia|]. split; [lia|]. split; [lia|].
      split; [now exists ev1|].
      eexists; split; [reflexivity|]. reflexivity.
    + destruct (debug_step (lit "RequestGraphApi") st1) as (st2 & D & C2 & R2 & K2 & T2).
      rewrite (bind_ok _ _ D). intros H.
      destruct (IH _ _ _ _ _ H) as (C3 & R3 & _ & K3 & (ev3 & T3 & F3) & G3).
      split; [unfold config in *; rewrite C2 in C3; congruence|].
      split; [unfold MAX_RETRIES in *; lia|]. split; [lia|].
      split; [unfold MAX_RETRIES in *; lia|].
      split; [|exact G3].
      destruct T2 as [T2|T2]; rewrite T3, T2, T1, <- ?app_assoc;
        eexists; (split; [reflexivity|]);
        repeat (apply Forall_app; split); try assumption.
      repeat constructor.
Qed.

Lemma requestGraphApi_inv w url method content st r st' :
  requestGraphApi w url method content st = (r, st') ->
  config (this st') = config (this st) /\
  (S (requests st) <= requests st' <= requests st + 6)%nat /\
  (token_requests st <= token_requests st' <= token_requests st + 3)%nat /\
  (exists evs, trace st' = trace st ++ evs /\
               Forall (expected (msGraphUrl ++ url) method content) evs) /\
  (forall e, r = Throw e -> e = BaseError (maxRetriesError url method) NoDetail) /\
  (forall v, r = Ok v -> v = JNull \/ error_free v).
Proof.
  unfold requestGraphApi, bind.
  destruct (retry_loop w MAX_RETRIES url method content 1 JNull st) as [x st1] eqn:L.
  destruct (@retry_loop_inv _ _ _ _ _ _ _ _ _ _ L) as (C & R & R' & K & E & (y & -> & G)).
  assert (B : config (this st1) = config (this st) /\
              (S (requests st) <= requests st1 <= requests st + 6)%nat /\
              (token_requests st <= token_requests st1 <= token_requests st + 3)%nat /\
              (exists evs, trace st1 = trace st ++ evs /\
                           Forall (expected (msGraphUrl ++ url) method content) evs)).
  { unfold MAX_RETRIES in *. repeat split; try assumption; try lia.
    all: apply R'; [lia | discriminate]. }
  destruct B as (B1 & B2 & B3 & B4).
  destruct y as [k v | k p |]; cbv beta iota.
  - unfold ret. intros H; injection H as <- <-.
    repeat split; try assumption; try lia; intros ? Hx; try discriminate.
    injection Hx as <-. now left.
  - destruct (Nat.ltb_spec MAX_RETRIES k) as [Hk|Hk]; cbv beta iota; unfold ret, throw;
      intros H; injection H as <- <-.
    + repeat split; try assumption; try lia; intros ? Hx; try discriminate.
      now injection Hx as <-.
    + repeat split; try assumption; try lia; intros ? Hx; try discriminate.
      injection Hx as <-. right. apply G. lia.
  - unfold ret. intros H; injection H as <- <-.
    repeat split; try assumption; try lia; intros ? Hx; try discriminate.
    injection Hx as <-. now left.
Qed.


Arguments requestGraphPut : simpl never.
Arguments requestGraphGet : simpl never.
Arguments requestAuthorizationToken : simpl never.
Arguments uploadError : simpl never.
Arguments maxRetriesError : simpl never.

Lemma exchanges_app (l l' : list event) : exchanges (l ++ l') = exchanges l ++ exchanges l'.
Proof. apply filter_app. Qed.

Lemma graph_requests_app (l l' : list event) :
  graph_requests (l ++ l') = graph_requests l ++ graph_requests l'.
Proof. apply filter_app. Qed.

Ltac filters_done :=
  unfold network, exchanges, graph_requests; cbn; rewrite ?filter_app; cbn;
  rewrite ?jseqb_refl; cbn; rewrite ?app_nil_r, <- ?app_assoc; try reflexivity.

Ltac get_contra :=
  match goal with
  | H : get (Some ?j) _ = Ok _, H' : get (Some ?j) ?n = Throw _ |- _ =>
      exfalso; rewrite (@get_defined j _ n _ H) in H'; discriminate
  end.

Ltac get_opt_done :=
  unfold holds_tokens_of, get_opt; cbn;
  repeat match goal with H : get _ _ = _ |- _ => rewrite H end; auto.

(** The token exchange, whatever the token endpoint answers. *)
Lemma requestAuthorizationToken_inv w credential grant st r st' :
  requestAuthorizationToken w credential grant st = (r, st') ->
  config (this st') = config (this st) /\
  requests st' = requests st /\
  token_requests st' = S (token_requests st) /\
  graph_requests (trace st') = graph_requests (trace st) /\
  exchanges (trace st') = exchanges (trace st) ++ [EvTokenRequest grant credential] /\
  (exchange_fails (auth w (token_requests st)) = true ->
   r = Throw (BaseError (lit "Cannot get the Sharepoint authorization " ++ tokenKey grant)
                        NoDetail) /\
   this st' = this st) /\
  (exchange_fails (auth w (token_requests st)) = false ->
   exists ra a, auth w (token_requests st) = Some ra /\ body ra = Some a /\
                r = Ok a /\ holds_tokens_of a (this st')).
Proof.
  unfold exchange_fails, tokenKey. unfold_methods. run.
  all: try get_contra.
  all: intros H; injection H as <- <-; cbn.
  all: split; [config_done|]; split; [reflexivity|]; split; [reflexivity|].
  all: split; [filters_done|]; split; [filters_done|].
  all: split; intros F; try discriminate; try congruence.
  all: try (split; [reflexivity|]; destruct st as [[] ? ? ?]; cbn in *; congruence).
  all: try (do 2 eexists; repeat split; get_opt_done).
Qed.


(** A refresh that fails after a 401: no second request is made. *)

Lemma attempt_success w url method content st r p :
  graph w (requests st) = Some r -> good_answer r p ->
  exists st',
    attempt w url method content st = (Ok (Break p), st') /\
    this st' = this st /\
    requests st' = S (requests st) /\
    token_requests st' = token_requests st /\
    network (trace st')
    = network (trace st)
      ++ [EvRequest (msGraphUrl ++ url) method content (msAccessToken (this st))].
Proof.
  intros G (S1 & B & e & E & T). unfold_methods. run.
  all: eexists; split; [reflexivity|]; repeat split; filters_done.
Qed.

Lemma requestGraphApi_success w url method content st r p :
  graph w (requests st) = Some r -> good_answer r p ->
  exists st',
    requestGraphApi w url method content st = (Ok p, st') /\
    this st' = this st /\
    requests st' = S (requests st) /\
    token_requests st' = token_requests st /\
    network (trace st')
    = network (trace st)
      ++ [EvRequest (msGraphUrl ++ url) method content (msAccessToken (this st))].
Proof.
  intros G A.
  destruct (@attempt_success w url method content st r p G A) as (st' & E & H).
  exists st'. split; [|exact H].
  unfold requestGraphApi, bind. cbn [retry_loop MAX_RETRIES Nat.leb]. now rewrite E.
Qed.


Ltac unfold_upload :=
  unfold uploadFile, fileExists, readFile, bind, try_catch, debug, read, ret, throw, emit.

Lemma error_free_get_opt (p : json) :
  error_free p -> truthy (get_opt (Some p) (lit "error")) = false.
Proof. intros (e & E & T). unfold get_opt. now rewrite E. Qed.

(** What [uploadFile] does once the remote path is built, whatever the
    collaborators answer. *)




Lemma scopes_encoded :
  Uri.encodeURIComponent msScopes
  = Some (lit "openid%20offline_access%20User.Read%20Files.ReadWrite.All").
Proof. vm_compute. reflexivity. Qed.

Ltac unfold_signIn :=
  unfold signIn, getMyInfo, authorizeRequest, generateAuthorizeRequest, set_code,
    bind, read, emit, ret, throw;
  rewrite ?scopes_encoded.

Lemma signIn_interactive w answer st r st' :
  truthy (msAccessToken (this st)) = false ->
  signIn w answer st = (r, st') ->
  interactive_sign_in w answer st r st'.
Proof.
  intros T. unfold interactive_sign_in. unfold_signIn. run.
  all: intros H; injection H as <- <-.
  all: match goal with
       | H : requestAuthorizationToken _ _ _ _ = _ |- _ =>
           apply requestAuthorizationToken_inv in H; cbn in H;
           destruct H as (C & R & K & G & X & F1 & F2)
       end.
  all: unfold config in C; cbn in C; injection C as ? ? ? ? ? ? ? ?.
  all: split; [congruence|]; split; [congruence|].
  all: split; [rewrite G; filters_done|]; split; [rewrite X; filters_done|].
  all: split; [assumption|]; split; intros F.
  - destruct (F1 F) as [E _]. discriminate E.
  - destruct (F2 F) as (ra & a0 & ? & ? & E & ?). injection E as <-.
    split; [reflexivity|]. now exists ra, a.
  - destruct (F1 F) as [E E']. injection E as ->.
    split; [reflexivity|]. rewrite E'. cbn. auto.
  - destruct (F2 F) as (ra & a0 & _ & _ & E & _). discriminate E.
Qed.


Lemma signIn_probe w answer st r st' :
  truthy (msAccessToken (this st)) = true ->
  signIn w answer st = (r, st') ->
  config (this st') = config (this st) /\
  (S (requests st) <= requests st' <= requests st + 6)%nat /\
  (token_requests st <= token_requests st' <= token_requests st + 3)%nat /\
  (exists evs, trace st' = trace st ++ evs /\
               Forall (expected (msGraphUrl ++ lit "me") (lit "GET") None) evs) /\
  (forall e, r = Throw e -> e = BaseError (maxRetriesError (lit "me") (lit "GET")) NoDetail).
Proof.
  intros T. unfold_signIn. run.
  all: intros H; injection H as <- <-.
  all: match goal with
       | H : requestGraphGet _ _ _ = _ |- _ =>
           apply requestGraphApi_inv in H; cbn in H;
           destruct H as (C & R & K & (evs & X & F) & E & _)
       end.
  all: split; [exact C|]; split; [exact R|]; split; [exact K|].
  all: split; [rewrite X, <- ?app_assoc; eexists; split; [reflexivity|];
               repeat (apply Forall_app; split); try assumption; repeat constructor|].
  all: intros e' He; try discriminate. injection He as <-. now apply E.
Qed.

Lemma GetSubstitution_plain (matched before after template : jsstring) :
  forallb noDollar template = true ->
  GetSubstitution matched before after template = template.
Proof.
  induction template as [|c r IH]; [reflexivity|].
  cbn [forallb]. intros H. apply andb_true_iff in H as [Hc Hr].
  unfold noDollar in Hc. apply negb_true_iff in Hc.
  cbn [GetSubstitution]. now rewrite Hc, (IH Hr).
Qed.

Lemma msDomainUrl_replaced (template : jsstring) :
  replace_first_subst (re_literal (lit "%s")) template msDomainUrl
  = lit "https://"
      ++ GetSubstitution (lit "%s") (lit "https://") (lit ".sharepoint.com/") template
      ++ lit ".sharepoint.com/".
Proof. reflexivity. Qed.


Lemma constructor_ok (env_debug : value) (p : MsGraphServiceParams) (s : service) :
  constructor env_debug p = Ok s ->
  truthy (client p) = true /\ truthy (secret p) = true /\
  msAccessToken s = token p /\ msCode s = Some JNull /\ msRefreshToken s = Some JNull.
Proof.
  unfold constructor.
  destruct (truthy (client p)); [|discriminate].
  destruct (truthy (secret p)); [|discriminate].
  cbn [negb]. intros H. injection H as <-. cbn. auto.
Qed.

(** *** What a request guarantees *)

(** X13.  Whatever the collaborators answer, one call of
    [#requestGraphApi] makes at least one and at most six requests to
    the Graph API, and at most three refreshes. *)
Theorem request_effort_is_bounded w url method content st r st' :
  requestGraphApi w url method content st = (r, st') ->
  (S (requests st) <= requests st' <= requests st + 6)%nat /\
  (token_requests st <= token_requests st' <= token_requests st + 3)%nat.
Proof.
  intros H. destruct (requestGraphApi_inv _ _ _ _ _ H) as (_ & R & K & _). now split.
Qed.

Lemma request_effort_is_bounded_witness :
  exists r st',
    requestGraphApi always_unauthorized (lit "me") (lit "GET") None (start sample_service)
    = (r, st') /\
    (S (requests (start sample_service)) <= requests st'
     <= requests (start sample_service) + 6)%nat /\
    (token_requests (start sample_service) <= token_requests st'
     <= token_requests (start sample_service) + 3)%nat.
Proof.
  destruct (requestGraphApi always_unauthorized (lit "me") (lit "GET") None
                            (start sample_service)) as [r st'] eqn:E.
  exists r, st'. split; [reflexivity|].
  exact (@request_effort_is_bounded always_unauthorized (lit "me") (lit "GET") None
           (start sample_service) r st' E).
Defined.

(** X14.  [#requestGraphApi] ends in one of three ways: it throws the
    max-retries error of its verb and path, and no other error; it
    returns [null]; or it returns a payload whose [error] is falsy. *)
Theorem request_outcomes w url method content st r st' :
  requestGraphApi w url method content st = (r, st') ->
  r = Throw (BaseError (maxRetriesError url method) NoDetail) \/
  r = Ok JNull \/
  exists p, r = Ok p /\ error_free p.
Proof.
  intros H. destruct (requestGraphApi_inv _ _ _ _ _ H) as (_ & _ & _ & _ & E & V).
  destruct r as [v|e].
  - right. destruct (V v eq_refl) as [-> | F]; [now left | right; now exists v].
  - left. now rewrite (E e eq_refl).
Qed.

Lemma request_outcomes_witness :
  exists r st',
    requestGraphApi unauthorized_twice (lit "me") (lit "GET") None (start sample_service)
    = (r, st') /\
    (r = Throw (BaseError (maxRetriesError (lit "me") (lit "GET")) NoDetail) \/
     r = Ok JNull \/
     exists p, r = Ok p /\ error_free p).
Proof.
  destruct (requestGraphApi unauthorized_twice (lit "me") (lit "GET") None
                            (start sample_service)) as [r st'] eqn:E.
  exists r, st'. split; [reflexivity|].
  exact (@request_outcomes unauthorized_twice (lit "me") (lit "GET") None
           (start sample_service) r st' E).
Defined.

(** X15.  A request leaves the configuration of the service as it was
    (only the two tokens may change), and all it does is: requests to
    its own URL with its own verb and body, refreshes of the token, and
    diagnostics.  It never touches the file system and never exchanges
    an authorization code. *)
Theorem request_touches_only_its_url w url method content st r st' :
  requestGraphApi w url method content st = (r, st') ->
  config (this st') = config (this st) /\
  exists evs, trace st' = trace st ++ evs /\
              Forall (expected (msGraphUrl ++ url) method content) evs.
Proof.
  intros H. destruct (requestGraphApi_inv _ _ _ _ _ H) as (C & _ & _ & X & _). now split.
Qed.

Lemma request_touches_only_its_url_witness :
  exists r st',
    requestGraphApi always_unauthorized (lit "me") (lit "GET") None (start sample_service)
    = (r, st') /\
    config (this st') = config (this (start sample_service)) /\
    exists evs, trace st' = trace (start sample_service) ++ evs /\
                Forall (expected (msGraphUrl ++ lit "me") (lit "GET") None) evs.
Proof.
  destruct (requestGraphApi always_unauthorized (lit "me") (lit "GET") None
                            (start sample_service)) as [r st'] eqn:E.
  exists r, st'. split; [reflexivity|].
  exact (@request_touches_only_its_url always_unauthorized (lit "me") (lit "GET") None
           (start sample_service) r st' E).
Defined.



(** X17.  [#requestAuthorizationToken] makes exactly one call to the
    token endpoint, with the grant type and the credential it was
    given, and none to the Graph API.  It is all or nothing: when the
    call is rejected, or its body cannot be parsed, is [null] or has a
    truthy [error], the method throws the error that names the kind of
    credential and the service is unchanged; otherwise it returns the
    payload and both tokens of the service are those of the payload. *)
Theorem token_exchange_is_all_or_nothing w credential grant st r st' :
  requestAuthorizationToken w credential grant st = (r, st') ->
  config (this st') = config (this st) /\
  requests st' = requests st /\
  token_requests st' = S (token_requests st) /\
  graph_requests (trace st') = graph_requests (trace st) /\
  exchanges (trace st') = exchanges (trace st) ++ [EvTokenRequest grant credential] /\
  (exchange_fails (auth w (token_requests st)) = true ->
   r = Throw (BaseError (lit "Cannot get the Sharepoint authorization " ++ tokenKey grant)
                        NoDetail) /\
   this st' = this st) /\
  (exchange_fails (auth w (token_requests st)) = false ->
   exists ra a, auth w (token_requests st) = Some ra /\ body ra = Some a /\
                r = Ok a /\ holds_tokens_of a (this st')).
Proof. exact (@requestAuthorizationToken_inv w credential grant st r st'). Qed.

Lemma token_exchange_is_all_or_nothing_witness :
  exists r st',
    requestAuthorizationToken healthy (str (lit "M.C507")) (lit "authorization_code")
                              (start sample_service) = (r, st') /\
    config (this st') = config (this (start sample_service)) /\
    requests st' = requests (start sample_service) /\
    token_requests st' = S (token_requests (start sample_service)) /\
    graph_requests (trace st') = graph_requests (trace (start sample_service)) /\
    exchanges (trace st')
    = exchanges (trace (start sample_service))
      ++ [EvTokenRequest (lit "authorization_code") (str (lit "M.C507"))] /\
    (exchange_fails (auth healthy (token_requests (start sample_service))) = true ->
     r = Throw (BaseError (lit "Cannot get the Sharepoint authorization "
                             ++ tokenKey (lit "authorization_code")) NoDetail) /\
     this st' = this (start sample_service)) /\
    (exchange_fails (auth healthy (token_requests (start sample_service))) = false ->
     exists ra a, auth healthy (token_requests (start sample_service)) = Some ra /\
                  body ra = Some a /\ r = Ok a /\ holds_tokens_of a (this st')).
Proof.
  destruct (requestAuthorizationToken healthy (str (lit "M.C507")) (lit "authorization_code")
                                      (start sample_service)) as [r st'] eqn:E.
  exists r, st'. split; [reflexivity|].
  exact (@token_exchange_is_all_or_nothing healthy (str (lit "M.C507"))
           (lit "authorization_code") (start sample_service) r st' E).
Defined.

(** X18.  When the Graph API answers 401 and the refresh fails,
    [#renewTokenWithNeeded] throws the error of the refresh and does not
    send the request a second time; the service keeps its tokens. *)
Theorem failed_refresh_ends_the_attempt w url method content st r1 :
  graph w (requests st) = Some r1 -> status r1 = 401%N ->
  exchange_fails (auth w (token_requests st)) = true ->
  exists st',
    renewTokenWithNeeded w url method content st
    = (Throw (BaseError (lit "Cannot get the Sharepoint authorization refresh_token")
                        NoDetail), st') /\
    this st' = this st /\
    requests st' = S (requests st) /\
    token_requests st' = S (token_requests st) /\
    network (trace st')
    = network (trace st)
      ++ [EvRequest url method content (msAccessToken (this st));
          EvTokenRequest (lit "refresh_token") (msRefreshToken (this st))].
Proof.
  intros G S1 F. apply N.eqb_eq in S1. unfold exchange_fails in F.
  unfold_methods. run.
  all: try get_contra.
  all: eexists; split; [reflexivity|]; repeat split; filters_done.
Qed.

Lemma failed_refresh_ends_the_attempt_witness :
  exists st',
    renewTokenWithNeeded refresh_denied (lit "me") (lit "GET") None (start sample_service)
    = (Throw (BaseError (lit "Cannot get the Sharepoint authorization refresh_token")
                        NoDetail), st') /\
    this st' = this (start sample_service) /\
    requests st' = S (requests (start sample_service)) /\
    token_requests st' = S (token_requests (start sample_service)) /\
    network (trace st')
    = network (trace (start sample_service))
      ++ [EvRequest (lit "me") (lit "GET") None (msAccessToken (this (start sample_service)));
          EvTokenRequest (lit "refresh_token")
                         (msRefreshToken (this (start sample_service)))].
Proof.
  apply (@failed_refresh_ends_the_attempt refresh_denied (lit "me") (lit "GET") None
           (start sample_service) unauthorized); reflexivity.
Defined.

(** *** What [uploadFile] guarantees *)

(** X19.  When the file exists and can be read, and the first answer of
    the Graph API is a good one, [uploadFile] returns that answer after
    a single PUT of the bytes of the file to
    [<sharepointFolder>:/<folderName>/<encoded name>:/content], where
    the name is the last segment of [file]. *)
Theorem upload_sends_the_file w rnd attachmentDir folderName file st encoded bytes r p :
  NormalizeUtils.encode rnd (last (split (ch "/") file) []) = Some encoded ->
  file_exists w (attachmentDir ++ lit "/" ++ file) = true ->
  file_content w (attachmentDir ++ lit "/" ++ file) = Some bytes ->
  graph w (requests st) = Some r -> good_answer r p ->
  exists st',
    uploadFile w rnd attachmentDir folderName file st = (Ok p, st') /\
    this st' = this st /\
    requests st' = S (requests st) /\
    token_requests st' = token_requests st /\
    network (trace st')
    = network (trace st)
      ++ [EvRequest (msGraphUrl ++ remote_path (this st) folderName encoded) (lit "PUT")
                    (Some bytes) (msAccessToken (this st))].
Proof.
  intros Henc Hex Hc G A.
  pose proof (error_free_get_opt (proj2 (proj2 A))) as T.
  apply (f_equal negb) in Hex. cbn [negb] in Hex.
  unfold remote_path. unfold_upload. rewrite Henc. run.
  all: match goal with
       | H : requestGraphPut ?w ?u ?c ?s = _ |- _ =>
           destruct (@requestGraphApi_success w u (lit "PUT") c s r p G A)
             as (s2 & E & E1 & E2 & E3 & E4);
           unfold requestGraphPut in H; rewrite E in H;
           first [discriminate H | injection H as <- <-]
       end.
  all: try congruence.
  all: cbn in *; eexists; split; [reflexivity|]; repeat split; cbn;
    try congruence; rewrite ?network_app, E4; filters_done.
Qed.

Lemma upload_sends_the_file_witness :
  exists st',
    uploadFile healthy (1 # 2) (lit "inbox") (lit "mail") (lit "notes/to do.pdf")
               (start sample_service) = (Ok profile, st') /\
    this st' = this (start sample_service) /\
    requests st' = S (requests (start sample_service)) /\
    token_requests st' = token_requests (start sample_service) /\
    network (trace st')
    = network (trace (start sample_service))
      ++ [EvRequest (msGraphUrl
                       ++ remote_path (this (start sample_service)) (lit "mail")
                                      (lit "to%20do.pdf"))
                    (lit "PUT") (Some [37; 80; 68; 70]%N)
                    (msAccessToken (this (start sample_service)))].
Proof.
  apply (@upload_sends_the_file healthy (1 # 2) (lit "inbox") (lit "mail")
           (lit "notes/to do.pdf") (start sample_service) (lit "to%20do.pdf")
           [37; 80; 68; 70]%N
           {| status := 200; statusText := lit "OK"; body := Some profile |} profile).
  - vm_compute. reflexivity.
  - reflexivity.
  - reflexivity.
  - reflexivity.
  - split; [reflexivity|]. split; [reflexivity|].
    exists None. split; reflexivity.
Defined.

(** X20.  When the file exists but cannot be read, [uploadFile] throws
    the upload error of the remote path, with the failure of the file
    system as its detail, and nothing is sent. *)
Theorem upload_of_unreadable_file w rnd attachmentDir folderName file st encoded :
  NormalizeUtils.encode rnd (last (split (ch "/") file) []) = Some encoded ->
  file_exists w (attachmentDir ++ lit "/" ++ file) = true ->
  file_content w (attachmentDir ++ lit "/" ++ file) = None ->
  exists st',
    uploadFile w rnd attachmentDir folderName file st
    = (Throw (BaseError (uploadError (remote_path (this st) folderName encoded))
                        (DetailExn FsFailed)), st') /\
    quiet st st'.
Proof.
  intros Henc Hex Hc.
  apply (f_equal negb) in Hex. cbn [negb] in Hex.
  unfold remote_path, quiet. unfold_upload. rewrite Henc. run.
  all: eexists; split; [reflexivity|]; repeat split; filters_done.
Qed.

Lemma upload_of_unreadable_file_witness :
  exists st',
    uploadFile unreadable_files (1 # 2) (lit "inbox") (lit "mail") (lit "a.txt")
               (start sample_service)
    = (Throw (BaseError (uploadError (remote_path (this (start sample_service))
                                                  (lit "mail") (lit "a.txt")))
                        (DetailExn FsFailed)), st') /\
    quiet (start sample_service) st'.
Proof.
  apply (@upload_of_unreadable_file unreadable_files (1 # 2) (lit "inbox") (lit "mail")
           (lit "a.txt") (start sample_service) (lit "a.txt")).
  - vm_compute. reflexivity.
  - reflexivity.
  - reflexivity.
Defined.

(** X21.  Once the remote path is built, [uploadFile] can fail in two
    ways only, both wrapped in the upload error of that path: the file
    could not be read, or the PUT ran out of retries.  What it returns
    is [null] or a payload with a falsy [error]; it makes at most six
    requests, and none when the file cannot be read. *)
Theorem upload_failures_and_effort w rnd attachmentDir folderName file st encoded r st' :
  NormalizeUtils.encode rnd (last (split (ch "/") file) []) = Some encoded ->
  uploadFile w rnd attachmentDir folderName file st = (r, st') ->
  (forall e, r = Throw e ->
     e = BaseError (uploadError (remote_path (this st) folderName encoded))
                   (DetailExn FsFailed) \/
     e = BaseError (uploadError (remote_path (this st) folderName encoded))
           (DetailExn (BaseError (maxRetriesError (remote_path (this st) folderName encoded)
                                                  (lit "PUT")) NoDetail))) /\
  (forall v, r = Ok v -> v = JNull \/ error_free v) /\
  (file_content w (attachmentDir ++ lit "/" ++ file) = None -> requests st' = requests st) /\
  (requests st <= requests st' <= requests st + 6)%nat.
Proof.
  intros Henc. unfold remote_path. unfold_upload. rewrite Henc. run.
  all: intros H; injection H as <- <-; cbn.
  all: repeat match goal with
         | H : requestGraphPut _ _ _ _ = _ |- _ =>
             apply requestGraphApi_inv in H; cbn in H;
             destruct H as (_ & ? & _ & _ & ? & ?)
         end.
  all: repeat split; try lia; try congruence.
  all: intros x Hx; try discriminate; injection Hx as <-; auto.
  all: try (right; do 2 f_equal; auto; fail).
  all: try (now left).
  all: exfalso;
    match goal with
    | H : forall v : json, Ok ?a = Ok v -> v = JNull \/ error_free v,
      T : truthy (get_opt (Some ?a) _) = true |- _ =>
        destruct (H a eq_refl) as [->|G];
        [vm_compute in T | rewrite (error_free_get_opt G) in T]; discriminate T
    end.
Qed.

Lemma upload_failures_and_effort_witness :
  exists r st',
    uploadFile refresh_denied (1 # 2) (lit "inbox") (lit "mail") (lit "a.txt")
               (start sample_service) = (r, st') /\
    (forall e, r = Throw e ->
       e = BaseError (uploadError (remote_path (this (start sample_service))
                                               (lit "mail") (lit "a.txt")))
                     (DetailExn FsFailed) \/
       e = BaseError (uploadError (remote_path (this (start sample_service))
                                               (lit "mail") (lit "a.txt")))
             (DetailExn (BaseError (maxRetriesError
                                      (remote_path (this (start sample_service))
                                                   (lit "mail") (lit "a.txt"))
                                      (lit "PUT")) NoDetail))) /\
    (forall v, r = Ok v -> v = JNull \/ error_free v) /\
    (file_content refresh_denied (lit "inbox" ++ lit "/" ++ lit "a.txt") = None ->
     requests st' = requests (start sample_service)) /\
    (requests (start sample_service) <= requests st'
     <= requests (start sample_service) + 6)%nat.
Proof.
  destruct (uploadFile refresh_denied (1 # 2) (lit "inbox") (lit "mail") (lit "a.txt")
                       (start sample_service)) as [r st'] eqn:E.
  exists r, st'. split; [reflexivity|].
  apply (@upload_failures_and_effort refresh_denied (1 # 2) (lit "inbox") (lit "mail")
           (lit "a.txt") (start sample_service) (lit "a.txt") r st').
  - vm_compute. reflexivity.
  - exact E.
Defined.

(** *** Signing in *)

(** X22.  Without an access token, [signIn] stores the code that was
    typed in and exchanges it, once, for the tokens; it makes no request
    to the Graph API.  A failed exchange throws and leaves both tokens
    as they were; a successful one stores the tokens of the answer. *)
Theorem signIn_without_token_asks_for_a_code w answer st r st' :
  truthy (msAccessToken (this st)) = false ->
  signIn w answer st = (r, st') ->
  interactive_sign_in w answer st r st'.
Proof. intros T H. eapply signIn_interactive; eassumption. Qed.

Lemma signIn_without_token_asks_for_a_code_witness :
  exists r st',
    signIn healthy (lit "M.C507") (start service_with_boolean_logToken) = (r, st') /\
    interactive_sign_in healthy (lit "M.C507") (start service_with_boolean_logToken) r st'.
Proof.
  destruct (signIn healthy (lit "M.C507") (start service_with_boolean_logToken))
    as [r st'] eqn:E.
  exists r, st'. split; [reflexivity|].
  apply (@signIn_without_token_asks_for_a_code healthy (lit "M.C507")
           (start service_with_boolean_logToken) r st'); [reflexivity | exact E].
Defined.

(** X23.  With an access token, [signIn] asks for no code: it only
    requests [GET me], with the retries and refreshes of any request,
    keeps the configuration, and can throw nothing but the max-retries
    error of that request. *)
Theorem signIn_with_token_probes_the_profile w answer st r st' :
  truthy (msAccessToken (this st)) = true ->
  signIn w answer st = (r, st') ->
  config (this st') = config (this st) /\
  (S (requests st) <= requests st' <= requests st + 6)%nat /\
  (token_requests st <= token_requests st' <= token_requests st + 3)%nat /\
  (exists evs, trace st' = trace st ++ evs /\
               Forall (expected (msGraphUrl ++ lit "me") (lit "GET") None) evs) /\
  (forall e, r = Throw e -> e = BaseError (maxRetriesError (lit "me") (lit "GET")) NoDetail).
Proof. intros T H. eapply signIn_probe; eassumption. Qed.

Lemma signIn_with_token_probes_the_profile_witness :
  exists r st',
    signIn healthy (lit "unused") (start sample_service) = (r, st') /\
    config (this st') = config (this (start sample_service)) /\
    (S (requests (start sample_service)) <= requests st'
     <= requests (start sample_service) + 6)%nat /\
    (token_requests (start sample_service) <= token_requests st'
     <= token_requests (start sample_service) + 3)%nat /\
    (exists evs, trace st' = trace (start sample_service) ++ evs /\
                 Forall (expected (msGraphUrl ++ lit "me") (lit "GET") None) evs) /\
    (forall e, r = Throw e ->
               e = BaseError (maxRetriesError (lit "me") (lit "GET")) NoDetail).
Proof.
  destruct (signIn healthy (lit "unused") (start sample_service)) as [r st'] eqn:E.
  exists r, st'. split; [reflexivity|].
  apply (@signIn_with_token_probes_the_profile healthy (lit "unused")
           (start sample_service) r st'); [reflexivity | exact E].
Defined.

(** X24.  After [logout()] the next [signIn] asks for a code, whatever
    tokens the service held before. *)
Theorem signIn_after_logout_asks_for_a_code w answer st r st' :
  signIn w answer (logged_out st) = (r, st') ->
  interactive_sign_in w answer (logged_out st) r st'.
Proof. intros H. exact (@signIn_interactive w answer (logged_out st) r st' eq_refl H). Qed.

Lemma signIn_after_logout_asks_for_a_code_witness :
  exists r st',
    signIn unreachable (lit "M.C507") (logged_out (start sample_service)) = (r, st') /\
    interactive_sign_in unreachable (lit "M.C507") (logged_out (start sample_service)) r st'.
Proof.
  destruct (signIn unreachable (lit "M.C507") (logged_out (start sample_service)))
    as [r st'] eqn:E.
  exists r, st'. split; [reflexivity|].
  exact (@signIn_after_logout_asks_for_a_code unreachable (lit "M.C507")
           (start sample_service) r st' E).
Defined.

(** X26.  The constructor returns a service exactly when both the client
    id and the client secret are truthy; a token does not stand in for
    either of them. *)
Theorem constructor_needs_client_and_secret (env_debug : value) (p : MsGraphServiceParams) :
  (exists s, constructor env_debug p = Ok s)
  <-> truthy (client p) = true /\ truthy (secret p) = true.
Proof.
  split.
  - intros [s H]. destruct (@constructor_ok env_debug p s H) as (C & S & _). now split.
  - intros [C S]. unfold constructor. rewrite C, S. cbn [negb]. eexists. reflexivity.
Qed.

(** X27.  A service that has just been constructed signs in by the token
    it was given.  Without a truthy token, [signIn] exchanges the code
    typed in; with one, all it does is [GET me] (with its refreshes and
    diagnostics) and no code is exchanged. *)
Theorem constructed_service_signs_in_by_its_token env_debug p s w answer r st' :
  constructor env_debug p = Ok s ->
  signIn w answer (start s) = (r, st') ->
  (truthy (token p) = false -> interactive_sign_in w answer (start s) r st') /\
  (truthy (token p) = true ->
   Forall (expected (msGraphUrl ++ lit "me") (lit "GET") None) (trace st')).
Proof.
  intros C H. destruct (@constructor_ok env_debug p s C) as (_ & _ & T & _).
  split; intros Ht.
  - apply (@signIn_interactive w answer (start s) r st'); [|exact H].
    cbn. now rewrite T.
  - assert (Ht' : truthy (msAccessToken (this (start s))) = true) by (cbn; now rewrite T).
    destruct (@signIn_probe w answer (start s) r st' Ht' H) as (_ & _ & _ & (evs & X & F) & _).
    rewrite X. cbn. exact F.
Qed.

Lemma constructed_service_signs_in_by_its_token_witness :
  exists s r st',
    constructor None params_with_token = Ok s /\
    signIn healthy (lit "unused") (start s) = (r, st') /\
    (truthy (token params_with_token) = false ->
     interactive_sign_in healthy (lit "unused") (start s) r st') /\
    (truthy (token params_with_token) = true ->
     Forall (expected (msGraphUrl ++ lit "me") (lit "GET") None) (trace st')).
Proof.
  destruct (constructor None params_with_token) as [s|e] eqn:C; [|discriminate C].
  destruct (signIn healthy (lit "unused") (start s)) as [r st'] eqn:E.
  exists s, r, st'. split; [reflexivity|]. split; [exact E|].
  exact (@constructed_service_signs_in_by_its_token None params_with_token s healthy
           (lit "unused") r st' C E).
Defined.

(** X25.  For a domain whose text holds no dollar sign,
    [getSharepointUrl] is the plain concatenation
    [https://<domain>.sharepoint.com/<sharepointFolderUrl><url>]. *)
Theorem getSharepointUrl_of_plain_domain (this : service) (url : jsstring) :
  forallb noDollar (ToString (msDomain this)) = true ->
  getSharepointUrl this url
  = lit "https://" ++ ToString (msDomain this) ++ lit ".sharepoint.com/"
      ++ sharepointFolderUrl this ++ url.
Proof.
  intros H. unfold getSharepointUrl.
  rewrite msDomainUrl_replaced, (GetSubstitution_plain _ _ _ _ H).
  now rewrite <- !app_assoc.
Qed.

Lemma getSharepointUrl_of_plain_domain_witness :
  getSharepointUrl sample_service (lit "mail/a.txt")
  = lit "https://" ++ ToString (msDomain sample_service) ++ lit ".sharepoint.com/"
      ++ sharepointFolderUrl sample_service ++ lit "mail/a.txt".
Proof.
  apply (@getSharepointUrl_of_plain_domain sample_service (lit "mail/a.txt")).
  vm_compute. reflexivity.
Defined.

End ServiceMore.
